(** * pull-request-fetcher: a shallow embedding of [src/consume_github_api.js]

    The module fetches the pull requests of a repository page by page,
    keeps those touched inside a range of calendar days and returns a
    projection of each.  The file has two halves: first the embedding
    (JavaScript values, the string and [Date] built-ins the program calls,
    the HTTP client as a reply function over the history of requests, and
    the program's functions under their own names), then the properties. *)

From Stdlib Require Import ZArith String Ascii List Bool Lia.
From stdpp Require Import base option list gmap strings.

Open Scope Z_scope.

(** ** JavaScript values

    Records come out of JSON response bodies, so a value is a JSON value or
    [undefined].  Numbers are the integer ones (identifiers, statuses, time
    values); objects are finite maps from property names to values. *)

#[warnings="-register-all"]
Inductive JVal : Type :=
| JUndefined
| JNull
| JBool (b : bool)
| JNum (n : Z)
| JStr (s : string)
| JArr (elements : list JVal)
| JObj (props : gmap string JVal).

(** Exceptions the program can raise or let through.  [AxiosError] is the
    client's rejection: [response] is present when the server answered with
    a failure status and absent on a transport failure. *)

Record Response : Type := mkResponse {
  status : Z;
  headers : gmap string string;
  data : JVal
}.

Inductive JsError : Type :=
| TypeError (message : string)
| RangeError (message : string)
| Error (message : string)
| AxiosError (code : string) (response : option Response).

(** A completion of a synchronous call, and the settled state of a promise. *)

Inductive Completion (A : Type) : Type :=
| Return (a : A)
| Throw (e : JsError).
Arguments Return {A} a.
Arguments Throw {A} e.

Inductive Settled (A : Type) : Type :=
| fulfilled (value : A)
| rejected (reason : JsError).
Arguments fulfilled {A} value.
Arguments rejected {A} reason.

#[global] Instance Completion_ret : MRet Completion := @Return.
#[global] Instance Completion_bind : MBind Completion :=
  fun A B f m => match m with Return a => f a | Throw e => Throw e end.

(** ** Code units and strings

    A string is a sequence of code units below 256. *)

Definition code (c : ascii) : Z := Z.of_nat (nat_of_ascii c).

Definition is_digit (c : ascii) : bool := (48 <=? code c) && (code c <=? 57).

Definition digit_value (c : ascii) : Z := code c - 48.

Definition digit_char (d : Z) : ascii := ascii_of_nat (Z.to_nat (48 + d)).

(** [LineTerminator]: what the regular expression [.] refuses. *)
Definition is_line_terminator (c : ascii) : bool :=
  (code c =? 10) || (code c =? 13).

(** [WhiteSpace] and [LineTerminator]: what [trim] removes. *)
Definition is_white_space (c : ascii) : bool :=
  (code c =? 9) || (code c =? 10) || (code c =? 11) || (code c =? 12)
  || (code c =? 13) || (code c =? 32) || (code c =? 160).

Definition is_empty (s : string) : bool :=
  match s with EmptyString => true | String _ _ => false end.

Definition str_length (s : string) : Z := Z.of_nat (String.length s).

(** [s.startsWith(p)] *)
Fixpoint startsWith (p s : string) : bool :=
  match p, s with
  | EmptyString, _ => true
  | String a p', String b s' => Ascii.eqb a b && startsWith p' s'
  | String _ _, EmptyString => false
  end.

(** [s.split(sep)] for a separator of one code unit. *)
Fixpoint split (sep : ascii) (s : string) : list string :=
  match s with
  | EmptyString => [EmptyString]
  | String c s' =>
      if Ascii.eqb c sep then EmptyString :: split sep s'
      else match split sep s' with
           | p :: ps => String c p :: ps
           | [] => [String c EmptyString]
           end
  end.

Fixpoint trimStart (s : string) : string :=
  match s with
  | EmptyString => EmptyString
  | String c s' => if is_white_space c then trimStart s' else s
  end.

Fixpoint trimEnd (s : string) : string :=
  match s with
  | EmptyString => EmptyString
  | String c s' =>
      let t := trimEnd s' in
      if is_white_space c && is_empty t then EmptyString else String c t
  end.

(** [s.trim()] *)
Definition trim (s : string) : string := trimEnd (trimStart s).

(** [s.padStart(n, fill)] for a filler of one code unit. *)
Definition padStart (n : nat) (fill : ascii) (s : string) : string :=
  Nat.iter (n - String.length s)%nat (String fill) s.

(** The text of [s] before its first line terminator, and the rest. *)
Fixpoint span_line (s : string) : string * string :=
  match s with
  | EmptyString => (EmptyString, EmptyString)
  | String c s' =>
      if is_line_terminator c then (EmptyString, s)
      else let '(l, r) := span_line s' in (String c l, r)
  end.

(** [s] cut at the last occurrence of [c]. *)
Fixpoint split_last (c : ascii) (s : string) : option (string * string) :=
  match s with
  | EmptyString => None
  | String a s' =>
      match split_last c s' with
      | Some (l, r) => Some (String a l, r)
      | None => if Ascii.eqb a c then Some (EmptyString, s') else None
      end
  end.

(** A match of the pattern "open, any run of non-terminators (the group),
    close" anchored at the start of [rest], the text after [open]: the
    greedy group runs to the end of the line and backs up to the last
    [close] on it.  The result is the text with the match replaced by its
    group. *)
Definition match_group (close : ascii) (rest : string) : option string :=
  let '(line, tail) := span_line rest in
  match split_last close line with
  | Some (group, after) => Some (group +:+ after +:+ tail)
  | None => None
  end.

Fixpoint drop_prefix (p s : string) : option string :=
  match p, s with
  | EmptyString, _ => Some s
  | String a p', String b s' => if Ascii.eqb a b then drop_prefix p' s' else None
  | String _ _, EmptyString => None
  end.

(** [s.replace(re, "$1")] for such a pattern [re]: the leftmost match is
    replaced by its group; without a match the string is returned as it
    is. *)
Fixpoint replace_group (open : string) (close : ascii) (s : string) : string :=
  match (rest ← drop_prefix open s; match_group close rest) with
  | Some r => r
  | None =>
      match s with
      | EmptyString => EmptyString
      | String c s' => String c (replace_group open close s')
      end
  end.

(** Decimal digits of a non-negative integer, most significant first. *)
Fixpoint digits_from (fuel : nat) (n : Z) (acc : string) : string :=
  let acc' := String (digit_char (n mod 10)) acc in
  match fuel with
  | O => acc'
  | S fuel' => if n <? 10 then acc' else digits_from fuel' (n / 10) acc'
  end.

Definition digits (n : Z) : string :=
  digits_from (Z.to_nat (Z.log2 n)) n EmptyString.

(** [Number.prototype.toString] on an integer. *)
Definition Number_toString (n : Z) : string :=
  if n <? 0 then "-" +:+ digits (- n) else digits n.

(** ** Conversions and property access *)

Definition typeof (v : JVal) : string :=
  match v with
  | JUndefined => "undefined"
  | JNull | JArr _ | JObj _ => "object"
  | JBool _ => "boolean"
  | JNum _ => "number"
  | JStr _ => "string"
  end.

(** [ToBoolean] *)
Definition truthy (v : JVal) : bool :=
  match v with
  | JUndefined | JNull => false
  | JBool b => b
  | JNum n => negb (n =? 0)
  | JStr s => negb (is_empty s)
  | JArr _ | JObj _ => true
  end.

(** [ToString], as a template literal applies it.  An array joins its
    elements with commas, [null] and [undefined] elements giving the
    empty string. *)
Fixpoint ToString (v : JVal) : string :=
  match v with
  | JUndefined => "undefined"
  | JNull => "null"
  | JBool b => if b then "true" else "false"
  | JNum n => Number_toString n
  | JStr s => s
  | JArr xs =>
      (fix join (l : list JVal) : string :=
         match l with
         | [] => ""
         | x :: l' =>
             let sx := match x with
                       | JUndefined | JNull => ""
                       | _ => ToString x
                       end in
             match l' with [] => sx | _ :: _ => sx +:+ "," +:+ join l' end
         end) xs
  | JObj _ => "[object Object]"
  end.

(** [v.key] for a key that no built-in prototype defines ([created_at],
    [login], ...): reading a property of [null] or [undefined] throws, a
    missing property reads as [undefined]. *)
Definition Get (v : JVal) (key : string) : Completion JVal :=
  match v with
  | JUndefined =>
      Throw (TypeError ("Cannot read properties of undefined (reading '"
                        +:+ key +:+ "')"))
  | JNull =>
      Throw (TypeError ("Cannot read properties of null (reading '"
                        +:+ key +:+ "')"))
  | JObj props => Return (default JUndefined (props !! key))
  | _ => Return JUndefined
  end.

(** [Object.entries]: the own enumerable string-keyed properties. *)
Definition Object_entries (v : JVal) : Completion (list (string * JVal)) :=
  match v with
  | JUndefined | JNull =>
      Throw (TypeError "Cannot convert undefined or null to object")
  | JObj props => Return (map_to_list props)
  | JArr xs => Return (imap (fun i x => (Number_toString (Z.of_nat i), x)) xs)
  | JStr s =>
      Return (imap (fun i c => (Number_toString (Z.of_nat i),
                                JStr (String c EmptyString)))
                   (list_ascii_of_string s))
  | JBool _ | JNum _ => Return []
  end.

(** [Object.fromEntries]: properties are defined in order, a later entry
    replacing an earlier one of the same key. *)
Definition Object_fromEntries (entries : list (string * JVal)) : JVal :=
  JObj (fold_left (fun m e => <[e.1 := e.2]> m) entries ∅).

(** [keys.includes(key)] *)
Definition includes (key : string) (keys : list string) : bool :=
  existsb (String.eqb key) keys.

(** [xs.concat(v)]: an array argument is spread, anything else is appended
    as one element. *)
Definition Array_concat (xs : list JVal) (v : JVal) : list JVal :=
  match v with
  | JArr ys => xs ++ ys
  | _ => xs ++ [v]
  end.

(** ** Time values and calendar arithmetic

    The functions of the ECMAScript chapter on [Date] objects, on integer
    time values: milliseconds since 1970-01-01T00:00:00Z, days since the
    same.  A [Date] whose time value is [NaN] is [None]. *)

Definition msPerSecond : Z := 1000.
Definition msPerMinute : Z := 60000.
Definition msPerHour : Z := 3600000.
Definition msPerDay : Z := 86400000.

Definition Day (t : Z) : Z := t / msPerDay.
Definition TimeWithinDay (t : Z) : Z := t mod msPerDay.

Definition DaysInYear (y : Z) : Z :=
  if negb (y mod 4 =? 0) then 365
  else if negb (y mod 100 =? 0) then 366
  else if negb (y mod 400 =? 0) then 365
  else 366.

Definition DayFromYear (y : Z) : Z :=
  365 * (y - 1970) + (y - 1969) / 4 - (y - 1901) / 100 + (y - 1601) / 400.

Definition TimeFromYear (y : Z) : Z := msPerDay * DayFromYear y.

(** The year of a day number: the largest [y] with [DayFromYear y <= d].
    The mean Gregorian year has 146097/400 days, so the estimate is off by
    at most one. *)
Definition YearFromDay (d : Z) : Z :=
  let y := 1970 + (400 * d) / 146097 in
  if DayFromYear (y + 1) <=? d then y + 1
  else if DayFromYear y <=? d then y
  else y - 1.

Definition YearFromTime (t : Z) : Z := YearFromDay (Day t).

Definition leap (y : Z) : Z := if DaysInYear y =? 366 then 1 else 0.

Definition InLeapYear (t : Z) : Z := leap (YearFromTime t).

Definition DayWithinYear (t : Z) : Z := Day t - DayFromYear (YearFromTime t).

(** Days of the year before month [m] (0 is January; 12 is the whole year). *)
Definition month_start (lp m : Z) : Z :=
  if m <=? 0 then 0
  else if m =? 1 then 31
  else if m =? 2 then 59 + lp
  else if m =? 3 then 90 + lp
  else if m =? 4 then 120 + lp
  else if m =? 5 then 151 + lp
  else if m =? 6 then 181 + lp
  else if m =? 7 then 212 + lp
  else if m =? 8 then 243 + lp
  else if m =? 9 then 273 + lp
  else if m =? 10 then 304 + lp
  else if m =? 11 then 334 + lp
  else 365 + lp.

Definition month_of_day (lp d : Z) : Z :=
  if d <? 31 then 0
  else if d <? 59 + lp then 1
  else if d <? 90 + lp then 2
  else if d <? 120 + lp then 3
  else if d <? 151 + lp then 4
  else if d <? 181 + lp then 5
  else if d <? 212 + lp then 6
  else if d <? 243 + lp then 7
  else if d <? 273 + lp then 8
  else if d <? 304 + lp then 9
  else if d <? 334 + lp then 10
  else 11.

Definition MonthFromTime (t : Z) : Z :=
  month_of_day (InLeapYear t) (DayWithinYear t).

Definition DateFromTime (t : Z) : Z :=
  DayWithinYear t - month_start (InLeapYear t) (MonthFromTime t) + 1.

Definition HourFromTime (t : Z) : Z := (t / msPerHour) mod 24.
Definition MinFromTime (t : Z) : Z := (t / msPerMinute) mod 60.
Definition SecFromTime (t : Z) : Z := (t / msPerSecond) mod 60.
Definition msFromTime (t : Z) : Z := t mod msPerSecond.

Definition MakeTime (hour min sec ms : Z) : Z :=
  hour * msPerHour + min * msPerMinute + sec * msPerSecond + ms.

(** [MakeDay]: [month] counts from 0 and may overflow into the years. *)
Definition MakeDay (year month date : Z) : Z :=
  let ym := year + month / 12 in
  let mn := month mod 12 in
  DayFromYear ym + month_start (leap ym) mn + date - 1.

Definition MakeDate (day time : Z) : Z := day * msPerDay + time.

Definition TimeClip (t : Z) : option Z :=
  if 8640000000000000 <? Z.abs t then None else Some t.

(** Days of month [m] (1 is January) of year [y]. *)
Definition DaysInMonth (y m : Z) : Z :=
  if m =? 2 then 28 + leap y
  else if (m =? 4) || (m =? 6) || (m =? 9) || (m =? 11) then 30
  else 31.

Definition valid_ymd (y m d : Z) : bool :=
  (1 <=? m) && (m <=? 12) && (1 <=? d) && (d <=? DaysInMonth y m).

(** *** The date-time string format

    [Date.parse] must recognise the ECMAScript date-time string format and
    may fall back on anything of its own for other strings.  [parse_iso]
    covers two forms of the format with legal field values: a date alone,
    YYYY-MM-DD, which is UTC, and a date with a UTC time,
    YYYY-MM-DDTHH:mm:ss[.sss]Z, the form of the remote API's timestamps.
    Every other string is left to the host. *)

Fixpoint take_digits (n : nat) (acc : Z) (s : string) : option (Z * string) :=
  match n with
  | O => Some (acc, s)
  | S n' =>
      match s with
      | String c s' =>
          if is_digit c then take_digits n' (10 * acc + digit_value c) s'
          else None
      | EmptyString => None
      end
  end.

Definition expect (c : ascii) (s : string) : option string :=
  match s with
  | String a s' => if Ascii.eqb a c then Some s' else None
  | EmptyString => None
  end.

Definition parse_iso_time (day : Z) (s : string) : option Z :=
  s ← expect "T" s;
  '(hh, s) ← take_digits 2 0 s;
  s ← expect ":" s;
  '(mi, s) ← take_digits 2 0 s;
  s ← expect ":" s;
  '(ss, s) ← take_digits 2 0 s;
  '(ms, s) ← match expect "." s with
             | Some s' => take_digits 3 0 s'
             | None => Some (0, s)
             end;
  s ← expect "Z" s;
  if is_empty s && (hh <=? 23) && (mi <=? 59) && (ss <=? 59)
  then Some (MakeDate day (MakeTime hh mi ss ms))
  else None.

Definition parse_iso (s : string) : option Z :=
  '(y, s) ← take_digits 4 0 s;
  s ← expect "-" s;
  '(m, s) ← take_digits 2 0 s;
  s ← expect "-" s;
  '(d, s) ← take_digits 2 0 s;
  if valid_ymd y m d then
    let day := MakeDay y (m - 1) d in
    if is_empty s then Some (MakeDate day 0) else parse_iso_time day s
  else None.

(** Zero-padded decimal of width [n]. *)
Definition pad (n : nat) (x : Z) : string := padStart n "0" (digits x).

(** The text of [Date.prototype.toISOString] for a time value. *)
Definition ISO_string (t : Z) : string :=
  let y := YearFromTime t in
  (if (0 <=? y) && (y <=? 9999) then pad 4 y
   else (if y <? 0 then "-" else "+") +:+ pad 6 (Z.abs y))
  +:+ "-" +:+ pad 2 (MonthFromTime t + 1)
  +:+ "-" +:+ pad 2 (DateFromTime t)
  +:+ "T" +:+ pad 2 (HourFromTime t)
  +:+ ":" +:+ pad 2 (MinFromTime t)
  +:+ ":" +:+ pad 2 (SecFromTime t)
  +:+ "." +:+ pad 3 (msFromTime t)
  +:+ "Z".

(** [String(n)] for a number that may be [NaN]. *)
Definition String_of_number (n : option Z) : string :=
  match n with
  | Some z => Number_toString z
  | None => "NaN"
  end.

(** ** The host

    What the program takes from the process it runs in: the offset of
    local time from UTC in milliseconds (a zone of fixed offset, positive
    east of Greenwich), the engine's own parser for strings outside the
    two forms above, and the access token of the environment. *)

Class Host : Type := {
  LocalTZA : Z;
  legacy_parse : string -> option Z;
  GITHUB_TOKEN : option string
}.

Section Dates.
Context {host : Host}.

Definition LocalTime (t : Z) : Z := t + LocalTZA.
Definition UTC (t : Z) : Z := t - LocalTZA.

(** [Date.parse] *)
Definition Date_parse (s : string) : option Z :=
  match parse_iso s with
  | Some t => TimeClip t
  | None => t ← legacy_parse s; TimeClip t
  end.

(** [new Date(v)]: a string is parsed, an object or array is first turned
    into its string, anything else into a number. *)
Definition Date_new (v : JVal) : option Z :=
  match v with
  | JStr s => Date_parse s
  | JArr _ | JObj _ => Date_parse (ToString v)
  | JUndefined => None
  | JNull => TimeClip 0
  | JBool b => TimeClip (if b then 1 else 0)
  | JNum n => TimeClip n
  end.

(** [date.setHours(h, m, s, ms)]: the fields of the local day are replaced. *)
Definition setHours (date : option Z) (h m s ms : Z) : option Z :=
  t ← date;
  TimeClip (UTC (MakeDate (Day (LocalTime t)) (MakeTime h m s ms))).

Definition getFullYear (date : option Z) : option Z :=
  t ← date; Some (YearFromTime (LocalTime t)).

Definition getMonth (date : option Z) : option Z :=
  t ← date; Some (MonthFromTime (LocalTime t)).

Definition getDate (date : option Z) : option Z :=
  t ← date; Some (DateFromTime (LocalTime t)).

Definition toISOString (date : option Z) : Completion string :=
  match date with
  | Some t => Return (ISO_string t)
  | None => Throw (RangeError "Invalid time value")
  end.

(** [a >= b] and [a <= b] on dates: the time values are compared, and a
    comparison with [NaN] is false. *)
Definition Date_ge (a b : option Z) : bool :=
  match a, b with
  | Some x, Some y => y <=? x
  | _, _ => false
  end.

Definition Date_le (a b : option Z) : bool :=
  match a, b with
  | Some x, Some y => x <=? y
  | _, _ => false
  end.

Definition Date_lt (a b : option Z) : bool :=
  match a, b with
  | Some x, Some y => x <? y
  | _, _ => false
  end.

End Dates.

(** ** The HTTP client

    A request is what the program hands to the client.  The remote side is
    a reply function: it sees the requests issued before and the current
    one.  Requests are recorded in issue order, which the program fixes:
    the owner probe, the repository probe and the first page are issued in
    that order when the three operations are started, every later page
    after them.  How long a reply takes is not modelled. *)

Inductive Method : Type := HEAD | GET.

Record Config : Type := mkConfig {
  params : list (string * JVal);
  config_headers : list (string * string)
}.

Record Request : Type := mkRequest {
  method : Method;
  url : string;
  config : Config
}.

Definition History : Type := list Request.

Class Remote : Type := {
  axios : History -> Request -> Settled Response
}.

(** A computation that may issue requests, as the body of an [async]
    function is: it ends by returning or throwing, and extends the
    history.  A promise of it is fulfilled or rejected accordingly. *)
Definition Prom (A : Type) : Type := History -> Completion A * History.

#[global] Instance Prom_ret : MRet Prom := fun A a h => (Return a, h).
#[global] Instance Prom_bind : MBind Prom :=
  fun A B f m h =>
    match m h with
    | (Return a, h') => f a h'
    | (Throw e, h') => (Throw e, h')
    end.

(** A synchronous completion inside an [async] body. *)
Definition lift {A} (c : Completion A) : Prom A := fun h => (c, h).

(** [try { body } catch (error) { handler }] *)
Definition try_catch {A} (body : Prom A) (handler : JsError -> Prom A) : Prom A :=
  fun h =>
    match body h with
    | (Return a, h') => (Return a, h')
    | (Throw error, h') => handler error h'
    end.

Definition settle {A} (c : Completion A) : Settled A :=
  match c with
  | Return a => fulfilled a
  | Throw e => rejected e
  end.

(** [error.response?.status] *)
Definition response_status (error : JsError) : option Z :=
  match error with
  | AxiosError _ (Some r) => Some (status r)
  | _ => None
  end.

Definition dquote : ascii := ascii_of_nat 34.

Definition BASE_API_URL : string := "https://api.github.com".

(** ** The program *)

Section Program.
Context {host : Host} {remote : Remote}.

(** [if (GITHUB_TOKEN)] *)
Definition token : option string :=
  match GITHUB_TOKEN with
  | Some t => if is_empty t then None else Some t
  | None => None
  end.

(** [axios.head(url, config)] and [axios.get(url, config)], awaited. *)
Definition axios_call (m : Method) (u : string) (c : Config) : Prom Response :=
  fun h =>
    let request := mkRequest m u c in
    match axios h request with
    | fulfilled response => (Return response, h ++ [request])
    | rejected error => (Throw error, h ++ [request])
    end.

Definition getHeaders (url : string) : Prom Response :=
  let config :=
    match token with
    | Some t => mkConfig [] [("Authorization", "Bearer " +:+ t)]
    | None => mkConfig [] []
    end in
  axios_call HEAD url config.

Definition getPullsData (url : string) : Prom Response :=
  let params := [("state", JStr "all"); ("per_page", JNum 100)] in
  let config :=
    match token with
    | Some t => mkConfig params [("Authorization", "Bearer " +:+ t);
                                 ("Cache-Control", "no-cache")]
    | None => mkConfig params []
    end in
  axios_call GET url config.

Definition validateStringNotEmpty (value : JVal) : Completion unit :=
  match value with
  | JStr s =>
      if is_empty s || (str_length (trim s) =? 0)
      then Throw (Error "Expected a non-empty string but recieved an empty string")
      else Return tt
  | _ => Throw (TypeError ("Expected a string but received: " +:+ typeof value))
  end.

Definition verifyOwnerExists (owner : JVal) : Prom bool :=
  lift (validateStringNotEmpty owner);;
  let url := BASE_API_URL +:+ "/users/" +:+ ToString owner in
  try_catch
    (response ← getHeaders url;
     mret (status response =? 200))
    (fun error =>
       if bool_decide (response_status error = Some 404)
       then lift (Throw (Error ("repository owner " +:+ ToString owner
                                +:+ " not found")))
       else lift (Throw error)).

Definition verifyRepoExists (repo owner : JVal) : Prom bool :=
  lift (validateStringNotEmpty repo);;
  let url := BASE_API_URL +:+ "/repos/" +:+ ToString owner
             +:+ "/" +:+ ToString repo in
  try_catch
    (response ← getHeaders url;
     mret (status response =? 200))
    (fun error =>
       if bool_decide (response_status error = Some 404)
       then lift (Throw (Error ("repository " +:+ ToString repo
                                +:+ " for owner " +:+ ToString owner
                                +:+ " not found")))
       else lift (Throw error)).

(** [links[key] = value] on an object literal: the key [__proto__] reaches
    the inherited setter, which ignores a string. *)
Definition set_link (links : gmap string string) (key value : string)
  : gmap string string :=
  if String.eqb key "__proto__" then links else <[key := value]> links.

(** One round of the [forEach] of [parseLinkHeader]: [const [url, rel] =
    part.split(";")] leaves [rel] undefined when the part has no
    semicolon, and [rel.replace] then throws. *)
Definition parseLinkPart (links : gmap string string) (part : string)
  : Completion (gmap string string) :=
  match split ";" part with
  | url :: rel :: _ =>
      let cleanedUrl := trim (replace_group "<" ">" url) in
      let cleanedRel :=
        trim (replace_group ("rel=" +:+ String dquote "") dquote rel) in
      Return (set_link links cleanedRel cleanedUrl)
  | _ =>
      Throw (TypeError "Cannot read properties of undefined (reading 'replace')")
  end.

Definition parseLinkHeader (header : string) : Completion (gmap string string) :=
  let parts := split "," header in
  fold_left (fun acc part => links ← acc; parseLinkPart links part)
            parts (Return ∅).

(** The loop of [getAllPullRequests]: [fuel] bounds the number of rounds,
    and [None] stands for a loop still running when it is used up. *)
Fixpoint getAllPullRequests_loop (fuel : nat) (allPullRequests : list JVal)
    (nextPageUrl : string) (h : History)
  : option (Completion (list JVal) * History) :=
  match fuel with
  | O => None
  | S fuel' =>
      match getPullsData nextPageUrl h with
      | (Throw error, h') => Some (Throw error, h')
      | (Return response, h') =>
          let allPullRequests := Array_concat allPullRequests (data response) in
          match headers response !! "link" with
          | Some linkHeader =>
              if is_empty linkHeader then Some (Return allPullRequests, h')
              else
                match parseLinkHeader linkHeader with
                | Throw error => Some (Throw error, h')
                | Return links =>
                    match links !! "next" with
                    | Some next =>
                        if is_empty next
                        then Some (Return allPullRequests, h')
                        else getAllPullRequests_loop fuel' allPullRequests next h'
                    | None => Some (Return allPullRequests, h')
                    end
                end
          | None => Some (Return allPullRequests, h')
          end
      end
  end.

Definition getAllPullRequests (fuel : nat) (repo owner : JVal) (h : History)
  : option (Completion (list JVal) * History) :=
  let nextPageUrl := BASE_API_URL +:+ "/repos/" +:+ ToString owner
                     +:+ "/" +:+ ToString repo +:+ "/pulls" in
  getAllPullRequests_loop fuel [] nextPageUrl h.

Definition parseDate (dateString : JVal) (isEndDate : bool) : option Z :=
  let date := Date_new dateString in
  if isEndDate then setHours date 23 59 59 999 else setHours date 0 0 0 0.

Definition isDateInRange (start end_ : option Z) (dateString : JVal) : bool :=
  if negb (truthy dateString) then false
  else
    let date := Date_new dateString in
    Date_ge date start && Date_le date end_.

(** [xs.filter(f)] for a callback that may throw. *)
Fixpoint Array_filter (f : JVal -> Completion bool) (xs : list JVal)
  : Completion (list JVal) :=
  match xs with
  | [] => Return []
  | x :: xs' =>
      keep ← f x;
      rest ← Array_filter f xs';
      Return (if keep : bool then x :: rest else rest)
  end.

Definition filterPullRequestsByDateRange (pulls : list JVal)
    (startDate endDate : JVal) : Completion (list JVal) :=
  let start := parseDate startDate false in
  let end_ := parseDate endDate true in
  Array_filter
    (fun pull =>
       created_at ← Get pull "created_at";
       if isDateInRange start end_ created_at then Return true else
       updated_at ← Get pull "updated_at";
       if isDateInRange start end_ updated_at then Return true else
       merged_at ← Get pull "merged_at";
       if isDateInRange start end_ merged_at then Return true else
       closed_at ← Get pull "closed_at";
       Return (isDateInRange start end_ closed_at))
    pulls.

Definition formatDate (dateString : JVal) : string :=
  let date := Date_new dateString in
  let year := getFullYear date in
  let month :=
    padStart 2 "0" (String_of_number ((fun m => m + 1) <$> getMonth date)) in
  let day := padStart 2 "0" (String_of_number (getDate date)) in
  String_of_number year +:+ "-" +:+ month +:+ "-" +:+ day.

(** The callback of [formatObjectByKey]: [None] is its [null]. *)
Definition formatEntry (keysToKeep : list string) (entry : string * JVal)
  : Completion (option (string * JVal)) :=
  let '(key, value) := entry in
  if includes key keysToKeep then
    if String.eqb key "user" && String.eqb (typeof value) "object" then
      login ← Get value "login";
      Return (Some (key, login))
    else if String.eqb key "created_at" || String.eqb key "updated_at"
            || String.eqb key "closed_at" || String.eqb key "merged_at" then
      Return (Some (key, JStr (formatDate value)))
    else Return (Some (key, value))
  else Return None.

Definition formatObjectByKey (obj : JVal) (keysToKeep : list string)
  : Completion JVal :=
  entries ← Object_entries obj;
  mapped ← mapM (formatEntry keysToKeep) entries;
  Return (Object_fromEntries (omap id mapped)).

(** The pattern of [validateDateStrings]: four digits, a hyphen, two
    digits, a hyphen, two digits, and nothing before or after. *)
Definition date_regex (s : string) : bool :=
  match s with
  | String y1 (String y2 (String y3 (String y4 (String h1
      (String m1 (String m2 (String h2 (String d1 (String d2
        EmptyString))))))))) =>
      is_digit y1 && is_digit y2 && is_digit y3 && is_digit y4
      && Ascii.eqb h1 "-"
      && is_digit m1 && is_digit m2
      && Ascii.eqb h2 "-"
      && is_digit d1 && is_digit d2
  | _ => false
  end.

(** [isValidDate]: a value without a [match] method makes the call throw. *)
Definition isValidDate (dateString : JVal) : Completion bool :=
  match dateString with
  | JStr s =>
      if negb (date_regex s) then Return false
      else
        let date := Date_new dateString in
        match date with
        | None => Return false
        | Some _ =>
            iso ← toISOString date;
            Return (startsWith s iso)
        end
  | JUndefined =>
      Throw (TypeError "Cannot read properties of undefined (reading 'match')")
  | JNull =>
      Throw (TypeError "Cannot read properties of null (reading 'match')")
  | _ => Throw (TypeError "dateString.match is not a function")
  end.

Definition validateDateStrings (startDate endDate : JVal) : Completion unit :=
  valid ← isValidDate startDate;
  if negb valid
  then Throw (Error ("Invalid start date: " +:+ ToString startDate)) else
  valid ← isValidDate endDate;
  if negb valid
  then Throw (Error ("Invalid end date: " +:+ ToString endDate)) else
  let start := Date_new startDate in
  let end_ := Date_new endDate in
  if Date_lt end_ start
  then Throw (Error ("End date " +:+ ToString endDate
                     +:+ " cannot be before start date "
                     +:+ ToString startDate))
  else Return tt.

(** The reason of a rejected promise of [Promise.allSettled]. *)
Definition rejection {A} (p : Settled A) : option JsError :=
  match p with
  | rejected reason => Some reason
  | fulfilled _ => None
  end.

(** The [forEach] that throws the reason of the first rejected promise. *)
Fixpoint throw_first_rejected (reasons : list (option JsError))
  : Completion unit :=
  match reasons with
  | [] => Return tt
  | Some reason :: _ => Throw reason
  | None :: rest => throw_first_rejected rest
  end.

Definition keysToKeep : list string :=
  ["id"; "user"; "title"; "state"; "created_at"].

(** [getPullRequests]: the three operations are started in order and all
    run to their end; [None] when the page loop is still running after
    [fuel] rounds, the call then having no outcome. *)
Definition getPullRequests (fuel : nat) (owner repo startDate endDate : JVal)
    (h : History) : option (Completion (list JVal) * History) :=
  match validateDateStrings startDate endDate with
  | Throw error => Some (Throw error, h)
  | Return _ =>
      let '(c1, h1) := verifyOwnerExists owner h in
      let '(c2, h2) := verifyRepoExists repo owner h1 in
      match getAllPullRequests fuel repo owner h2 with
      | None => None
      | Some (c3, h3) =>
          let ownerExists := settle c1 in
          let repoExists := settle c2 in
          let allPullRequests := settle c3 in
          Some
            (throw_first_rejected
               [rejection ownerExists; rejection repoExists;
                rejection allPullRequests];;
             filteredPullRequests ←
               filterPullRequestsByDateRange
                 (match allPullRequests with
                  | fulfilled value => value
                  | rejected _ => []
                  end)
                 startDate endDate;
             mapM (fun item => formatObjectByKey item keysToKeep)
                  filteredPullRequests,
             h3)
      end
  end.

End Program.

(** ** Notions used to state the properties *)

(** The text of a number of two and of four digits. *)
Definition digit_string2 (x : Z) : string :=
  String (digit_char (x / 10)) (String (digit_char (x mod 10)) EmptyString).

Definition digit_string4 (x : Z) : string :=
  String (digit_char (x / 1000))
    (String (digit_char (x / 100 mod 10))
       (String (digit_char (x / 10 mod 10))
          (String (digit_char (x mod 10)) EmptyString))).

(** The text YYYY-MM-DD of a year, a month and a day. *)
Definition date_string (y m d : Z) : string :=
  digit_string4 y +:+ "-" +:+ digit_string2 m +:+ "-" +:+ digit_string2 d.

(** The three numbers a text of the shape YYYY-MM-DD spells. *)
Definition date_fields (s : string) : option (Z * Z * Z) :=
  '(y, s) ← take_digits 4 0 s;
  s ← expect "-" s;
  '(m, s) ← take_digits 2 0 s;
  s ← expect "-" s;
  '(d, s) ← take_digits 2 0 s;
  if is_empty s then Some (y, m, d) else None.

(** The date of the calendar that a string names: it has the shape
    YYYY-MM-DD and its month and day exist in its year. *)
Definition calendar_date (s : string) : option (Z * Z * Z) :=
  if date_regex s then
    '(y, m, d) ← date_fields s;
    if valid_ymd y m d then Some (y, m, d) else None
  else None.

Definition valid_date (date : Z * Z * Z) : bool :=
  let '(y, m, d) := date in valid_ymd y m d.

(** Days from 1970-01-01 to a date. *)
Definition day_number (date : Z * Z * Z) : Z :=
  let '(y, m, d) := date in MakeDay y (m - 1) d.

(** Earlier in the calendar. *)
Definition ymd_lt (a b : Z * Z * Z) : bool :=
  let '(y1, m1, d1) := a in
  let '(y2, m2, d2) := b in
  (y1 <? y2) || ((y1 =? y2) && ((m1 <? m2) || ((m1 =? m2) && (d1 <? d2)))).

(** The kinds of failure, told apart by the text the program gives them. *)
Definition TypeKind (e : JsError) : Prop :=
  exists message, e = TypeError message.

Definition EmptyValueKind (e : JsError) : Prop :=
  e = Error "Expected a non-empty string but recieved an empty string".

Definition InvalidDateKind (e : JsError) : Prop :=
  exists s, e = Error ("Invalid start date: " +:+ s)
            \/ e = Error ("Invalid end date: " +:+ s).

Definition RangeOrderKind (e : JsError) : Prop :=
  exists startDate endDate,
    e = Error ("End date " +:+ endDate +:+ " cannot be before start date "
               +:+ startDate).

Definition OwnerNotFoundKind (owner : string) (e : JsError) : Prop :=
  e = Error ("repository owner " +:+ owner +:+ " not found").

Definition RepoNotFoundKind (owner repo : string) (e : JsError) : Prop :=
  e = Error ("repository " +:+ repo +:+ " for owner " +:+ owner +:+ " not found").

(** The four timestamps of a pull request, and the value of one on a
    record ([undefined] when the record does not have it). *)
Definition timestamp_keys : list string :=
  ["created_at"; "updated_at"; "merged_at"; "closed_at"].

Definition field (pull : JVal) (key : string) : JVal :=
  match pull with
  | JObj props => default JUndefined (props !! key)
  | _ => JUndefined
  end.

Definition is_record (v : JVal) : Prop := exists props, v = JObj props.



(** The window of the date range on clocks [zone] milliseconds ahead of
    UTC: from 00:00:00.000 of the start day to 23:59:59.999 of the end
    day, as time values. *)
Definition day_window (zone : Z) (startDay endDay : Z) : Z * Z :=
  (MakeDate startDay 0 - zone, MakeDate endDay (msPerDay - 1) - zone).

(** A concrete host: a zone of the given offset, an engine that parses
    nothing outside the date-time format, no token. *)
Definition host_at (offset : Z) : Host :=
  {| LocalTZA := offset; legacy_parse := fun _ => None; GITHUB_TOKEN := None |}.

Section FilterNotions.
Context {host : Host}.

(** What the callback of the filter computes on a record. *)
Definition in_range_any (start end_ : option Z) (pull : JVal) : bool :=
  existsb (fun key => isDateInRange start end_ (field pull key)) timestamp_keys.

(** A timestamp that is present, parses and falls in the window. *)
Definition timestamp_within (window : Z * Z) (v : JVal) : bool :=
  match v with
  | JUndefined | JNull => false
  | _ =>
      match Date_new v with
      | Some t => (window.1 <=? t) && (t <=? window.2)
      | None => false
      end
  end.

(** A record with at least one of its four timestamps in the window. *)
Definition touched_within (window : Z * Z) (pull : JVal) : bool :=
  existsb (fun key => timestamp_within window (field pull key)) timestamp_keys.

(** A timestamp the filter cannot use: absent, [null] or a text that does
    not parse. *)
Definition unusable_timestamp (v : JVal) : Prop :=
  v = JUndefined \/ v = JNull \/ exists s, v = JStr s /\ Date_parse s = None.

End FilterNotions.

(** A record with an identifier and the given timestamps. *)
Definition sample_pull (id : Z) (created_at updated_at merged_at closed_at : JVal)
  : JVal :=
  JObj (<["id" := JNum id]> (<["created_at" := created_at]>
       (<["updated_at" := updated_at]> (<["merged_at" := merged_at]>
       (<["closed_at" := closed_at]> ∅))))).

(** The login of an author object. *)
Definition author_login (user : JVal) : option string :=
  match user with
  | JObj u =>
      match u !! "login" with
      | Some (JStr login) => Some login
      | _ => None
      end
  | _ => None
  end.

Section ProjectionNotions.
Context {host : Host}.

(** The text YYYY-MM-DD of the local day of a time value. *)
Definition local_date_string (t : Z) : string :=
  date_string (YearFromTime (LocalTime t)) (MonthFromTime (LocalTime t) + 1)
              (DateFromTime (LocalTime t)).

(** A value that [Date] turns into a time of a year of four digits. *)
Definition is_timestamp (v : JVal) : Prop :=
  exists t, Date_new v = Some t /\ 1000 <= YearFromTime (LocalTime t) <= 9999.

(** The value the projection puts under a key, when it keeps the key. *)
Definition projected (keys : list string) (key : string) (value : JVal)
  : option JVal :=
  if includes key keys then
    if String.eqb key "user" && String.eqb (typeof value) "object"
    then Some (field value "login")
    else if String.eqb key "created_at" || String.eqb key "updated_at"
            || String.eqb key "closed_at" || String.eqb key "merged_at"
    then Some (JStr (formatDate value))
    else Some value
  else None.

End ProjectionNotions.

Definition null_login_error : JsError :=
  TypeError "Cannot read properties of null (reading 'login')".

(** A remote that answers by the URL alone: [head] to a HEAD request,
    [get] to a GET request. *)
Definition remote_of (head get : string -> Settled Response) : Remote :=
  {| axios := fun _ request =>
       match method request with
       | HEAD => head (url request)
       | GET => get (url request)
       end |}.

(** The client's rejection for an answer of status 404. *)
Definition not_found : JsError :=
  AxiosError "ERR_BAD_REQUEST" (Some (mkResponse 404 ∅ JNull)).

(** An answer of status 200 with a body and no link header. *)
Definition ok (body : JVal) : Settled Response :=
  fulfilled (mkResponse 200 ∅ body).

Section RequestNotions.
Context {host : Host}.

(** The requests of the two probes and of a page. *)
Definition head_request (u : string) : Request :=
  mkRequest HEAD u
    match token with
    | Some t => mkConfig [] [("Authorization", "Bearer " +:+ t)]
    | None => mkConfig [] []
    end.

Definition get_request (u : string) : Request :=
  mkRequest GET u
    match token with
    | Some t => mkConfig [("state", JStr "all"); ("per_page", JNum 100)]
                         [("Authorization", "Bearer " +:+ t);
                          ("Cache-Control", "no-cache")]
    | None => mkConfig [("state", JStr "all"); ("per_page", JNum 100)] []
    end.

End RequestNotions.

Definition owner_url (owner : JVal) : string :=
  BASE_API_URL +:+ "/users/" +:+ ToString owner.

Definition repo_url (repo owner : JVal) : string :=
  BASE_API_URL +:+ "/repos/" +:+ ToString owner +:+ "/" +:+ ToString repo.

Definition pulls_url (repo owner : JVal) : string :=
  BASE_API_URL +:+ "/repos/" +:+ ToString owner +:+ "/" +:+ ToString repo
  +:+ "/pulls".

(** What a probe makes of the client's answer. *)
Definition probe_outcome (answer : Settled Response) (missing : JsError)
  : Completion bool :=
  match answer with
  | fulfilled response => Return (status response =? 200)
  | rejected error =>
      if bool_decide (response_status error = Some 404)
      then Throw missing else Throw error
  end.

(** [c] occurs in [s]. *)
Fixpoint contains (c : ascii) (s : string) : bool :=
  match s with
  | EmptyString => false
  | String a s' => Ascii.eqb a c || contains c s'
  end.

(** [p] occurs in [s] as a substring. *)
Fixpoint occurs (p s : string) : bool :=
  startsWith p s
  || match s with
     | EmptyString => false
     | String _ s' => occurs p s'
     end.

Definition replace_error : JsError :=
  TypeError "Cannot read properties of undefined (reading 'replace')".

(** The records of a page: the elements of its body. *)
Definition page_records (response : Response) : list JVal :=
  Array_concat [] (data response).

Section PaginationNotions.
Context {host : Host} {remote : Remote}.

(** The next relation of a page: the URL its link header gives for it,
    none when the header is missing or empty or has no such relation or
    an empty one; a header that does not parse has the parser's error. *)
Definition next_url (response : Response) : Completion (option string) :=
  match headers response !! "link" with
  | Some linkHeader =>
      if is_empty linkHeader then Return None
      else
        links ← parseLinkHeader linkHeader;
        Return (match links !! "next" with
                | Some next => if is_empty next then None else Some next
                | None => None
                end)
  | None => Return None
  end.

(** [Fetched h u pages u' h']: from the history [h] the pages [pages] are
    served one after the other, the first at [u], each naming the URL of
    the one after it, the last naming [u']; [h'] is the history then. *)
Inductive Fetched : History -> string -> list Response -> string -> History -> Prop :=
| Fetched_none h u : Fetched h u [] u h
| Fetched_more h u response h' next pages u' h'' :
    getPullsData u h = (Return response, h') ->
    next_url response = Return (Some next) ->
    Fetched h' next pages u' h'' ->
    Fetched h u (response :: pages) u' h''.

End PaginationNotions.

(** The reason of the first of three outcomes that is a failure. *)
Definition first_rejection {A B C} (c1 : Completion A) (c2 : Completion B)
    (c3 : Completion C) : option JsError :=
  match c1, c2, c3 with
  | Throw e, _, _ => Some e
  | Return _, Throw e, _ => Some e
  | Return _, Return _, Throw e => Some e
  | Return _, Return _, Return _ => None
  end.

(** ** Sample data *)

(** A host five hours behind UTC, and one on UTC. *)
Definition host_west : Host := host_at (-5 * msPerHour).
Definition host_utc : Host := host_at 0.

(** Two pull requests created at noon UTC on 29 February and on 1 March
    2024 and not touched since. *)
Definition pull_feb29 : JVal :=
  sample_pull 1 (JStr "2024-02-29T12:00:00Z") JNull JNull JNull.

Definition pull_mar01 : JVal :=
  sample_pull 2 (JStr "2024-03-01T12:00:00Z") JNull JNull JNull.

(** A pull request as the remote API sends it, cut to the fields used. *)
Definition octocat_record : gmap string JVal :=
  <["id" := JNum 1]> (<["title" := JStr "new-feature"]>
  (<["state" := JStr "open"]> (<["body" := JStr "Please pull these changes"]>
  (<["user" := JObj (<["login" := JStr "octocat"]> (<["id" := JNum 583231]> ∅))]>
  (<["created_at" := JStr "2011-01-26T19:01:12Z"]>
  (<["updated_at" := JStr "2011-01-26T19:01:12Z"]>
  (<["merged_at" := JNull]> (<["closed_at" := JNull]> ∅)))))))).

(** The same with its author deleted. *)
Definition ghost_record : gmap string JVal :=
  <["user" := JNull]> octocat_record.

(** A remote where nothing exists, and one where everything does and the
    pull requests are one page with the given body and link header. *)
Definition remote_nothing : Remote :=
  remote_of (fun _ => rejected not_found) (fun _ => rejected not_found).

Definition remote_one_page (body : JVal) (link : option string) : Remote :=
  remote_of (fun _ => ok JNull)
            (fun _ => fulfilled
                        (mkResponse 200
                           match link with
                           | Some l => {["link" := l]}
                           | None => ∅
                           end
                           body)).

(** A remote of two pages, the first naming the second. *)
Definition page_two_url : string :=
  "https://api.github.com/repositories/1296269/pulls?page=2".

Definition remote_two_pages : Remote :=
  remote_of (fun _ => ok JNull)
            (fun u =>
               if String.eqb u page_two_url
               then fulfilled (mkResponse 200 ∅ (JArr [JNum 3]))
               else fulfilled
                      (mkResponse 200
                         {["link" := "<" +:+ page_two_url +:+ ">; rel="
                                     +:+ String dquote "next"
                                     +:+ String dquote ""]}
                         (JArr [JNum 1; JNum 2]))).

(** A link header with one segment and no semicolon. *)
Definition bare_link : string :=
  "<https://api.github.com/repositories/1296269/pulls?page=2>".

(** ** Further notions and sample data *)

(** The text of a timestamp of the remote API:
    YYYY-MM-DDTHH:mm:ssZ. *)
Definition timestamp_string (y m d hh mi ss : Z) : string :=
  date_string y m d +:+ "T" +:+ digit_string2 hh +:+ ":" +:+ digit_string2 mi
  +:+ ":" +:+ digit_string2 ss +:+ "Z".

(** A host one hour ahead of UTC. *)
Definition host_east : Host := host_at msPerHour.

(** A value with properties to read: anything but [null] and
    [undefined]. *)
Definition not_nullish (v : JVal) : Prop := v <> JNull /\ v <> JUndefined.

Section MoreRequestNotions.
Context {host : Host}.

(** The request of a probe: one HEAD request when its identifier passed
    the validation, none otherwise. *)
Definition probe_requests (validation : Completion unit) (u : string) : History :=
  match validation with
  | Return _ => [head_request u]
  | Throw _ => []
  end.

(** A request as the program configures it: the query of a GET request
    asks for the pull requests of every state, a hundred a page, and a
    HEAD request has no query; the authorization header carries the
    token of the host when it has one that is not empty, and there is no
    header at all otherwise. *)
Definition configured (request : Request) : Prop :=
  params (config request)
  = match method request with
    | HEAD => []
    | GET => [("state", JStr "all"); ("per_page", JNum 100)]
    end
  /\ (forall t, GITHUB_TOKEN = Some t -> t <> "" ->
        ("Authorization", "Bearer " +:+ t) ∈ config_headers (config request))
  /\ (GITHUB_TOKEN = None \/ GITHUB_TOKEN = Some "" ->
      config_headers (config request) = []).

End MoreRequestNotions.

(** A text of white space only. *)
Fixpoint blank (s : string) : bool :=
  match s with
  | EmptyString => true
  | String c s' => is_white_space c && blank s'
  end.

(** One link of a link header, and a header of several: each link is its
    URL in angle brackets and its relation in quotes, and the links are
    separated by a comma and a space. *)
Definition link_segment (rel url : string) : string :=
  "<" +:+ url +:+ ">; rel=" +:+ String dquote (rel +:+ String dquote "").

Fixpoint link_header (first : string * string) (others : list (string * string))
  : string :=
  match others with
  | [] => link_segment first.1 first.2
  | second :: rest =>
      link_segment first.1 first.2 +:+ ", " +:+ link_header second rest
  end.

(** A text without white space and without the marks of a link header
    (comma, semicolon, angle brackets, quote). *)
Definition link_char (c : ascii) : bool :=
  negb (is_white_space c || Ascii.eqb c "," || Ascii.eqb c ";"
        || Ascii.eqb c "<" || Ascii.eqb c ">" || Ascii.eqb c dquote).

Fixpoint link_text (s : string) : bool :=
  match s with
  | EmptyString => true
  | String c s' => link_char c && link_text s'
  end.

(** The links an object literal holds after they were assigned in
    order. *)
Definition links_of (links : list (string * string)) : gmap string string :=
  fold_left (fun m link => set_link m link.1 link.2) links ∅.

(** A remote whose every page names a next page. *)
Definition remote_endless : Remote :=
  remote_of (fun _ => ok JNull)
            (fun _ => fulfilled
                        (mkResponse 200
                           {["link" := link_segment "next" page_two_url]}
                           (JArr []))).

(** A remote where the owner and the repository answer with status 204
    and the pull requests are one page. *)
Definition remote_no_content (body : JVal) : Remote :=
  remote_of (fun _ => fulfilled (mkResponse 204 ∅ JNull))
            (fun _ => ok body).

(** A host on UTC with a token. *)
Definition host_token : Host :=
  {| LocalTZA := 0; legacy_parse := fun _ => None;
     GITHUB_TOKEN := Some "ghp_0123456789abcdef" |}.

(** The projection of [octocat_record] on a host on UTC. *)
Definition octocat_item : gmap string JVal :=
  <["id" := JNum 1]> (<["title" := JStr "new-feature"]>
  (<["state" := JStr "open"]> (<["user" := JStr "octocat"]>
  (<["created_at" := JStr "2011-01-26"]> ∅)))).

(** A second page, the last. *)
Definition page_five_url : string :=
  "https://api.github.com/repositories/1296269/pulls?page=5".

(** * Properties *)

(** Linear arithmetic with division and remainder by constants. *)
Ltac zdiv := Z.div_mod_to_equations; lia.

(** A case for each value of an integer known to lie in a short range. *)
Ltac case_month m :=
  let Hc := fresh "Hc" in
  assert (m = 0 \/ m = 1 \/ m = 2 \/ m = 3 \/ m = 4 \/ m = 5 \/ m = 6
          \/ m = 7 \/ m = 8 \/ m = 9 \/ m = 10 \/ m = 11 \/ m = 12) as Hc by lia;
  repeat (destruct Hc as [-> | Hc]); try subst m.

(** ** Calendar arithmetic *)

Lemma leap_cases y : (leap y = 0 /\ DaysInYear y = 365) \/ (leap y = 1 /\ DaysInYear y = 366).
Proof.
  unfold leap, DaysInYear.
  repeat match goal with |- context [negb (?a =? ?b)] => destruct (Z.eqb_spec a b); simpl end; auto.
Qed.

Lemma DayFromYear_succ y : DayFromYear (y + 1) = DayFromYear y + DaysInYear y.
Proof.
  unfold DayFromYear, DaysInYear.
  repeat match goal with |- context [negb (?a =? ?b)] => destruct (Z.eqb_spec a b); simpl end; zdiv.
Qed.

Lemma DayFromYear_lt y1 y2 : y1 < y2 -> DayFromYear (y1 + 1) <= DayFromYear y2.
Proof. unfold DayFromYear. intros. zdiv. Qed.

Lemma YearFromDay_spec d :
  DayFromYear (YearFromDay d) <= d < DayFromYear (YearFromDay d + 1).
Proof.
  unfold YearFromDay. cbv zeta.
  destruct (Z.leb_spec (DayFromYear (1970 + 400 * d / 146097 + 1)) d).
  - split; [assumption|]. unfold DayFromYear in *. zdiv.
  - destruct (Z.leb_spec (DayFromYear (1970 + 400 * d / 146097)) d).
    + split; assumption.
    + split.
      * unfold DayFromYear in *. zdiv.
      * replace (1970 + 400 * d / 146097 - 1 + 1) with (1970 + 400 * d / 146097) by lia. assumption.
Qed.

Lemma YearFromDay_unique y d :
  DayFromYear y <= d < DayFromYear (y + 1) -> YearFromDay d = y.
Proof.
  intros Hy. pose proof (YearFromDay_spec d) as HY.
  destruct (Z.lt_trichotomy (YearFromDay d) y) as [Hlt | [Heq | Hgt]]; [| assumption |].
  - pose proof (DayFromYear_lt _ _ Hlt). lia.
  - pose proof (DayFromYear_lt _ _ Hgt). lia.
Qed.

Lemma month_of_day_start lp m d :
  0 <= lp <= 1 -> 0 <= m <= 11 ->
  month_start lp m <= d < month_start lp (m + 1) ->
  month_of_day lp d = m.
Proof.
  intros Hlp Hm. unfold month_start, month_of_day.
  case_month m; simpl; intros Hd;
    repeat match goal with
           | |- context [?a <? ?b] => destruct (Z.ltb_spec a b); try lia
           end; reflexivity.
Qed.

Lemma month_of_day_range lp d :
  0 <= lp <= 1 -> 0 <= d < 365 + lp ->
  0 <= month_of_day lp d <= 11 /\
  month_start lp (month_of_day lp d) <= d < month_start lp (month_of_day lp d + 1).
Proof.
  intros Hlp Hd. unfold month_of_day.
  repeat match goal with |- context [?a <? ?b] => destruct (Z.ltb_spec a b) end;
  unfold month_start; simpl; lia.
Qed.

Lemma DaysInMonth_month_start y m :
  1 <= m <= 12 ->
  month_start (leap y) m = month_start (leap y) (m - 1) + DaysInMonth y m.
Proof.
  intros Hm. case_month m; unfold month_start, DaysInMonth; simpl; lia.
Qed.

(** ** Decimal digits *)

Lemma code_digit_char d : 0 <= d <= 9 -> code (digit_char d) = 48 + d.
Proof.
  intros Hd. unfold code, digit_char.
  rewrite nat_ascii_embedding by lia. lia.
Qed.

Lemma digit_value_char d : 0 <= d <= 9 -> digit_value (digit_char d) = d.
Proof. intros Hd. unfold digit_value. rewrite code_digit_char by lia. lia. Qed.

Lemma is_digit_char d : 0 <= d <= 9 -> is_digit (digit_char d) = true.
Proof. intros Hd. unfold is_digit. rewrite code_digit_char by lia. lia. Qed.

Lemma is_digit_value c : is_digit c = true -> 0 <= digit_value c <= 9.
Proof. unfold is_digit, digit_value. lia. Qed.

Lemma digit_char_value c : is_digit c = true -> digit_char (digit_value c) = c.
Proof.
  intros _. unfold digit_char, digit_value, code.
  replace (48 + (Z.of_nat (nat_of_ascii c) - 48)) with (Z.of_nat (nat_of_ascii c)) by lia.
  rewrite Nat2Z.id. apply ascii_nat_embedding.
Qed.

Lemma digits_from_small fuel n acc :
  n < 10 -> digits_from fuel n acc = String (digit_char (n mod 10)) acc.
Proof.
  intros Hn. destruct fuel; simpl; [reflexivity|].
  destruct (Z.ltb_spec n 10); [reflexivity | lia].
Qed.

Lemma digits_from_large fuel n acc :
  10 <= n ->
  digits_from (S fuel) n acc
  = digits_from fuel (n / 10) (String (digit_char (n mod 10)) acc).
Proof.
  intros Hn. simpl. destruct (Z.ltb_spec n 10); [lia | reflexivity].
Qed.

Lemma digits_fuel x k :
  2 ^ Z.of_nat k <= x -> exists f, Z.to_nat (Z.log2 x) = (k + f)%nat.
Proof.
  intros Hx. exists (Z.to_nat (Z.log2 x) - k)%nat.
  assert (0 < x) as Hpos by (pose proof (Z.pow_pos_nonneg 2 (Z.of_nat k)); lia).
  apply Z.log2_le_pow2 in Hx; lia.
Qed.

Lemma digits_1 x : 0 <= x < 10 -> digits x = String (digit_char x) EmptyString.
Proof.
  intros Hx. unfold digits. rewrite digits_from_small by lia.
  replace (x mod 10) with x by zdiv. reflexivity.
Qed.

Lemma digits_2 x : 10 <= x < 100 -> digits x = digit_string2 x.
Proof.
  intros Hx. unfold digits.
  destruct (digits_fuel x 1) as [f ->]; [simpl; lia|].
  cbn [Nat.add]. rewrite digits_from_large by lia.
  rewrite digits_from_small by zdiv.
  unfold digit_string2. replace ((x / 10) mod 10) with (x / 10) by zdiv. reflexivity.
Qed.

Lemma digits_3 x :
  100 <= x < 1000 ->
  digits x = String (digit_char (x / 100 mod 10)) (digit_string2 (x mod 100)).
Proof.
  intros Hx. unfold digits.
  destruct (digits_fuel x 2) as [f ->]; [simpl; lia|].
  cbn [Nat.add]. rewrite digits_from_large by lia.
  rewrite digits_from_large by zdiv.
  rewrite digits_from_small by zdiv.
  unfold digit_string2.
  replace (x / 10 / 10) with (x / 100) by zdiv.
  replace ((x / 10) mod 10) with (x mod 100 / 10) by zdiv.
  replace (x mod 10) with ((x mod 100) mod 10) by zdiv. reflexivity.
Qed.

Lemma digits_4 x : 1000 <= x <= 9999 -> digits x = digit_string4 x.
Proof.
  intros Hx. unfold digits.
  destruct (digits_fuel x 3) as [f ->]; [simpl; lia|].
  cbn [Nat.add]. rewrite digits_from_large by lia.
  rewrite digits_from_large by zdiv.
  rewrite digits_from_large by zdiv.
  rewrite digits_from_small by zdiv.
  unfold digit_string4.
  replace (x / 10 / 10 / 10 mod 10) with (x / 1000) by zdiv.
  replace (x / 10 / 10 mod 10) with (x / 100 mod 10) by zdiv.
  reflexivity.
Qed.

Lemma pad2_digits x : 0 <= x <= 99 -> pad 2 x = digit_string2 x.
Proof.
  intros Hx. unfold pad. destruct (Z.lt_ge_cases x 10).
  - rewrite digits_1 by lia. unfold digit_string2, padStart. simpl.
    replace (x / 10) with 0 by zdiv. replace (x mod 10) with x by zdiv. reflexivity.
  - rewrite digits_2 by lia. reflexivity.
Qed.

Lemma pad4_digits x : 0 <= x <= 9999 -> pad 4 x = digit_string4 x.
Proof.
  intros Hx. unfold pad.
  destruct (Z.lt_ge_cases x 10); [|destruct (Z.lt_ge_cases x 100); [|destruct (Z.lt_ge_cases x 1000)]].
  - rewrite digits_1 by lia. unfold digit_string4, padStart. simpl.
    replace (x / 1000) with 0 by zdiv. replace (x / 100 mod 10) with 0 by zdiv.
    replace (x / 10 mod 10) with 0 by zdiv. replace (x mod 10) with x by zdiv. reflexivity.
  - rewrite digits_2 by lia. unfold digit_string4, digit_string2, padStart. simpl.
    replace (x / 1000) with 0 by zdiv. replace (x / 100 mod 10) with 0 by zdiv.
    replace (x / 10 mod 10) with (x / 10) by zdiv. reflexivity.
  - rewrite digits_3 by lia. unfold digit_string4, digit_string2, padStart. simpl.
    replace (x / 1000) with 0 by zdiv.
    replace ((x mod 100) / 10) with (x / 10 mod 10) by zdiv.
    replace ((x mod 100) mod 10) with (x mod 10) by zdiv. reflexivity.
  - rewrite digits_4 by lia. reflexivity.
Qed.

Lemma Number_toString_4 x : 1000 <= x <= 9999 -> Number_toString x = digit_string4 x.
Proof.
  intros Hx. unfold Number_toString.
  destruct (Z.ltb_spec x 0); [lia|]. apply digits_4. exact Hx.
Qed.

(** ** The text of a date *)

Lemma take_digits4 y rest :
  0 <= y <= 9999 -> take_digits 4 0 (digit_string4 y +:+ rest) = Some (y, rest).
Proof.
  intros Hy. unfold digit_string4. simpl.
  rewrite !is_digit_char by zdiv. rewrite !digit_value_char by zdiv.
  do 2 f_equal. zdiv.
Qed.

Lemma take_digits2 x rest :
  0 <= x <= 99 -> take_digits 2 0 (digit_string2 x +:+ rest) = Some (x, rest).
Proof.
  intros Hy. unfold digit_string2. simpl.
  rewrite !is_digit_char by zdiv. rewrite !digit_value_char by zdiv.
  do 2 f_equal. zdiv.
Qed.

Lemma append_empty_r s : s +:+ "" = s.
Proof.
  induction s as [|c s IH]; [reflexivity|].
  change (String c (s +:+ "") = String c s). now rewrite IH.
Qed.

Lemma expect_app c s : expect c (String c EmptyString +:+ s) = Some s.
Proof. simpl. rewrite Ascii.eqb_refl. reflexivity. Qed.

Lemma date_fields_string y m d :
  0 <= y <= 9999 -> 0 <= m <= 99 -> 0 <= d <= 99 ->
  date_fields (date_string y m d) = Some (y, m, d).
Proof.
  intros Hy Hm Hd. unfold date_fields, date_string.
  rewrite take_digits4 by lia. cbn [mbind option_bind].
  rewrite expect_app. cbn [mbind option_bind].
  rewrite take_digits2 by lia. cbn [mbind option_bind].
  rewrite expect_app. cbn [mbind option_bind].
  rewrite <- (append_empty_r (digit_string2 d)).
  rewrite take_digits2 by lia. reflexivity.
Qed.

Lemma date_regex_string y m d :
  0 <= y <= 9999 -> 0 <= m <= 99 -> 0 <= d <= 99 ->
  date_regex (date_string y m d) = true.
Proof.
  intros Hy Hm Hd. unfold date_string, digit_string4, digit_string2.
  simpl.
  rewrite !is_digit_char by zdiv. reflexivity.
Qed.

Lemma date_regex_inv s :
  date_regex s = true ->
  exists y m d, 0 <= y <= 9999 /\ 0 <= m <= 99 /\ 0 <= d <= 99 /\ s = date_string y m d.
Proof.
  intros H.
  do 10 (destruct s as [|? s]; [discriminate H|]).
  destruct s; [|discriminate H].
  cbn [date_regex] in H.
  repeat match type of H with (_ && _ = true) => apply andb_prop in H; destruct H as [H ?] end.
  repeat match goal with
         | Hd : is_digit ?c = true |- _ =>
             pose proof (is_digit_value c Hd); apply digit_char_value in Hd
         | He : Ascii.eqb _ _ = true |- _ => apply Ascii.eqb_eq in He; subst
         end.
  exists (1000 * digit_value a + 100 * digit_value a0 + 10 * digit_value a1 + digit_value a2),
         (10 * digit_value a4 + digit_value a5),
         (10 * digit_value a7 + digit_value a8).
  split; [lia|]. split; [lia|]. split; [lia|].
  unfold date_string, digit_string4, digit_string2. cbv [String.append].
  repeat match goal with
         | |- String ?c _ = String ?c' _ => f_equal
         end;
  match goal with
  | Hc : digit_char (digit_value ?c) = ?c |- ?c = digit_char ?e =>
      rewrite <- Hc at 1; f_equal; zdiv
  end.
Qed.

(** ** Dates and time values *)

Lemma valid_ymd_inv y m d :
  valid_ymd y m d = true -> 1 <= m <= 12 /\ 1 <= d <= DaysInMonth y m.
Proof. unfold valid_ymd. lia. Qed.

Lemma leap_range y : 0 <= leap y <= 1.
Proof. destruct (leap_cases y) as [[-> _] | [-> _]]; lia. Qed.

Lemma DaysInMonth_bound y m : 28 <= DaysInMonth y m <= 31.
Proof.
  unfold DaysInMonth. pose proof (leap_range y).
  repeat match goal with |- context [if ?b then _ else _] => destruct b end; lia.
Qed.

Lemma month_start_bounds lp m :
  0 <= lp <= 1 -> 0 <= m <= 12 -> 0 <= month_start lp m <= 365 + lp.
Proof.
  intros Hlp Hm. case_month m; unfold month_start; simpl; lia.
Qed.

Lemma MakeDay_valid y m d :
  1 <= m <= 12 ->
  MakeDay y (m - 1) d = DayFromYear y + month_start (leap y) (m - 1) + d - 1.
Proof.
  intros Hm. unfold MakeDay. cbv zeta.
  replace ((m - 1) / 12) with 0 by zdiv.
  replace ((m - 1) mod 12) with (m - 1) by zdiv.
  replace (y + 0) with y by lia. reflexivity.
Qed.

Lemma MakeDay_within_year y m d :
  valid_ymd y m d = true ->
  DayFromYear y <= MakeDay y (m - 1) d < DayFromYear (y + 1).
Proof.
  intros Hv. apply valid_ymd_inv in Hv as [Hm Hd].
  rewrite MakeDay_valid by lia. rewrite DayFromYear_succ.
  pose proof (leap_range y) as Hlp.
  pose proof (DaysInMonth_month_start y m Hm) as Hs.
  pose proof (month_start_bounds (leap y) (m - 1) Hlp ltac:(lia)).
  pose proof (month_start_bounds (leap y) m Hlp ltac:(lia)).
  destruct (leap_cases y) as [[? ?] | [? ?]]; lia.
Qed.

(** The calendar fields of a day number. *)
Lemma fields_of_MakeDay y m d :
  valid_ymd y m d = true ->
  let D := MakeDay y (m - 1) d in
  YearFromDay D = y /\
  month_of_day (leap y) (D - DayFromYear y) = m - 1 /\
  D - DayFromYear y - month_start (leap y) (m - 1) + 1 = d.
Proof.
  intros Hv D. pose proof (MakeDay_within_year y m d Hv) as Hin.
  apply valid_ymd_inv in Hv as [Hm Hd].
  split; [apply YearFromDay_unique; exact Hin|].
  subst D. rewrite MakeDay_valid in * by lia.
  split; [|lia].
  apply month_of_day_start; [apply leap_range | lia |].
  replace (m - 1 + 1) with m by lia.
  rewrite (DaysInMonth_month_start y m Hm). lia.
Qed.

Lemma Day_MakeDate D tm : 0 <= tm < msPerDay -> Day (MakeDate D tm) = D.
Proof. unfold Day, MakeDate, msPerDay. intros. zdiv. Qed.

Lemma fields_of_time y m d tm :
  valid_ymd y m d = true -> 0 <= tm < msPerDay ->
  let t := MakeDate (MakeDay y (m - 1) d) tm in
  YearFromTime t = y /\ MonthFromTime t = m - 1 /\ DateFromTime t = d.
Proof.
  intros Hv Htm t.
  destruct (fields_of_MakeDay y m d Hv) as (HY & HM & HD).
  assert (YearFromTime t = y) as Hy.
  { unfold YearFromTime, t. rewrite Day_MakeDate by exact Htm. exact HY. }
  assert (MonthFromTime t = m - 1) as Hmo.
  { unfold MonthFromTime, InLeapYear, DayWithinYear. rewrite Hy.
    unfold t. rewrite Day_MakeDate by exact Htm. exact HM. }
  split; [exact Hy|]. split; [exact Hmo|].
  unfold DateFromTime. rewrite Hmo. unfold InLeapYear, DayWithinYear. rewrite Hy.
  unfold t. rewrite Day_MakeDate by exact Htm. exact HD.
Qed.

(** Every time value has the fields of a date of the calendar. *)
Lemma time_fields_valid t :
  valid_ymd (YearFromTime t) (MonthFromTime t + 1) (DateFromTime t) = true.
Proof.
  pose proof (YearFromDay_spec (Day t)) as Hs.
  fold (YearFromTime t) in Hs. rewrite DayFromYear_succ in Hs.
  pose proof (leap_range (YearFromTime t)) as Hlp.
  assert (0 <= DayWithinYear t < 365 + InLeapYear t) as Hd.
  { unfold DayWithinYear, InLeapYear.
    destruct (leap_cases (YearFromTime t)) as [[? ?] | [? ?]]; lia. }
  destruct (month_of_day_range (InLeapYear t) (DayWithinYear t) Hlp Hd) as [Hm Hw].
  fold (MonthFromTime t) in Hm, Hw.
  unfold valid_ymd, DateFromTime.
  pose proof (DaysInMonth_month_start (YearFromTime t) (MonthFromTime t + 1) ltac:(lia)) as Hdim.
  replace (MonthFromTime t + 1 - 1) with (MonthFromTime t) in Hdim by lia.
  fold (InLeapYear t) in Hdim. lia.
Qed.

Lemma DayFromYear_bounds y :
  0 <= y <= 9999 -> -719528 <= DayFromYear y /\ DayFromYear (y + 1) <= 2932897.
Proof. intros Hy. unfold DayFromYear. zdiv. Qed.

Lemma TimeClip_in_range t :
  -8640000000000000 <= t <= 8640000000000000 -> TimeClip t = Some t.
Proof. intros Ht. unfold TimeClip. destruct (Z.ltb_spec 8640000000000000 (Z.abs t)); [lia | reflexivity]. Qed.

Lemma TimeClip_Some t t' : TimeClip t = Some t' -> t' = t.
Proof. unfold TimeClip. destruct (_ <? _); congruence. Qed.

Lemma MakeDate_four_digit_year y m d tm :
  0 <= y <= 9999 -> valid_ymd y m d = true -> 0 <= tm < msPerDay ->
  -62167219200000 <= MakeDate (MakeDay y (m - 1) d) tm <= 253402300799999.
Proof.
  intros Hy Hv Htm. pose proof (MakeDay_within_year y m d Hv).
  pose proof (DayFromYear_bounds y Hy). unfold MakeDate, msPerDay in *. lia.
Qed.

Lemma parse_iso_date_string y m d :
  0 <= y <= 9999 -> 0 <= m <= 99 -> 0 <= d <= 99 ->
  parse_iso (date_string y m d) =
    if valid_ymd y m d then Some (MakeDate (MakeDay y (m - 1) d) 0) else None.
Proof.
  intros Hy Hm Hd. unfold parse_iso, date_string.
  rewrite take_digits4 by lia. cbn [mbind option_bind].
  rewrite expect_app. cbn [mbind option_bind].
  rewrite take_digits2 by lia. cbn [mbind option_bind].
  rewrite expect_app. cbn [mbind option_bind].
  rewrite <- (append_empty_r (digit_string2 d)).
  rewrite take_digits2 by lia. cbn [mbind option_bind].
  reflexivity.
Qed.

Lemma startsWith_app p r : startsWith p (p +:+ r) = true.
Proof.
  induction p as [|c p IH]; [reflexivity|].
  change (Ascii.eqb c c && startsWith p (p +:+ r) = true).
  rewrite Ascii.eqb_refl, IH. reflexivity.
Qed.

Lemma append_assoc (a b c : string) : (a +:+ b) +:+ c = a +:+ (b +:+ c).
Proof.
  induction a as [|x a IH]; [reflexivity|].
  change (String x ((a +:+ b) +:+ c) = String x (a +:+ (b +:+ c))). now rewrite IH.
Qed.

Lemma ISO_string_date t :
  0 <= YearFromTime t <= 9999 ->
  exists rest,
    ISO_string t =
      date_string (YearFromTime t) (MonthFromTime t + 1) (DateFromTime t) +:+ rest.
Proof.
  intros Hy. unfold ISO_string. cbv zeta.
  replace ((0 <=? YearFromTime t) && (YearFromTime t <=? 9999)) with true by lia.
  pose proof (time_fields_valid t) as Hv. apply valid_ymd_inv in Hv as [Hm Hd].
  pose proof (DaysInMonth_bound (YearFromTime t) (MonthFromTime t + 1)) as Hdim.
  rewrite pad4_digits by lia.
  rewrite (pad2_digits (MonthFromTime t + 1)) by lia.
  rewrite (pad2_digits (DateFromTime t)) by lia.
  eexists. unfold date_string. rewrite !append_assoc. reflexivity.
Qed.

Lemma ISO_string_sign t :
  ~ 0 <= YearFromTime t <= 9999 ->
  exists c rest, ISO_string t = String c rest /\ is_digit c = false.
Proof.
  intros Hy. unfold ISO_string. cbv zeta.
  replace ((0 <=? YearFromTime t) && (YearFromTime t <=? 9999)) with false by lia.
  destruct (YearFromTime t <? 0); eexists _, _; (split; [reflexivity | reflexivity]).
Qed.

(** Two date texts of which one starts the other name the same fields. *)
Lemma startsWith_date_string y m d y' m' d' rest :
  0 <= y <= 9999 -> 0 <= m <= 99 -> 0 <= d <= 99 ->
  0 <= y' <= 9999 -> 0 <= m' <= 99 -> 0 <= d' <= 99 ->
  startsWith (date_string y m d) (date_string y' m' d' +:+ rest) = true ->
  y = y' /\ m = m' /\ d = d'.
Proof.
  intros Hy Hm Hd Hy' Hm' Hd'.
  unfold date_string, digit_string4, digit_string2. cbv [String.append startsWith].
  intros H.
  repeat match type of H with (_ && _ = true) => apply andb_prop in H; destruct H as [? H] end.
  repeat match goal with
         | He : Ascii.eqb (digit_char ?a) (digit_char ?b) = true |- _ =>
             apply Ascii.eqb_eq in He; apply (f_equal digit_value) in He;
             rewrite !digit_value_char in He by zdiv
         end.
  zdiv.
Qed.

(** ** The order of dates *)

Lemma month_start_mono lp a b :
  0 <= lp <= 1 -> 0 <= a <= b -> b <= 12 -> month_start lp a <= month_start lp b.
Proof.
  intros Hlp Ha Hb. unfold month_start at 1.
  case_month a; simpl;
  unfold month_start;
  repeat match goal with
         | |- context [?x <=? ?y] => destruct (Z.leb_spec x y); try lia
         | |- context [?x =? ?y] => destruct (Z.eqb_spec x y); try lia
         end.
Qed.

Lemma day_number_mono a b :
  valid_date a = true -> valid_date b = true ->
  ymd_lt a b = true -> day_number a < day_number b.
Proof.
  destruct a as [[y1 m1] d1], b as [[y2 m2] d2]. unfold valid_date, ymd_lt, day_number.
  intros Ha Hb Hlt.
  pose proof (MakeDay_within_year _ _ _ Ha) as Ia.
  pose proof (MakeDay_within_year _ _ _ Hb) as Ib.
  destruct (Z.ltb_spec y1 y2) as [Hy | Hy].
  - pose proof (DayFromYear_lt _ _ Hy). lia.
  - simpl in Hlt. apply andb_prop in Hlt as [Hyy Hlt]. apply Z.eqb_eq in Hyy. subst y2.
    apply valid_ymd_inv in Ha as [Hm1 Hd1]. apply valid_ymd_inv in Hb as [Hm2 Hd2].
    rewrite !MakeDay_valid by lia.
    pose proof (DaysInMonth_month_start y1 m1 Hm1) as Hs.
    destruct (Z.ltb_spec m1 m2) as [Hm | Hm].
    + pose proof (month_start_mono (leap y1) m1 (m2 - 1) (leap_range y1) ltac:(lia) ltac:(lia)). lia.
    + simpl in Hlt. apply andb_prop in Hlt as [Hmm Hlt]. apply Z.eqb_eq in Hmm. subst m2. lia.
Qed.

Lemma ymd_lt_trichotomy a b : ymd_lt a b = true \/ a = b \/ ymd_lt b a = true.
Proof.
  destruct a as [[y1 m1] d1], b as [[y2 m2] d2]. unfold ymd_lt.
  destruct (Z.lt_trichotomy y1 y2) as [? | [? | ?]];
  destruct (Z.lt_trichotomy m1 m2) as [? | [? | ?]];
  destruct (Z.lt_trichotomy d1 d2) as [? | [? | ?]];
  try (left; lia); try (right; right; lia).
  right; left. congruence.
Qed.

Lemma day_number_lt a b :
  valid_date a = true -> valid_date b = true ->
  (day_number a <? day_number b) = ymd_lt a b.
Proof.
  intros Ha Hb.
  destruct (ymd_lt a b) eqn:Hlt.
  - apply Z.ltb_lt. apply day_number_mono; assumption.
  - apply Z.ltb_ge.
    destruct (ymd_lt_trichotomy a b) as [H | [-> | H]]; [congruence | lia |].
    pose proof (day_number_mono b a Hb Ha H). lia.
Qed.

Lemma calendar_date_inv s y m d :
  calendar_date s = Some (y, m, d) ->
  0 <= y <= 9999 /\ valid_ymd y m d = true /\ s = date_string y m d.
Proof.
  unfold calendar_date. destruct (date_regex s) eqn:Hre; [|discriminate].
  destruct (date_regex_inv s Hre) as (y' & m' & d' & Hy & Hm & Hd & ->).
  rewrite date_fields_string by assumption. cbn [mbind option_bind].
  destruct (valid_ymd y' m' d') eqn:Hv; [|discriminate].
  intros [= <- <- <-]. auto.
Qed.

Section Validation.
Context {host : Host}.

Lemma Date_new_calendar_date s y m d :
  calendar_date s = Some (y, m, d) ->
  Date_new (JStr s) = Some (MakeDate (day_number (y, m, d)) 0).
Proof.
  intros Hc. apply calendar_date_inv in Hc as (Hy & Hv & ->).
  pose proof (valid_ymd_inv _ _ _ Hv) as [Hm Hd].
  pose proof (DaysInMonth_bound y m) as Hdim.
  unfold Date_new, Date_parse, day_number.
  rewrite parse_iso_date_string by lia. rewrite Hv.
  apply TimeClip_in_range.
  pose proof (MakeDate_four_digit_year y m d 0 Hy Hv ltac:(unfold msPerDay; lia)). lia.
Qed.

Lemma isValidDate_spec (s : string) :
  isValidDate (JStr s) = Return (bool_decide (is_Some (calendar_date s))).
Proof.
  unfold isValidDate.
  destruct (date_regex s) eqn:Hre; cbn [negb].
  2: { unfold calendar_date. rewrite Hre. reflexivity. }
  destruct (calendar_date s) as [[[y m] d]|] eqn:Hc.
  - rewrite (Date_new_calendar_date s y m d Hc).
    apply calendar_date_inv in Hc as (Hy & Hv & ->).
    cbn [toISOString mbind Completion_bind].
    destruct (fields_of_time y m d 0 Hv ltac:(unfold msPerDay; lia)) as (HY & HM & HD).
    cbv zeta in HY, HM, HD.
    destruct (ISO_string_date (MakeDate (MakeDay y (m - 1) d) 0)) as [rest Hiso].
    { unfold day_number. rewrite HY. exact Hy. }
    unfold day_number. rewrite Hiso, HY, HM, HD.
    replace (m - 1 + 1) with m by lia. rewrite startsWith_app.
    rewrite bool_decide_eq_true_2 by eauto. reflexivity.
  - rewrite bool_decide_eq_false_2 by (intros [? ?]; discriminate).
    destruct (Date_new (JStr s)) as [t|] eqn:Ht; [|reflexivity].
    cbn [toISOString mbind Completion_bind]. f_equal.
    apply not_true_is_false. intros Hsw.
    destruct (date_regex_inv s Hre) as (y & m & d & Hy & Hm & Hd & ->).
    destruct (decide (0 <= YearFromTime t <= 9999)) as [Hyr | Hyr].
    + destruct (ISO_string_date t Hyr) as [rest Hiso]. rewrite Hiso in Hsw.
      pose proof (time_fields_valid t) as Hv.
      pose proof (valid_ymd_inv _ _ _ Hv) as [Hm' Hd'].
      pose proof (DaysInMonth_bound (YearFromTime t) (MonthFromTime t + 1)) as Hdim.
      apply startsWith_date_string in Hsw as (-> & -> & ->); try lia.
      unfold calendar_date in Hc. rewrite Hre, date_fields_string in Hc by lia.
      cbn [mbind option_bind] in Hc. rewrite Hv in Hc. discriminate.
    + destruct (ISO_string_sign t Hyr) as (c & rest & Hiso & Hc').
      rewrite Hiso in Hsw. unfold date_string, digit_string4 in Hsw.
      cbv [String.append startsWith] in Hsw.
      apply andb_prop in Hsw as [Hsw _]. apply Ascii.eqb_eq in Hsw. subst c.
      rewrite is_digit_char in Hc' by zdiv. discriminate.
Qed.

End Validation.

(** ** The validation of the date range *)

Section DateValidation.
Context {host : Host}.

Lemma Date_lt_calendar_dates a b :
  Date_lt (Some (MakeDate (day_number a) 0)) (Some (MakeDate (day_number b) 0))
  = (day_number a <? day_number b).
Proof.
  unfold Date_lt, MakeDate, msPerDay.
  destruct (Z.ltb_spec (day_number a) (day_number b));
    [apply Z.ltb_lt | apply Z.ltb_ge]; lia.
Qed.

Lemma calendar_date_valid s date :
  calendar_date s = Some date -> valid_date date = true.
Proof.
  destruct date as [[y m] d]. intros H.
  apply calendar_date_inv in H as (_ & Hv & _). exact Hv.
Qed.

Lemma validateDateStrings_strings (startDate endDate : string) :
  validateDateStrings (JStr startDate) (JStr endDate) =
    match calendar_date startDate, calendar_date endDate with
    | None, _ => Throw (Error ("Invalid start date: " +:+ startDate))
    | Some _, None => Throw (Error ("Invalid end date: " +:+ endDate))
    | Some s, Some e =>
        if ymd_lt e s
        then Throw (Error ("End date " +:+ endDate
                           +:+ " cannot be before start date " +:+ startDate))
        else Return tt
    end.
Proof.
  unfold validateDateStrings. rewrite !isValidDate_spec.
  cbn [mbind Completion_bind ToString].
  destruct (calendar_date startDate) as [s|] eqn:Hs.
  2: { rewrite bool_decide_eq_false_2 by (intros [? ?]; discriminate). reflexivity. }
  rewrite bool_decide_eq_true_2 by eauto. cbn [negb].
  destruct (calendar_date endDate) as [e|] eqn:He.
  2: { rewrite bool_decide_eq_false_2 by (intros [? ?]; discriminate). reflexivity. }
  rewrite bool_decide_eq_true_2 by eauto. cbn [negb].
  destruct s as [[ys ms] ds], e as [[ye me] de].
  rewrite (Date_new_calendar_date _ _ _ _ Hs), (Date_new_calendar_date _ _ _ _ He).
  rewrite Date_lt_calendar_dates.
  rewrite day_number_lt by (eapply calendar_date_valid; eassumption).
  reflexivity.
Qed.

(** The error of a failed validation of two texts is of one of the two
    kinds of the date range. *)
Lemma validateDateStrings_kind (startDate endDate : string) e :
  validateDateStrings (JStr startDate) (JStr endDate) = Throw e ->
  InvalidDateKind e \/ RangeOrderKind e.
Proof.
  rewrite validateDateStrings_strings.
  destruct (calendar_date startDate) as [s|].
  2: { intros [= <-]. left. exists startDate. left. reflexivity. }
  destruct (calendar_date endDate) as [d|].
  2: { intros [= <-]. left. exists endDate. right. reflexivity. }
  destruct (ymd_lt d s); [|discriminate].
  intros [= <-]. right. exists startDate, endDate. reflexivity.
Qed.

(** C4.  [validateDateStrings] on two strings: a start that names no date
    of the calendar gives the error of an invalid start date, otherwise an
    end that names none gives the error of an invalid end date (both of
    the kind InvalidDateKind); two dates give the error of the kind
    RangeOrderKind exactly when the end is earlier in the calendar than
    the start, and the call returns normally otherwise.  Naming a date of
    the calendar is matching the pattern and coming back from the parser
    and [toISOString] as the same text, whatever the engine does with
    texts outside the date-time format; 2024-02-30 names none. *)
Theorem validateDateStrings_spec (startDate endDate : string) :
  validateDateStrings (JStr startDate) (JStr endDate) =
    match calendar_date startDate, calendar_date endDate with
    | None, _ => Throw (Error ("Invalid start date: " +:+ startDate))
    | Some _, None => Throw (Error ("Invalid end date: " +:+ endDate))
    | Some s, Some e =>
        if ymd_lt e s
        then Throw (Error ("End date " +:+ endDate
                           +:+ " cannot be before start date " +:+ startDate))
        else Return tt
    end
  /\ (is_Some (calendar_date startDate) <->
      date_regex startDate = true /\
      exists t, Date_parse startDate = Some t
                /\ startsWith startDate (ISO_string t) = true)
  /\ InvalidDateKind (Error ("Invalid start date: " +:+ startDate))
  /\ InvalidDateKind (Error ("Invalid end date: " +:+ endDate))
  /\ RangeOrderKind (Error ("End date " +:+ endDate
                            +:+ " cannot be before start date " +:+ startDate))
  /\ calendar_date "2024-02-30" = None.
Proof.
  split; [|split; [|split; [|split; [|split]]]].
  - apply validateDateStrings_strings.
  - pose proof (isValidDate_spec startDate) as Hv. unfold isValidDate in Hv.
    split.
    + intros Hsome. rewrite bool_decide_eq_true_2 in Hv by exact Hsome.
      destruct (date_regex startDate); [|discriminate Hv].
      split; [reflexivity|]. cbn [negb] in Hv.
      unfold Date_new in Hv. destruct (Date_parse startDate) as [t|]; [|discriminate Hv].
      exists t. split; [reflexivity|].
      cbn [toISOString mbind Completion_bind] in Hv. congruence.
    + intros [Hre (t & Ht & Hsw)]. rewrite Hre in Hv. cbn [negb] in Hv.
      unfold Date_new in Hv. rewrite Ht in Hv.
      cbn [toISOString mbind Completion_bind] in Hv. rewrite Hsw in Hv.
      injection Hv as Hv. symmetry in Hv. apply bool_decide_eq_true_1 in Hv. exact Hv.
  - exists startDate. left. reflexivity.
  - exists endDate. right. reflexivity.
  - exists startDate, endDate. reflexivity.
  - vm_compute. reflexivity.
Qed.

End DateValidation.

(** ** The date-range filter *)

Section Filter.
Context {host : Host}.

Lemma Get_record props key :
  Get (JObj props) key = Return (field (JObj props) key).
Proof. reflexivity. Qed.

Lemma isDateInRange_falsy start end_ v :
  truthy v = false -> isDateInRange start end_ v = false.
Proof. intros H. unfold isDateInRange. rewrite H. reflexivity. Qed.

Lemma isDateInRange_unusable start end_ v :
  unusable_timestamp v -> isDateInRange start end_ v = false.
Proof.
  intros [-> | [-> | (s & -> & Hs)]]; [reflexivity | reflexivity |].
  unfold isDateInRange, Date_new. rewrite Hs.
  destruct (negb (truthy (JStr s))); reflexivity.
Qed.

Lemma filter_callback_record start end_ props :
  (created_at ← Get (JObj props) "created_at";
   if isDateInRange start end_ created_at then Return true else
   updated_at ← Get (JObj props) "updated_at";
   if isDateInRange start end_ updated_at then Return true else
   merged_at ← Get (JObj props) "merged_at";
   if isDateInRange start end_ merged_at then Return true else
   closed_at ← Get (JObj props) "closed_at";
   Return (isDateInRange start end_ closed_at))
  = Return (in_range_any start end_ (JObj props)).
Proof.
  rewrite !Get_record. cbn [mbind Completion_bind].
  unfold in_range_any, timestamp_keys. cbn [existsb].
  destruct (isDateInRange start end_ (field (JObj props) "created_at")); [reflexivity|].
  destruct (isDateInRange start end_ (field (JObj props) "updated_at")); [reflexivity|].
  destruct (isDateInRange start end_ (field (JObj props) "merged_at")); [reflexivity|].
  rewrite orb_false_r. reflexivity.
Qed.

Lemma filter_records pulls startDate endDate :
  Forall is_record pulls ->
  filterPullRequestsByDateRange pulls startDate endDate
  = Return (List.filter (in_range_any (parseDate startDate false)
                                      (parseDate endDate true)) pulls).
Proof.
  unfold filterPullRequestsByDateRange. cbv zeta.
  induction 1 as [|pull pulls [props ->] _ IH]; [reflexivity|].
  cbn [Array_filter List.filter].
  rewrite filter_callback_record. cbn [mbind Completion_bind].
  rewrite IH. cbn [mbind Completion_bind]. reflexivity.
Qed.

(** What survives the filter is a record, whatever the list held. *)
Lemma filter_survivors pulls startDate endDate kept :
  filterPullRequestsByDateRange pulls startDate endDate = Return kept ->
  Forall is_record kept.
Proof.
  unfold filterPullRequestsByDateRange. cbv zeta.
  revert kept. induction pulls as [|pull pulls IH]; intros kept.
  - intros [= <-]. constructor.
  - cbn [Array_filter].
    destruct pull as [| | b | n | s | xs | props].
    1-2: discriminate.
    5: { rewrite filter_callback_record. cbn [mbind Completion_bind].
         match goal with |- context [Array_filter ?f ?l] =>
           destruct (Array_filter f l) as [rest|]; [|discriminate] end.
         cbn [mbind Completion_bind]. intros [= <-].
         specialize (IH rest eq_refl).
         destruct (in_range_any _ _ _);
           [constructor; [eexists; reflexivity | exact IH] | exact IH]. }
    all: cbn [Get mbind Completion_bind];
         rewrite isDateInRange_falsy by reflexivity;
         cbn [mbind Completion_bind];
         match goal with |- context [Array_filter ?f ?l] =>
           destruct (Array_filter f l) as [rest|]; [|discriminate] end;
         cbn [mbind Completion_bind]; intros [= <-]; apply IH; reflexivity.
Qed.

(** C9.  On a list of records the filter returns normally, whatever the
    two dates are: it returns the records, in their order, of which the
    callback finds a timestamp in range.  A timestamp that is absent,
    [null] or a text that does not parse is never in range, and a record
    with four such timestamps is not returned. *)
Theorem filter_total (pulls : list JVal) (startDate endDate : JVal) :
  Forall is_record pulls ->
  filterPullRequestsByDateRange pulls startDate endDate
  = Return (List.filter (in_range_any (parseDate startDate false)
                                      (parseDate endDate true)) pulls)
  /\ (forall v, unusable_timestamp v ->
        isDateInRange (parseDate startDate false) (parseDate endDate true) v
        = false)
  /\ (forall pull,
        (forall key, In key timestamp_keys -> unusable_timestamp (field pull key)) ->
        ~ In pull (List.filter (in_range_any (parseDate startDate false)
                                             (parseDate endDate true)) pulls)).
Proof.
  intros Hrec. split; [apply filter_records; exact Hrec|].
  split; [intros v Hv; apply isDateInRange_unusable; exact Hv|].
  intros pull Hun Hin. apply filter_In in Hin as [_ Hin].
  unfold in_range_any in Hin. apply existsb_exists in Hin as (key & Hkey & Hr).
  rewrite isDateInRange_unusable in Hr by (apply Hun; exact Hkey). discriminate.
Qed.

End Filter.

(** ** The window of the filter *)

Section Window.
Context {host : Host}.

Lemma parseDate_calendar_date s date (isEndDate : bool) :
  calendar_date s = Some date ->
  - msPerDay <= LocalTZA < msPerDay ->
  parseDate (JStr s) isEndDate
  = Some (MakeDate (day_number date + LocalTZA / msPerDay)
                   (if isEndDate then msPerDay - 1 else 0) - LocalTZA).
Proof.
  destruct date as [[y m] d]. intros Hc Hz.
  unfold parseDate. cbv zeta. rewrite (Date_new_calendar_date _ _ _ _ Hc).
  apply calendar_date_inv in Hc as (Hy & Hv & _).
  pose proof (MakeDay_within_year y m d Hv) as Hin.
  pose proof (DayFromYear_bounds y Hy) as Hb.
  assert (forall tm, 0 <= tm < msPerDay ->
            setHours (Some (MakeDate (day_number (y, m, d)) 0))
                     (tm / msPerHour) (tm / msPerMinute mod 60)
                     (tm / msPerSecond mod 60) (tm mod msPerSecond)
            = Some (MakeDate (day_number (y, m, d) + LocalTZA / msPerDay) tm
                    - LocalTZA)) as Hset.
  { intros tm Htm. unfold setHours. cbn [mbind option_bind].
    unfold LocalTime, UTC, MakeTime.
    replace (Day (MakeDate (day_number (y, m, d)) 0 + LocalTZA))
      with (day_number (y, m, d) + LocalTZA / msPerDay)
      by (unfold Day, MakeDate, msPerDay; zdiv).
    replace (tm / msPerHour * msPerHour + tm / msPerMinute mod 60 * msPerMinute
             + tm / msPerSecond mod 60 * msPerSecond + tm mod msPerSecond)
      with tm
      by (unfold msPerHour, msPerMinute, msPerSecond, msPerDay in *; zdiv).
    apply TimeClip_in_range.
    unfold day_number, MakeDate, msPerDay in *. zdiv. }
  destruct isEndDate.
  - apply (Hset (msPerDay - 1)). unfold msPerDay. lia.
  - apply (Hset 0). unfold msPerDay. lia.
Qed.





End Window.

(** ** The projection *)

Lemma mapM_Return {A B} (f : A -> Completion B) (g : A -> B) (l : list A) :
  (forall x, x ∈ l -> f x = Return (g x)) -> mapM f l = Return (g <$> l).
Proof.
  induction l as [|x l IH]; intros Hf; [reflexivity|].
  cbn [mapM fmap list_fmap]. rewrite (Hf x) by apply list_elem_of_here.
  cbn [mbind Completion_bind].
  change (mapM f l) with (mapM f l).
  rewrite IH by (intros y Hy; apply Hf; apply list_elem_of_further; exact Hy).
  reflexivity.
Qed.

Lemma mapM_Throw {A B} (f : A -> Completion B) (l : list A) (e : JsError) :
  (exists x, x ∈ l /\ f x = Throw e) ->
  (forall x e', x ∈ l -> f x = Throw e' -> e' = e) ->
  mapM f l = Throw e.
Proof.
  induction l as [|x l IH]; intros (y & Hy & Hfy) Hall.
  - apply elem_of_nil in Hy. contradiction.
  - cbn [mapM]. destruct (f x) as [b|e'] eqn:Hfx; cbn [mbind Completion_bind].
    + assert (mapM f l = Throw e) as ->; [|reflexivity].
      apply IH.
      * apply elem_of_cons in Hy as [-> | Hy]; [congruence | eauto].
      * intros z e'' Hz. apply Hall. apply list_elem_of_further. exact Hz.
    + f_equal. apply (Hall x); [apply list_elem_of_here | exact Hfx].
Qed.

Lemma fold_left_insert (l : list (string * JVal)) (m : gmap string JVal) :
  fold_left (fun m e => <[e.1 := e.2]> m) l m
  = foldr (fun e m => <[e.1 := e.2]> m) m (reverse l).
Proof.
  revert m. induction l as [|e l IH]; intros m; [reflexivity|].
  cbn [fold_left]. rewrite IH, reverse_cons, fold_right_app. reflexivity.
Qed.

Lemma omap_keys_subset (g : string * JVal -> option (string * JVal))
    (l : list (string * JVal)) (k : string) :
  (forall e e', g e = Some e' -> e'.1 = e.1) ->
  k ∈ (omap g l).*1 -> k ∈ l.*1.
Proof.
  intros Hg. rewrite !list_elem_of_fmap.
  intros (e' & -> & He'). apply list_elem_of_omap in He' as (e & He & Hge).
  exists e. split; [apply Hg; exact Hge | exact He].
Qed.

Lemma omap_keys_NoDup (g : string * JVal -> option (string * JVal))
    (l : list (string * JVal)) :
  (forall e e', g e = Some e' -> e'.1 = e.1) ->
  NoDup l.*1 -> NoDup (omap g l).*1.
Proof.
  intros Hg. induction l as [|e l IH]; intros Hnd; [constructor|].
  cbn [fmap list_fmap] in Hnd. apply NoDup_cons in Hnd as [Hnotin Hnd].
  cbn [omap list_omap]. destruct (g e) as [e'|] eqn:Hge; [|apply IH; exact Hnd].
  cbn [fmap list_fmap]. apply NoDup_cons. split; [|apply IH; exact Hnd].
  rewrite (Hg e e' Hge). intros Hin. apply Hnotin.
  eapply omap_keys_subset; eassumption.
Qed.

(** The object built from the kept entries of a record, key by key. *)
Lemma fromEntries_lookup (f : string -> JVal -> option JVal)
    (props : gmap string JVal) (key : string) :
  fold_left (fun (m : gmap string JVal) e => <[e.1 := e.2]> m)
            (omap (fun e : string * JVal => (e.1,.) <$> f e.1 e.2)
                  (map_to_list props)) ∅ !! key
  = props !! key ≫= f key.
Proof.
  rewrite fold_left_insert.
  change (foldr (fun e m => <[e.1 := e.2]> m) ∅ ?l)
    with (list_to_map (M := gmap string JVal) l).
  set (g := fun e : string * JVal => (e.1,.) <$> f e.1 e.2).
  assert (forall e e', g e = Some e' -> e'.1 = e.1) as Hg.
  { intros e e'. unfold g. destruct (f e.1 e.2); intros [= <-]; reflexivity. }
  apply option_eq. intros x.
  rewrite <- elem_of_list_to_map.
  2: { rewrite fmap_reverse, reverse_Permutation.
       apply omap_keys_NoDup; [exact Hg | apply NoDup_fst_map_to_list]. }
  rewrite elem_of_reverse, list_elem_of_omap. split.
  - intros ([k v] & Hin & Hgk). apply elem_of_map_to_list in Hin.
    unfold g in Hgk. cbn [fst snd] in Hgk.
    destruct (f k v) as [y|] eqn:Hf; [|discriminate].
    injection Hgk as -> ->. rewrite Hin. exact Hf.
  - intros Hb. destruct (props !! key) as [v|] eqn:Hv; [|discriminate].
    cbn [mbind option_bind] in Hb. exists (key, v).
    split; [apply elem_of_map_to_list; exact Hv|].
    unfold g. cbn [fst snd]. rewrite Hb. reflexivity.
Qed.

Section Projection.
Context {host : Host}.

Lemma formatEntry_projected keys key value :
  ~ (includes key keys = true /\ key = "user" /\ value = JNull) ->
  formatEntry keys (key, value) = Return ((key,.) <$> projected keys key value).
Proof.
  intros Hnot. unfold formatEntry, projected.
  destruct (includes key keys); [|reflexivity].
  destruct (String.eqb_spec key "user") as [-> | Hk]; cbn [andb].
  - destruct value; cbn [typeof String.eqb Ascii.eqb Bool.eqb andb orb]; try reflexivity.
    exfalso. apply Hnot. auto.
  - destruct (_ || _); reflexivity.
Qed.

Lemma formatEntry_throws keys entry e :
  formatEntry keys entry = Throw e -> e = null_login_error.
Proof.
  destruct entry as [key value]. unfold formatEntry.
  destruct (includes key keys); [|discriminate].
  destruct (String.eqb key "user"); cbn [andb].
  - destruct value;
      cbn [typeof String.eqb Ascii.eqb Bool.eqb andb orb Get mbind Completion_bind];
      try discriminate;
      try (destruct (_ || _); discriminate).
    intros [= <-]. reflexivity.
  - destruct (_ || _); discriminate.
Qed.

(** The projection of a record whose author is not [null]: entry by
    entry. *)
Lemma formatObjectByKey_projected keys (record : gmap string JVal) :
  ~ (includes "user" keys = true /\ record !! "user" = Some JNull) ->
  exists out,
    formatObjectByKey (JObj record) keys = Return (JObj out)
    /\ forall key, out !! key = record !! key ≫= projected keys key.
Proof.
  intros Hnot. unfold formatObjectByKey. cbn [Object_entries mbind Completion_bind].
  rewrite (mapM_Return _ (fun e => (e.1,.) <$> projected keys e.1 e.2)).
  2: { intros [key value] Hin. cbn [fst snd]. apply formatEntry_projected.
       intros (Hinc & -> & ->). apply Hnot. split; [exact Hinc|].
       apply elem_of_map_to_list. exact Hin. }
  cbn [mbind Completion_bind]. unfold Object_fromEntries.
  eexists. split; [reflexivity|]. intros key.
  rewrite <- fromEntries_lookup. f_equal. f_equal.
  generalize (map_to_list record). intros l.
  induction l as [|e l IH]; [reflexivity|].
  cbn [fmap list_fmap omap list_omap].
  destruct (projected keys e.1 e.2); cbn [fmap option_fmap option_map id]; rewrite <- IH; reflexivity.
Qed.

(** A record whose author is [null] makes the projection throw. *)
Lemma formatObjectByKey_null_user keys (record : gmap string JVal) :
  includes "user" keys = true ->
  record !! "user" = Some JNull ->
  formatObjectByKey (JObj record) keys = Throw null_login_error.
Proof.
  intros Hinc Hnull. unfold formatObjectByKey.
  cbn [Object_entries mbind Completion_bind].
  rewrite (mapM_Throw _ _ null_login_error); [reflexivity | |].
  - exists ("user", JNull). split; [apply elem_of_map_to_list; exact Hnull|].
    unfold formatEntry. rewrite Hinc. reflexivity.
  - intros entry e' _. apply formatEntry_throws.
Qed.

Lemma formatObjectByKey_record_throws keys (record : gmap string JVal) e :
  formatObjectByKey (JObj record) keys = Throw e -> e = null_login_error.
Proof.
  unfold formatObjectByKey. cbn [Object_entries mbind Completion_bind].
  generalize (map_to_list record). intros l.
  destruct (mapM (formatEntry keys) l) as [mapped|e'] eqn:Hm;
    cbn [mbind Completion_bind]; [discriminate|].
  intros [= <-]. revert e' Hm.
  induction l as [|x l IH]; intros e' Hm; [discriminate|].
  cbn [mapM] in Hm. destruct (formatEntry keys x) as [y|e''] eqn:Hx;
    cbn [mbind Completion_bind] in Hm.
  - destruct (mapM (formatEntry keys) l) as [k|e3] eqn:Hl;
      cbn [mbind Completion_bind] in Hm; [discriminate|].
    injection Hm as <-. apply IH. reflexivity.
  - injection Hm as <-. eapply formatEntry_throws. exact Hx.
Qed.

End Projection.

Section ProjectionTheorems.
Context {host : Host}.

Lemma formatDate_timestamp v t :
  Date_new v = Some t ->
  1000 <= YearFromTime (LocalTime t) <= 9999 ->
  formatDate v = local_date_string t.
Proof.
  intros Ht Hy. unfold formatDate. cbv zeta. rewrite Ht.
  cbn [getFullYear getMonth getDate mbind option_bind fmap option_fmap option_map
       String_of_number].
  pose proof (time_fields_valid (LocalTime t)) as Hv.
  apply valid_ymd_inv in Hv as [Hm Hd].
  pose proof (DaysInMonth_bound (YearFromTime (LocalTime t))
                (MonthFromTime (LocalTime t) + 1)) as Hdim.
  rewrite Number_toString_4 by exact Hy.
  assert (forall x, 0 <= x <= 99 ->
            padStart 2 "0" (Number_toString x) = digit_string2 x) as Hpad.
  { intros x Hx. unfold Number_toString.
    destruct (Z.ltb_spec x 0); [lia|]. apply pad2_digits. exact Hx. }
  rewrite !Hpad by lia. reflexivity.
Qed.

Lemma local_date_string_regex t :
  0 <= YearFromTime (LocalTime t) <= 9999 ->
  date_regex (local_date_string t) = true.
Proof.
  intros Hy. pose proof (time_fields_valid (LocalTime t)) as Hv.
  apply valid_ymd_inv in Hv as [Hm Hd].
  pose proof (DaysInMonth_bound (YearFromTime (LocalTime t))
                (MonthFromTime (LocalTime t) + 1)) as Hdim.
  apply date_regex_string; lia.
Qed.

Lemma includes_elem_of key keys : includes key keys = true <-> key ∈ keys.
Proof.
  unfold includes. rewrite existsb_exists. split.
  - intros (k & Hin & Heq). apply String.eqb_eq in Heq. subst k.
    apply list_elem_of_In. exact Hin.
  - intros Hin. exists key. split; [apply list_elem_of_In; exact Hin|].
    apply String.eqb_refl.
Qed.

Lemma projected_is_Some keys key value :
  is_Some (projected keys key value) <-> includes key keys = true.
Proof.
  unfold projected. destruct (includes key keys).
  - split; [reflexivity|]. intros _.
    destruct (_ && _); [eauto|]. destruct (_ || _); eauto.
  - split; [intros [? ?]; discriminate | discriminate].
Qed.

Lemma author_login_inv user login :
  author_login user = Some login ->
  exists u, user = JObj u /\ u !! "login" = Some (JStr login).
Proof.
  destruct user as [| | | | | |u]; try discriminate. cbn [author_login].
  destruct (u !! "login") as [[| | | |l| |]|] eqn:Hl; try discriminate.
  intros [= <-]. eauto.
Qed.

(** C2.  The projection of a source record (one whose author, when it has
    one, is an object with a text login, and whose [created_at], when it
    has one, is a timestamp of a year of four digits) returns a record
    whose keys are exactly the kept keys the source has; its [user] is the
    text of the author's login; its [created_at] is the text YYYY-MM-DD of
    the local day of the timestamp; [id], [title] and [state] are as in
    the source. *)
Theorem formatObjectByKey_spec (record : gmap string JVal) :
  (forall user, record !! "user" = Some user -> is_Some (author_login user)) ->
  (forall created_at, record !! "created_at" = Some created_at ->
                      is_timestamp created_at) ->
  exists out : gmap string JVal,
    formatObjectByKey (JObj record) keysToKeep = Return (JObj out)
    /\ dom out = dom record ∩ list_to_set keysToKeep
    /\ (forall user, record !! "user" = Some user ->
          exists login, author_login user = Some login
                        /\ out !! "user" = Some (JStr login))
    /\ (forall created_at, record !! "created_at" = Some created_at ->
          exists t, Date_new created_at = Some t
                    /\ out !! "created_at" = Some (JStr (local_date_string t))
                    /\ date_regex (local_date_string t) = true)
    /\ (forall key, In key ["id"; "title"; "state"] ->
          out !! key = record !! key).
Proof.
  intros Huser Hcreated.
  destruct (formatObjectByKey_projected keysToKeep record) as (out & Hout & Hlook).
  { intros [_ Hnull]. destruct (Huser _ Hnull) as [l Hl]. discriminate Hl. }
  exists out. split; [exact Hout|]. split; [|split; [|split]].
  - apply set_eq. intros key.
    rewrite elem_of_intersection, !elem_of_dom, elem_of_list_to_set, Hlook.
    rewrite <- includes_elem_of.
    destruct (record !! key) as [v|]; cbn [mbind option_bind].
    + rewrite projected_is_Some. split; [eauto | tauto].
    + split; [intros [? ?]; discriminate | intros [[? ?] _]; discriminate].
  - intros user Hu. destruct (Huser _ Hu) as [login Hl]. exists login.
    split; [exact Hl|]. rewrite Hlook, Hu. cbn [mbind option_bind].
    apply author_login_inv in Hl as (u & -> & Hl).
    unfold projected. cbn. rewrite Hl. reflexivity.
  - intros created_at Hc. destruct (Hcreated _ Hc) as (t & Ht & Hy).
    exists t. split; [exact Ht|]. split; [|apply local_date_string_regex; lia].
    rewrite Hlook, Hc. cbn [mbind option_bind].
    rewrite <- (formatDate_timestamp created_at t Ht Hy). reflexivity.
  - intros key Hkey. rewrite Hlook.
    destruct (record !! key) as [v|]; [|reflexivity]. cbn [mbind option_bind].
    cbn [In] in Hkey. destruct Hkey as [<- | [<- | [<- | []]]]; reflexivity.
Qed.

End ProjectionTheorems.

(** ** The existence checks *)

Section Checks.
Context {host : Host} {remote : Remote}.

Lemma getHeaders_request u h :
  getHeaders u h
  = (match axios h (head_request u) with
     | fulfilled response => Return response
     | rejected error => Throw error
     end, h ++ [head_request u]).
Proof.
  unfold getHeaders, head_request, axios_call.
  destruct token; destruct (axios h _); reflexivity.
Qed.

Lemma getPullsData_request u h :
  getPullsData u h
  = (match axios h (get_request u) with
     | fulfilled response => Return response
     | rejected error => Throw error
     end, h ++ [get_request u]).
Proof.
  unfold getPullsData, get_request, axios_call.
  destruct token; destruct (axios h _); reflexivity.
Qed.

Lemma validateStringNotEmpty_kind value e :
  validateStringNotEmpty value = Throw e -> TypeKind e \/ EmptyValueKind e.
Proof.
  unfold validateStringNotEmpty.
  destruct value as [| | | |s| |]; try (intros [= <-]; left; eexists; reflexivity).
  destruct (_ || _); [|discriminate].
  intros [= <-]. right. reflexivity.
Qed.

Lemma trim_empty : trim EmptyString = EmptyString.
Proof. reflexivity. Qed.

Lemma str_length_0 s : (str_length s =? 0) = is_empty s.
Proof. destruct s; reflexivity. Qed.

(** The identifier check passes exactly the texts with something other
    than white space in them. *)
Lemma validateStringNotEmpty_Return value :
  validateStringNotEmpty value = Return tt
  <-> exists s, value = JStr s /\ trim s <> EmptyString.
Proof.
  unfold validateStringNotEmpty. split.
  - destruct value as [| | | |s| |]; try discriminate.
    rewrite str_length_0.
    destruct s as [|c s]; [discriminate|]. cbn [is_empty orb].
    destruct (trim (String c s)) eqn:Ht; [discriminate|].
    intros _. exists (String c s). rewrite Ht. split; [reflexivity | discriminate].
  - intros (s & -> & Hs). rewrite str_length_0.
    destruct s as [|c s]; [contradiction|]. cbn [is_empty orb].
    destruct (trim (String c s)); [contradiction | reflexivity].
Qed.

Lemma verifyOwnerExists_invalid owner e h :
  validateStringNotEmpty owner = Throw e ->
  verifyOwnerExists owner h = (Throw e, h).
Proof.
  intros Hv. unfold verifyOwnerExists, lift, mbind, Prom_bind. rewrite Hv.
  reflexivity.
Qed.

Lemma verifyOwnerExists_valid owner h :
  validateStringNotEmpty owner = Return tt ->
  verifyOwnerExists owner h
  = (probe_outcome (axios h (head_request (owner_url owner)))
       (Error ("repository owner " +:+ ToString owner +:+ " not found")),
     h ++ [head_request (owner_url owner)]).
Proof.
  intros Hv. unfold verifyOwnerExists, lift, try_catch, mbind, Prom_bind, mret, Prom_ret.
  rewrite Hv. fold (owner_url owner).
  rewrite getHeaders_request. unfold probe_outcome.
  destruct (axios h _) as [response|error]; [reflexivity|].
  destruct (bool_decide _); reflexivity.
Qed.

Lemma verifyRepoExists_invalid repo owner e h :
  validateStringNotEmpty repo = Throw e ->
  verifyRepoExists repo owner h = (Throw e, h).
Proof.
  intros Hv. unfold verifyRepoExists, lift, mbind, Prom_bind. rewrite Hv.
  reflexivity.
Qed.

Lemma verifyRepoExists_valid repo owner h :
  validateStringNotEmpty repo = Return tt ->
  verifyRepoExists repo owner h
  = (probe_outcome (axios h (head_request (repo_url repo owner)))
       (Error ("repository " +:+ ToString repo +:+ " for owner "
               +:+ ToString owner +:+ " not found")),
     h ++ [head_request (repo_url repo owner)]).
Proof.
  intros Hv. unfold verifyRepoExists, lift, try_catch, mbind, Prom_bind, mret, Prom_ret.
  rewrite Hv. fold (repo_url repo owner).
  rewrite getHeaders_request. unfold probe_outcome.
  destruct (axios h _) as [response|error]; [reflexivity|].
  destruct (bool_decide _); reflexivity.
Qed.

(** C8, as amended.  The owner check validates the owner and the
    repository check validates the repository only (the owner goes into
    its URL as it is).  A failed validation is the outcome, with no
    request issued.  Otherwise one HEAD request is issued: an answer of
    status 200 gives [true] (any other fulfilled answer [false]); a
    rejection with status 404 gives the error that names the owner, or
    the repository and the owner; any other rejection is the outcome
    unchanged. *)
Theorem existence_checks_spec (owner repo : JVal) (h : History) :
  (forall e, validateStringNotEmpty owner = Throw e ->
             verifyOwnerExists owner h = (Throw e, h))
  /\ (validateStringNotEmpty owner = Return tt ->
      exists missing,
        OwnerNotFoundKind (ToString owner) missing
        /\ verifyOwnerExists owner h
           = (probe_outcome (axios h (head_request (owner_url owner))) missing,
              h ++ [head_request (owner_url owner)]))
  /\ (forall e, validateStringNotEmpty repo = Throw e ->
                verifyRepoExists repo owner h = (Throw e, h))
  /\ (validateStringNotEmpty repo = Return tt ->
      exists missing,
        RepoNotFoundKind (ToString owner) (ToString repo) missing
        /\ verifyRepoExists repo owner h
           = (probe_outcome (axios h (head_request (repo_url repo owner))) missing,
              h ++ [head_request (repo_url repo owner)]))
  /\ (forall response missing,
        probe_outcome (fulfilled response) missing
        = Return (status response =? 200))
  /\ (forall code response missing,
        status response = 404 ->
        probe_outcome (rejected (AxiosError code (Some response))) missing
        = Throw missing)
  /\ (forall error missing,
        response_status error <> Some 404 ->
        probe_outcome (rejected error) missing = Throw error).
Proof.
  split; [intros e; apply verifyOwnerExists_invalid|].
  split; [intros Hv; eexists; split; [reflexivity | apply verifyOwnerExists_valid; exact Hv]|].
  split; [intros e; apply verifyRepoExists_invalid|].
  split; [intros Hv; eexists; split; [reflexivity | apply verifyRepoExists_valid; exact Hv]|].
  split; [reflexivity|].
  split.
  - intros code response missing Hs. unfold probe_outcome. cbn [response_status].
    rewrite Hs. rewrite bool_decide_eq_true_2 by reflexivity. reflexivity.
  - intros error missing Hne. unfold probe_outcome.
    rewrite bool_decide_eq_false_2 by exact Hne. reflexivity.
Qed.

End Checks.

(** ** The link header *)

Lemma split_without c s : contains c s = false -> split c s = [s].
Proof.
  induction s as [|a s IH]; [reflexivity|].
  cbn [contains split]. destruct (Ascii.eqb a c); [discriminate|].
  cbn [orb]. intros H. rewrite (IH H). reflexivity.
Qed.

Lemma split_with c s :
  contains c s = true -> exists a b rest, split c s = a :: b :: rest.
Proof.
  induction s as [|x s IH]; [discriminate|].
  cbn [contains split]. destruct (Ascii.eqb x c).
  - intros _. destruct (split c s) as [|b rest] eqn:Hs.
    + destruct s; cbn [split] in Hs; [discriminate|].
      destruct (Ascii.eqb _ _); [discriminate|]. destruct (split c s); discriminate.
    + eauto.
  - cbn [orb]. intros H. destruct (IH H) as (a & b & rest & ->). eauto.
Qed.

Lemma split_append c a b :
  contains c a = false -> split c (a +:+ String c b) = a :: split c b.
Proof.
  induction a as [|x a IH]; intros Ha.
  - change (split c (String c b) = EmptyString :: split c b).
    cbn [split]. rewrite Ascii.eqb_refl. reflexivity.
  - cbn [contains] in Ha. apply orb_false_elim in Ha as [Hx Ha].
    change (split c (String x (a +:+ String c b)) = String x a :: split c b).
    cbn [split]. rewrite Hx, (IH Ha). reflexivity.
Qed.

Lemma replace_group_without open close s :
  occurs open s = false -> replace_group open close s = s.
Proof.
  induction s as [|c s IH]; intros Ho.
  - destruct open; [discriminate Ho | reflexivity].
  - cbn [occurs] in Ho. apply orb_false_elim in Ho as [Hp Ho].
    cbn [replace_group].
    assert (drop_prefix open (String c s) = None) as ->.
    { clear -Hp. revert Hp. generalize (String c s). intros t.
      revert t. induction open as [|a open IHo]; intros t Hp; [discriminate|].
      destruct t as [|b t]; [reflexivity|]. cbn [startsWith drop_prefix] in *.
      destruct (Ascii.eqb a b); [apply IHo; exact Hp | reflexivity]. }
    cbn [mbind option_bind]. rewrite (IH Ho). reflexivity.
Qed.

Lemma parseLinkPart_without links part :
  contains ";" part = false -> parseLinkPart links part = Throw replace_error.
Proof. intros H. unfold parseLinkPart. rewrite (split_without _ _ H). reflexivity. Qed.

Lemma parseLinkPart_with links part :
  contains ";" part = true -> exists links', parseLinkPart links part = Return links'.
Proof.
  intros H. unfold parseLinkPart.
  destruct (split_with _ _ H) as (a & b & rest & ->). eauto.
Qed.

Lemma parseLinkParts_thrown parts e :
  fold_left (fun acc part => links ← acc; parseLinkPart links part)
            parts (Throw e) = Throw e.
Proof. induction parts as [|p parts IH]; [reflexivity | exact IH]. Qed.

Lemma parseLinkParts_spec parts links :
  (forallb (contains ";") parts = true ->
   exists links',
     fold_left (fun acc part => links ← acc; parseLinkPart links part)
               parts (Return links) = Return links')
  /\ (forallb (contains ";") parts = false ->
      fold_left (fun acc part => links ← acc; parseLinkPart links part)
                parts (Return links) = Throw replace_error).
Proof.
  revert links. induction parts as [|p parts IH]; intros links.
  - split; [eauto | discriminate].
  - cbn [forallb fold_left mbind Completion_bind].
    destruct (contains ";" p) eqn:Hp; cbn [andb].
    + destruct (parseLinkPart_with links p Hp) as [links' ->]. apply IH.
    + rewrite (parseLinkPart_without links p Hp).
      split; [discriminate|]. intros _. apply parseLinkParts_thrown.
Qed.

(** The parser returns a mapping exactly when every segment has a
    semicolon, and names the relation of a segment without a [rel=] part
    by the trimmed text after the semicolon. *)
Lemma parseLinkHeader_segments (header : string) :
  (forallb (contains ";") (split "," header) = true ->
   exists links, parseLinkHeader header = Return links)
  /\ (forallb (contains ";") (split "," header) = false ->
      parseLinkHeader header = Throw replace_error)
  /\ (forall target relation : string,
        contains "," target = false -> contains ";" target = false ->
        contains "," relation = false -> contains ";" relation = false ->
        occurs ("rel=" +:+ String dquote "") relation = false ->
        parseLinkHeader (target +:+ String ";" relation)
        = Return (set_link ∅ (trim relation)
                           (trim (replace_group "<" ">" target)))).
Proof.
  unfold parseLinkHeader. cbv zeta.
  split; [apply parseLinkParts_spec|]. split; [apply parseLinkParts_spec|].
  intros target relation Ht1 Ht2 Hr1 Hr2 Hrel.
  assert (contains "," (target +:+ String ";" relation) = false) as Hc.
  { clear -Ht1 Hr1. induction target as [|c t IH].
    - exact Hr1.
    - cbn [contains] in Ht1. apply orb_false_elim in Ht1 as [Hc Ht].
      change (contains "," (String c (t +:+ String ";" relation)) = false).
      cbn [contains]. rewrite Hc, (IH Ht). reflexivity. }
  rewrite (split_without _ _ Hc). cbn [fold_left mbind Completion_bind].
  unfold parseLinkPart. rewrite (split_append _ _ _ Ht2), (split_without _ _ Hr2).
  rewrite (replace_group_without _ _ relation Hrel). reflexivity.
Qed.

(** ** The page loop *)

Section Pagination.
Context {host : Host} {remote : Remote}.

Lemma Array_concat_records acc response :
  Array_concat acc (data response) = acc ++ page_records response.
Proof. unfold page_records, Array_concat. destruct (data response); reflexivity. Qed.

(** One round of the loop, by the answer and the next relation. *)
Lemma loop_round fuel acc u h :
  getAllPullRequests_loop (S fuel) acc u h
  = match getPullsData u h with
    | (Throw error, h') => Some (Throw error, h')
    | (Return response, h') =>
        match next_url response with
        | Throw error => Some (Throw error, h')
        | Return None => Some (Return (acc ++ page_records response), h')
        | Return (Some next) =>
            getAllPullRequests_loop fuel (acc ++ page_records response) next h'
        end
    end.
Proof.
  cbn [getAllPullRequests_loop].
  destruct (getPullsData u h) as [[response|error] h']; [|reflexivity].
  rewrite Array_concat_records. unfold next_url.
  destruct (headers response !! "link") as [linkHeader|]; [|reflexivity].
  destruct (is_empty linkHeader); [reflexivity|].
  destruct (parseLinkHeader linkHeader) as [links|error]; [|reflexivity].
  cbn [mbind Completion_bind].
  destruct (links !! "next") as [next|]; [|reflexivity].
  destruct (is_empty next); reflexivity.
Qed.

Lemma loop_fetched pages : forall fuel acc u h u' h',
  Fetched h u pages u' h' ->
  getAllPullRequests_loop (length pages + fuel) acc u h
  = getAllPullRequests_loop fuel (acc ++ concat (page_records <$> pages)) u' h'.
Proof.
  induction pages as [|response pages IH]; intros fuel acc u h u' h' Hf.
  - inversion Hf; subst. cbn [length Nat.add fmap list_fmap concat].
    rewrite app_nil_r. reflexivity.
  - inversion Hf as [|? ? ? h1 next ? ? ? Hget Hnext Hrest]; subst.
    cbn [length Nat.add]. rewrite loop_round, Hget, Hnext.
    rewrite (IH fuel _ next h1 u' h' Hrest).
    cbn [fmap list_fmap concat]. rewrite app_assoc. reflexivity.
Qed.

(** Every outcome of the loop is one of three: a page without a next
    relation, a failed fetch, or a page whose link header does not
    parse, after pages that each named the next. *)
Lemma loop_outcome fuel : forall acc u h c hf,
  getAllPullRequests_loop fuel acc u h = Some (c, hf) ->
  exists pages u' h',
    Fetched h u pages u' h'
    /\ ((exists last,
           getPullsData u' h' = (Return last, hf)
           /\ next_url last = Return None
           /\ c = Return (acc ++ concat (page_records <$> (pages ++ [last]))))
        \/ (exists error,
              getPullsData u' h' = (Throw error, hf) /\ c = Throw error)
        \/ (exists last error,
              getPullsData u' h' = (Return last, hf)
              /\ next_url last = Throw error /\ c = Throw error)).
Proof.
  induction fuel as [|fuel IH]; intros acc u h c hf; [discriminate|].
  rewrite loop_round.
  destruct (getPullsData u h) as [[response|error] h1] eqn:Hget.
  2: { intros [= <- <-]. exists [], u, h. split; [constructor|].
       right. left. eauto. }
  destruct (next_url response) as [[next|]|error] eqn:Hnext.
  - intros Hloop. destruct (IH _ _ _ _ _ Hloop) as (pages & u' & h' & Hf & Hend).
    exists (response :: pages), u', h'.
    split; [econstructor; eassumption|].
    destruct Hend as [(last & Hl & Hn & ->) | [(e & Hl & ->) | (last & e & Hl & Hn & ->)]].
    + left. exists last. split; [exact Hl|]. split; [exact Hn|].
      cbn [app fmap list_fmap concat]. rewrite app_assoc. reflexivity.
    + right. left. eauto.
    + right. right. eauto.
  - intros [= <- <-]. exists [], u, h. split; [constructor|].
    left. exists response. split; [exact Hget|]. split; [exact Hnext|].
    cbn [app fmap list_fmap concat]. rewrite app_nil_r. reflexivity.
  - intros [= <- <-]. exists [], u, h. split; [constructor|].
    right. right. eauto.
Qed.

(** C5, as amended.  From the collection URL, when pages are served one
    after the other, each naming the next: a page without a next
    relation ends the call, which returns the records of all the pages,
    first page first, each page in its own order; a failed fetch ends it
    with that fetch's error and no records; a page whose link header does
    not parse ends it with the parser's error and no records.  The call
    ends in no other way. *)
Theorem getAllPullRequests_spec (repo owner : JVal) (h : History) :
  (forall pages u' h' last hf fuel,
      Fetched h (pulls_url repo owner) pages u' h' ->
      getPullsData u' h' = (Return last, hf) ->
      next_url last = Return None ->
      getAllPullRequests (length pages + S fuel) repo owner h
      = Some (Return (concat (page_records <$> (pages ++ [last]))), hf))
  /\ (forall pages u' h' error hf fuel,
        Fetched h (pulls_url repo owner) pages u' h' ->
        getPullsData u' h' = (Throw error, hf) ->
        getAllPullRequests (length pages + S fuel) repo owner h
        = Some (Throw error, hf))
  /\ (forall pages u' h' last error hf fuel,
        Fetched h (pulls_url repo owner) pages u' h' ->
        getPullsData u' h' = (Return last, hf) ->
        next_url last = Throw error ->
        getAllPullRequests (length pages + S fuel) repo owner h
        = Some (Throw error, hf))
  /\ (forall fuel c hf,
        getAllPullRequests fuel repo owner h = Some (c, hf) ->
        exists pages u' h',
          Fetched h (pulls_url repo owner) pages u' h'
          /\ ((exists last,
                 getPullsData u' h' = (Return last, hf)
                 /\ next_url last = Return None
                 /\ c = Return (concat (page_records <$> (pages ++ [last]))))
              \/ (exists error,
                    getPullsData u' h' = (Throw error, hf) /\ c = Throw error)
              \/ (exists last error,
                    getPullsData u' h' = (Return last, hf)
                    /\ next_url last = Throw error /\ c = Throw error))).
Proof.
  unfold getAllPullRequests. fold (pulls_url repo owner).
  split; [|split; [|split]].
  - intros pages u' h' last hf fuel Hf Hget Hnext.
    rewrite (loop_fetched pages _ _ _ _ _ _ Hf), loop_round, Hget, Hnext.
    rewrite fmap_app, concat_app. cbn [fmap list_fmap concat app].
    rewrite app_nil_r. reflexivity.
  - intros pages u' h' error hf fuel Hf Hget.
    rewrite (loop_fetched pages _ _ _ _ _ _ Hf), loop_round, Hget. reflexivity.
  - intros pages u' h' last error hf fuel Hf Hget Hnext.
    rewrite (loop_fetched pages _ _ _ _ _ _ Hf), loop_round, Hget, Hnext. reflexivity.
  - intros fuel c hf Hloop. apply loop_outcome in Hloop. exact Hloop.
Qed.

(** C6, as amended.  [parseLinkHeader] returns a mapping exactly when
    every comma-separated segment of the header has a semicolon in it.  A
    segment that has a semicolon but no [rel=] part does not stop the
    parse: its relation is named by the trimmed text after the semicolon.
    A segment without a semicolon makes the parser throw a TypeError (its
    relation part is undefined and is read), and the page loop, which
    calls the parser on every link header that is not empty, then ends
    with that error instead of taking the page for the last. *)
Theorem parseLinkHeader_spec (header : string) :
  (forallb (contains ";") (split "," header) = true ->
   exists links, parseLinkHeader header = Return links)
  /\ (forallb (contains ";") (split "," header) = false ->
      parseLinkHeader header = Throw replace_error)
  /\ (forall target relation : string,
        contains "," target = false -> contains ";" target = false ->
        contains "," relation = false -> contains ";" relation = false ->
        occurs ("rel=" +:+ String dquote "") relation = false ->
        parseLinkHeader (target +:+ String ";" relation)
        = Return (set_link ∅ (trim relation)
                           (trim (replace_group "<" ">" target))))
  /\ (forall fuel acc u h response h',
        getPullsData u h = (Return response, h') ->
        headers response !! "link" = Some header ->
        is_empty header = false ->
        forallb (contains ";") (split "," header) = false ->
        getAllPullRequests_loop (S fuel) acc u h = Some (Throw replace_error, h')).
Proof.
  destruct (parseLinkHeader_segments header) as (Hok & Hthrow & Hsegment).
  split; [exact Hok|]. split; [exact Hthrow|]. split; [exact Hsegment|].
  intros fuel acc u h response h' Hget Hlink Hne Hbare.
  rewrite loop_round, Hget. unfold next_url. rewrite Hlink, Hne.
  rewrite (Hthrow Hbare). reflexivity.
Qed.

End Pagination.

(** ** The orchestrator *)

Section Orchestrator.
Context {host : Host} {remote : Remote}.

Lemma loop_history fuel : forall acc u h c hf,
  getAllPullRequests_loop fuel acc u h = Some (c, hf) ->
  exists more, hf = h ++ get_request u :: more.
Proof.
  induction fuel as [|fuel IH]; intros acc u h c hf; [discriminate|].
  rewrite loop_round, getPullsData_request.
  destruct (axios h (get_request u)) as [response|error].
  2: { intros [= <- <-]. exists []. reflexivity. }
  destruct (next_url response) as [[next|]|error].
  - intros Hloop. destruct (IH _ _ _ _ _ Hloop) as [more ->].
    rewrite <- app_assoc. eexists. reflexivity.
  - intros [= <- <-]. exists []. reflexivity.
  - intros [= <- <-]. exists []. reflexivity.
Qed.

Lemma getPullRequests_settled fuel owner repo startDate endDate h c1 h1 c2 h2 :
  validateDateStrings startDate endDate = Return tt ->
  verifyOwnerExists owner h = (c1, h1) ->
  verifyRepoExists repo owner h1 = (c2, h2) ->
  getPullRequests fuel owner repo startDate endDate h
  = match getAllPullRequests fuel repo owner h2 with
    | None => None
    | Some (c3, h3) =>
        Some (match first_rejection c1 c2 c3 with
              | Some reason => Throw reason
              | None =>
                  match c3 with
                  | Return all =>
                      filtered ← filterPullRequestsByDateRange all startDate endDate;
                      mapM (fun item => formatObjectByKey item keysToKeep) filtered
                  | Throw reason => Throw reason
                  end
              end, h3)
    end.
Proof.
  intros Hv H1 H2. unfold getPullRequests. rewrite Hv, H1, H2.
  destruct (getAllPullRequests fuel repo owner h2) as [[c3 h3]|]; [|reflexivity].
  destruct c1, c2, c3; reflexivity.
Qed.

(** C3.  Once the dates are valid the three operations are started in
    the order owner check, repository check, page loop, and the call has
    an outcome only when the loop has one, whatever the two checks gave:
    no failure cuts the others short, the loop's first request is always
    issued.  The outcome is then the failure of the first operation, in
    that order, that failed; so when both checks find nothing, the
    owner's error is raised. *)
Theorem getPullRequests_first_failure (fuel : nat)
    (owner repo startDate endDate : JVal) (h : History)
    (c1 c2 : Completion bool) (h1 h2 : History) :
  validateDateStrings startDate endDate = Return tt ->
  verifyOwnerExists owner h = (c1, h1) ->
  verifyRepoExists repo owner h1 = (c2, h2) ->
  (getAllPullRequests fuel repo owner h2 = None ->
   getPullRequests fuel owner repo startDate endDate h = None)
  /\ (forall c3 h3,
        getAllPullRequests fuel repo owner h2 = Some (c3, h3) ->
        (exists more, h3 = h2 ++ get_request (pulls_url repo owner) :: more)
        /\ exists c,
            getPullRequests fuel owner repo startDate endDate h = Some (c, h3)
            /\ (forall reason, first_rejection c1 c2 c3 = Some reason ->
                               c = Throw reason)
            /\ (forall e1 e2,
                  c1 = Throw e1 -> c2 = Throw e2 ->
                  OwnerNotFoundKind (ToString owner) e1 ->
                  RepoNotFoundKind (ToString owner) (ToString repo) e2 ->
                  c = Throw e1)).
Proof.
  intros Hv H1 H2.
  rewrite (getPullRequests_settled fuel owner repo startDate endDate h c1 h1 c2 h2 Hv H1 H2).
  split; [intros ->; reflexivity|].
  intros c3 h3 H3. rewrite H3.
  split; [eapply loop_history; exact H3|].
  eexists. split; [reflexivity|]. split.
  - intros reason ->. reflexivity.
  - intros e1 e2 -> -> _ _. reflexivity.
Qed.

(** C7, as amended.  A date range that fails validation makes the call
    fail with that error (of the kind InvalidDateKind or RangeOrderKind
    when the two dates are texts) and no request issued.  The identifiers are not
    validated up front: each is validated by its own check, started with
    the others after the dates passed.  That check issues no request and
    fails with the error of kind TypeKind or EmptyValueKind; the other
    two operations issue theirs all the same, so the history has grown
    by the time the call fails.  The call fails with the owner's
    validation error, or with the repository's when the owner check
    succeeded. *)
Theorem validation_and_requests (fuel : nat)
    (owner repo startDate endDate : JVal) (h : History) :
  (forall e, validateDateStrings startDate endDate = Throw e ->
             getPullRequests fuel owner repo startDate endDate h
             = Some (Throw e, h))
  /\ (forall s d e, startDate = JStr s -> endDate = JStr d ->
        validateDateStrings startDate endDate = Throw e ->
        InvalidDateKind e \/ RangeOrderKind e)
  /\ (forall e, validateStringNotEmpty owner = Throw e ->
        (TypeKind e \/ EmptyValueKind e)
        /\ verifyOwnerExists owner h = (Throw e, h)
        /\ (validateDateStrings startDate endDate = Return tt ->
            forall c hf,
              getPullRequests fuel owner repo startDate endDate h = Some (c, hf) ->
              c = Throw e
              /\ exists before after,
                   hf = before ++ get_request (pulls_url repo owner) :: after))
  /\ (forall e, validateStringNotEmpty repo = Throw e ->
        (TypeKind e \/ EmptyValueKind e)
        /\ (forall h1, verifyRepoExists repo owner h1 = (Throw e, h1))
        /\ (validateDateStrings startDate endDate = Return tt ->
            forall b h1 c hf,
              verifyOwnerExists owner h = (Return b, h1) ->
              getPullRequests fuel owner repo startDate endDate h = Some (c, hf) ->
              c = Throw e
              /\ exists before after,
                   hf = before ++ get_request (pulls_url repo owner) :: after)).
Proof.
  split; [|split; [|split]].
  - intros e Hv. unfold getPullRequests. rewrite Hv. reflexivity.
  - intros s d e -> ->. apply validateDateStrings_kind.
  - intros e He. split; [eapply validateStringNotEmpty_kind; exact He|].
    split; [apply verifyOwnerExists_invalid; exact He|].
    intros Hv c hf.
    destruct (verifyRepoExists repo owner h) as [c2 h2] eqn:H2.
    rewrite (getPullRequests_settled fuel owner repo startDate endDate h
               (Throw e) h c2 h2 Hv (verifyOwnerExists_invalid owner e h He) H2).
    destruct (getAllPullRequests fuel repo owner h2) as [[c3 h3]|] eqn:H3;
      [|discriminate].
    intros [= <- <-]. split; [reflexivity|].
    destruct (loop_history _ _ _ _ _ _ H3) as [more ->]. eauto.
  - intros e He. split; [eapply validateStringNotEmpty_kind; exact He|].
    split; [intros h1; apply verifyRepoExists_invalid; exact He|].
    intros Hv b h1 c hf H1.
    rewrite (getPullRequests_settled fuel owner repo startDate endDate h
               (Return b) h1 (Throw e) h1 Hv H1
               (verifyRepoExists_invalid repo owner e h1 He)).
    destruct (getAllPullRequests fuel repo owner h1) as [[c3 h3]|] eqn:H3;
      [|discriminate].
    intros [= <- <-]. split; [reflexivity|].
    destruct (loop_history _ _ _ _ _ _ H3) as [more ->]. eauto.
Qed.

(** C10.  When the three operations succeeded and a record that
    survives the filter has a [user] that is [null], the projection of
    that record throws a TypeError (the login of [null] is read), and so
    does the whole call: there is no result. *)
Theorem null_user_throws (fuel : nat) (owner repo startDate endDate : JVal)
    (h h1 h2 h3 : History) (b1 b2 : bool) (all kept : list JVal)
    (record : gmap string JVal) :
  validateDateStrings startDate endDate = Return tt ->
  verifyOwnerExists owner h = (Return b1, h1) ->
  verifyRepoExists repo owner h1 = (Return b2, h2) ->
  getAllPullRequests fuel repo owner h2 = Some (Return all, h3) ->
  filterPullRequestsByDateRange all startDate endDate = Return kept ->
  JObj record ∈ kept ->
  record !! "user" = Some JNull ->
  formatObjectByKey (JObj record) keysToKeep = Throw null_login_error
  /\ getPullRequests fuel owner repo startDate endDate h
     = Some (Throw null_login_error, h3).
Proof.
  intros Hv H1 H2 H3 Hkept Hin Hnull.
  assert (formatObjectByKey (JObj record) keysToKeep = Throw null_login_error) as Hthrow.
  { apply formatObjectByKey_null_user; [reflexivity | exact Hnull]. }
  split; [exact Hthrow|].
  rewrite (getPullRequests_settled fuel owner repo startDate endDate h
             (Return b1) h1 (Return b2) h2 Hv H1 H2), H3.
  cbn [first_rejection]. rewrite Hkept. cbn [mbind Completion_bind].
  rewrite (mapM_Throw _ _ null_login_error); [reflexivity | |].
  - exists (JObj record). split; [exact Hin | exact Hthrow].
  - intros item e' Hitem Hitem_throws.
    pose proof (filter_survivors _ _ _ _ Hkept) as Hrec.
    rewrite Forall_forall in Hrec. destruct (Hrec item Hitem) as [props ->].
    eapply formatObjectByKey_record_throws. exact Hitem_throws.
Qed.

End Orchestrator.

(** ** The properties at work *)

(** C1.  On a host five hours behind UTC, asked for 1 March 2024 alone,
    the filter keeps the pull request created at noon UTC on 29 February
    and drops the one created at noon UTC on 1 March.  The window of
    1 March, on the host's clocks and on UTC clocks alike, holds the
    second and not the first: the filter has used the window of the day
    before (see [filter_window_west]; at or east of Greenwich it uses the
    window asked for, [filter_window_east]). *)
Theorem filter_west_of_Greenwich :
  filterPullRequestsByDateRange (host := host_west) [pull_feb29; pull_mar01]
    (JStr "2024-03-01") (JStr "2024-03-01")
  = Return [pull_feb29]
  /\ calendar_date "2024-03-01" = Some (2024, 3, 1)
  /\ List.filter
       (touched_within (host := host_west)
          (day_window (-5 * msPerHour) (day_number (2024, 3, 1))
                      (day_number (2024, 3, 1))))
       [pull_feb29; pull_mar01]
     = [pull_mar01]
  /\ List.filter
       (touched_within (host := host_west)
          (day_window 0 (day_number (2024, 3, 1)) (day_number (2024, 3, 1))))
       [pull_feb29; pull_mar01]
     = [pull_mar01].
Proof. repeat split; vm_compute; reflexivity. Qed.

Lemma formatObjectByKey_octocat :
  exists out : gmap string JVal,
    formatObjectByKey (host := host_utc) (JObj octocat_record) keysToKeep
    = Return (JObj out)
    /\ dom out = dom octocat_record ∩ list_to_set keysToKeep
    /\ out !! "user" = Some (JStr "octocat")
    /\ out !! "created_at" = Some (JStr "2011-01-26")
    /\ out !! "body" = None.
Proof.
  destruct (formatObjectByKey_spec (host := host_utc) octocat_record)
    as (out & Hout & Hdom & Huser & Hcreated & Hplain).
  - intros user Hu. vm_compute in Hu. injection Hu as <-. vm_compute. eauto.
  - intros created_at Hc. vm_compute in Hc. injection Hc as <-.
    exists 1296068472000. split; [vm_compute; reflexivity|].
    vm_compute. split; discriminate.
  - exists out. split; [exact Hout|]. split; [exact Hdom|].
    split; [|split].
    + destruct (Huser _ eq_refl) as (login & Hl & Ho).
      vm_compute in Hl. injection Hl as <-. exact Ho.
    + destruct (Hcreated _ eq_refl) as (t & Ht & Ho & _).
      vm_compute in Ht. injection Ht as <-. exact Ho.
    + apply not_elem_of_dom. rewrite Hdom.
      intros H. apply elem_of_intersection in H as [_ H].
      apply elem_of_list_to_set, includes_elem_of in H. discriminate H.
Defined.

Lemma getPullRequests_both_missing :
  getPullRequests (host := host_utc) (remote := remote_nothing) 1
    (JStr "nobody") (JStr "nothing") (JStr "2011-01-01") (JStr "2011-12-31") []
  = Some (Throw (Error "repository owner nobody not found"),
          [head_request (host := host_utc) (owner_url (JStr "nobody"));
           head_request (host := host_utc)
             (repo_url (JStr "nothing") (JStr "nobody"));
           get_request (host := host_utc)
             (pulls_url (JStr "nothing") (JStr "nobody"))]).
Proof.
  destruct (getPullRequests_first_failure (host := host_utc)
              (remote := remote_nothing) 1
              (JStr "nobody") (JStr "nothing")
              (JStr "2011-01-01") (JStr "2011-12-31") []
              (Throw (Error "repository owner nobody not found"))
              (Throw (Error "repository nothing for owner nobody not found"))
              [head_request (host := host_utc) (owner_url (JStr "nobody"))]
              [head_request (host := host_utc) (owner_url (JStr "nobody"));
               head_request (host := host_utc)
                 (repo_url (JStr "nothing") (JStr "nobody"))])
    as [_ Hsettled].
  - vm_compute. reflexivity.
  - vm_compute. reflexivity.
  - vm_compute. reflexivity.
  - destruct (Hsettled (Throw not_found)
                [head_request (host := host_utc) (owner_url (JStr "nobody"));
                 head_request (host := host_utc)
                   (repo_url (JStr "nothing") (JStr "nobody"));
                 get_request (host := host_utc)
                   (pulls_url (JStr "nothing") (JStr "nobody"))])
      as [_ (c & Hc & _ & Hboth)].
    + vm_compute. reflexivity.
    + rewrite Hc. f_equal. f_equal.
      apply (Hboth _ _ eq_refl eq_refl); reflexivity.
Defined.

Lemma getAllPullRequests_two_pages :
  getAllPullRequests (host := host_utc) (remote := remote_two_pages) 2
    (JStr "Hello-World") (JStr "octocat") []
  = Some (Return [JNum 1; JNum 2; JNum 3],
          [get_request (host := host_utc)
             (pulls_url (JStr "Hello-World") (JStr "octocat"));
           get_request (host := host_utc) page_two_url]).
Proof.
  destruct (getAllPullRequests_spec (host := host_utc)
              (remote := remote_two_pages)
              (JStr "Hello-World") (JStr "octocat") []) as [Hreturns _].
  apply (Hreturns
           [mkResponse 200
              {["link" := "<" +:+ page_two_url +:+ ">; rel="
                          +:+ String dquote "next" +:+ String dquote ""]}
              (JArr [JNum 1; JNum 2])]
           page_two_url
           [get_request (host := host_utc)
              (pulls_url (JStr "Hello-World") (JStr "octocat"))]
           (mkResponse 200 ∅ (JArr [JNum 3]))
           [get_request (host := host_utc)
              (pulls_url (JStr "Hello-World") (JStr "octocat"));
            get_request (host := host_utc) page_two_url]
           0%nat).
  - eapply Fetched_more; [vm_compute; reflexivity | vm_compute; reflexivity |].
    apply Fetched_none.
  - vm_compute. reflexivity.
  - vm_compute. reflexivity.
Defined.

(** Every fetch succeeds and the one page has a
    link header that names no next page, yet the call fails: the header
    has a segment without a semicolon and the parser throws. *)
Lemma getAllPullRequests_bare_link :
  (forall h request,
      exists response,
        axios (Remote := remote_one_page (JArr [JNum 1]) (Some bare_link))
              h request = fulfilled response)
  /\ getAllPullRequests (host := host_utc)
       (remote := remote_one_page (JArr [JNum 1]) (Some bare_link)) 2
       (JStr "Hello-World") (JStr "octocat") []
     = Some (Throw replace_error,
             [get_request (host := host_utc)
                (pulls_url (JStr "Hello-World") (JStr "octocat"))]).
Proof.
  split.
  - intros h [[] u cfg]; eexists; reflexivity.
  - vm_compute. reflexivity.
Qed.

(** A header whose one segment has no semicolon
    makes the parser throw; it returns no mapping. *)
Lemma parseLinkHeader_bare_link :
  parseLinkHeader bare_link = Throw replace_error.
Proof. vm_compute. reflexivity. Qed.

Lemma parseLinkHeader_without_rel :
  parseLinkHeader "<https://api.github.com/repositories/1296269/pulls?page=2>; next"
  = Return {["next" := "https://api.github.com/repositories/1296269/pulls?page=2"]}.
Proof.
  destruct (parseLinkHeader_spec (host := host_utc) (remote := remote_nothing)
              "<https://api.github.com/repositories/1296269/pulls?page=2>; next")
    as (_ & _ & Hsegment & _).
  apply (Hsegment "<https://api.github.com/repositories/1296269/pulls?page=2>"
                  " next"); vm_compute; reflexivity.
Defined.

(** With an empty owner and valid dates the
    call fails with the error of the owner's validation, and by then the
    repository probe and the first page have been requested. *)
Lemma getPullRequests_empty_owner :
  getPullRequests (host := host_utc) (remote := remote_one_page (JArr []) None) 1
    (JStr "") (JStr "Hello-World") (JStr "2011-01-01") (JStr "2011-12-31") []
  = Some (Throw (Error "Expected a non-empty string but recieved an empty string"),
          [head_request (host := host_utc)
             "https://api.github.com/repos//Hello-World";
           get_request (host := host_utc)
             "https://api.github.com/repos//Hello-World/pulls"]).
Proof. vm_compute. reflexivity. Qed.

Lemma getPullRequests_invalid_date :
  getPullRequests (host := host_utc) (remote := remote_one_page (JArr []) None) 1
    (JStr "octocat") (JStr "Hello-World") (JStr "2024-02-30") (JStr "2024-03-01") []
  = Some (Throw (Error "Invalid start date: 2024-02-30"), []).
Proof.
  destruct (validation_and_requests (host := host_utc)
              (remote := remote_one_page (JArr []) None) 1
              (JStr "octocat") (JStr "Hello-World")
              (JStr "2024-02-30") (JStr "2024-03-01") []) as [Hdates _].
  apply Hdates. vm_compute. reflexivity.
Defined.

(** The repository check does not validate the
    owner: with an empty owner it issues its request and returns [true]. *)
Lemma verifyRepoExists_empty_owner :
  validateStringNotEmpty (JStr "")
  = Throw (Error "Expected a non-empty string but recieved an empty string")
  /\ verifyRepoExists (host := host_utc)
       (remote := remote_one_page (JArr []) None) (JStr "Hello-World") (JStr "") []
     = (Return true,
        [head_request (host := host_utc)
           "https://api.github.com/repos//Hello-World"]).
Proof. split; vm_compute; reflexivity. Qed.

Lemma verifyOwnerExists_missing :
  verifyOwnerExists (host := host_utc) (remote := remote_nothing) (JStr "nobody") []
  = (Throw (Error "repository owner nobody not found"),
     [head_request (host := host_utc) (owner_url (JStr "nobody"))]).
Proof.
  destruct (existence_checks_spec (host := host_utc) (remote := remote_nothing)
              (JStr "nobody") (JStr "nothing") [])
    as (_ & Howner & _ & _ & _ & Hmissing & _).
  destruct Howner as (missing & Hkind & Hcheck); [vm_compute; reflexivity|].
  rewrite Hcheck. f_equal.
  change (axios [] (head_request (owner_url (JStr "nobody"))))
    with (rejected (A := Response) not_found).
  unfold not_found. rewrite Hmissing by reflexivity.
  rewrite Hkind. reflexivity.
Defined.

Lemma filter_total_sample :
  filterPullRequestsByDateRange (host := host_utc)
    [pull_feb29; sample_pull 3 JNull JNull JNull JNull;
     sample_pull 4 (JStr "yesterday") JNull JNull JNull; pull_mar01]
    (JStr "2024-03-01") (JStr "2024-03-31")
  = Return [pull_mar01].
Proof.
  destruct (filter_total (host := host_utc)
              [pull_feb29; sample_pull 3 JNull JNull JNull JNull;
               sample_pull 4 (JStr "yesterday") JNull JNull JNull; pull_mar01]
              (JStr "2024-03-01") (JStr "2024-03-31")) as [Hfilter _].
  - repeat constructor; eexists; reflexivity.
  - rewrite Hfilter. vm_compute. reflexivity.
Defined.

Lemma getPullRequests_ghost :
  getPullRequests (host := host_utc)
    (remote := remote_one_page (JArr [JObj ghost_record]) None) 1
    (JStr "octocat") (JStr "Hello-World") (JStr "2011-01-01") (JStr "2011-12-31") []
  = Some (Throw null_login_error,
          [head_request (host := host_utc) (owner_url (JStr "octocat"));
           head_request (host := host_utc)
             (repo_url (JStr "Hello-World") (JStr "octocat"));
           get_request (host := host_utc)
             (pulls_url (JStr "Hello-World") (JStr "octocat"))]).
Proof.
  apply (null_user_throws (host := host_utc)
           (remote := remote_one_page (JArr [JObj ghost_record]) None) 1
           (JStr "octocat") (JStr "Hello-World")
           (JStr "2011-01-01") (JStr "2011-12-31") []
           [head_request (host := host_utc) (owner_url (JStr "octocat"))]
           [head_request (host := host_utc) (owner_url (JStr "octocat"));
            head_request (host := host_utc)
              (repo_url (JStr "Hello-World") (JStr "octocat"))]
           [head_request (host := host_utc) (owner_url (JStr "octocat"));
            head_request (host := host_utc)
              (repo_url (JStr "Hello-World") (JStr "octocat"));
            get_request (host := host_utc)
              (pulls_url (JStr "Hello-World") (JStr "octocat"))]
           true true [JObj ghost_record] [JObj ghost_record] ghost_record).
  - vm_compute. reflexivity.
  - vm_compute. reflexivity.
  - vm_compute. reflexivity.
  - vm_compute. reflexivity.
  - vm_compute. reflexivity.
  - apply list_elem_of_here.
  - vm_compute. reflexivity.
Defined.

(** * Further properties *)

(** ** The local day of a date *)

(** The day number of the fields of a time value is its day. *)
Lemma day_of_fields t :
  MakeDay (YearFromTime t) (MonthFromTime t) (DateFromTime t) = Day t.
Proof.
  pose proof (time_fields_valid t) as Hv. apply valid_ymd_inv in Hv as [Hm _].
  pose proof (MakeDay_valid (YearFromTime t) (MonthFromTime t + 1)
                (DateFromTime t) Hm) as Hmk.
  replace (MonthFromTime t + 1 - 1) with (MonthFromTime t) in Hmk by lia.
  rewrite Hmk. unfold DateFromTime, InLeapYear, DayWithinYear. lia.
Qed.

Lemma calendar_date_string y m d :
  0 <= y <= 9999 -> valid_ymd y m d = true ->
  calendar_date (date_string y m d) = Some (y, m, d).
Proof.
  intros Hy Hv. pose proof (valid_ymd_inv _ _ _ Hv) as [Hm Hd].
  pose proof (DaysInMonth_bound y m).
  unfold calendar_date. rewrite date_regex_string, date_fields_string by lia.
  cbn [mbind option_bind]. rewrite Hv. reflexivity.
Qed.

Lemma year_of_day_bounds d lo hi :
  DayFromYear lo <= d < DayFromYear (hi + 1) -> lo <= YearFromDay d <= hi.
Proof.
  intros Hd. pose proof (YearFromDay_spec d) as Hs. split.
  - destruct (Z.lt_ge_cases (YearFromDay d) lo) as [Hlt|]; [|lia].
    pose proof (DayFromYear_lt _ _ Hlt). lia.
  - destruct (Z.lt_ge_cases hi (YearFromDay d)) as [Hlt|]; [|lia].
    pose proof (DayFromYear_lt _ _ Hlt). lia.
Qed.

Section LocalDays.
Context {host : Host}.


(** The text that [formatDate] gives for a date of the calendar, by the
    local day of its UTC midnight. *)
Lemma formatDate_calendar_date s y m d :
  calendar_date s = Some (y, m, d) ->
  1000 <= YearFromTime (LocalTime (MakeDate (MakeDay y (m - 1) d) 0)) <= 9999 ->
  formatDate (JStr s)
  = local_date_string (MakeDate (MakeDay y (m - 1) d) 0).
Proof.
  intros Hc Hy. apply formatDate_timestamp; [|exact Hy].
  exact (Date_new_calendar_date s y m d Hc).
Qed.

(** At UTC and east of it the local day of the UTC midnight of a date
    is that date. *)
Lemma formatDate_east s y m d :
  calendar_date s = Some (y, m, d) ->
  1000 <= y ->
  0 <= LocalTZA < msPerDay ->
  formatDate (JStr s) = date_string y m d.
Proof.
  intros Hc Hy Hz.
  pose proof (calendar_date_inv s y m d Hc) as (Hy9 & Hv & Hs).
  destruct (fields_of_time y m d LocalTZA Hv Hz) as (HY & HM & HD).
  cbv zeta in HY, HM, HD.
  assert (LocalTime (MakeDate (MakeDay y (m - 1) d) 0)
          = MakeDate (MakeDay y (m - 1) d) LocalTZA) as Hlt
      by (unfold LocalTime, MakeDate; lia).
  rewrite (formatDate_calendar_date s y m d Hc) by (rewrite Hlt, HY; lia).
  unfold local_date_string. rewrite Hlt, HY, HM, HD.
  replace (m - 1 + 1) with m by lia. reflexivity.
Qed.

(** X2.  At UTC and east of it (less than a day), [formatDate] gives a
    date of the calendar of a year of four digits back as it is. *)
Theorem formatDate_round_trip (s : string) (y m d : Z) :
  calendar_date s = Some (y, m, d) ->
  1000 <= y ->
  0 <= LocalTZA < msPerDay ->
  formatDate (JStr s) = s.
Proof.
  intros Hc Hy Hz. rewrite (formatDate_east s y m d Hc Hy Hz).
  apply calendar_date_inv in Hc as (_ & _ & ->). reflexivity.
Qed.

(** X3.  West of UTC (less than a day), [formatDate] gives for a date of
    the calendar the text of the day before it. *)
Theorem formatDate_west (s : string) (y m d : Z) :
  calendar_date s = Some (y, m, d) ->
  1001 <= y ->
  - msPerDay <= LocalTZA < 0 ->
  exists before,
    calendar_date (formatDate (JStr s)) = Some before
    /\ day_number before = day_number (y, m, d) - 1.
Proof.
  intros Hc Hy Hz.
  pose proof (calendar_date_inv s y m d Hc) as (Hy9 & Hv & Hs).
  pose proof (MakeDay_within_year y m d Hv) as Hin.
  set (t := LocalTime (MakeDate (MakeDay y (m - 1) d) 0)).
  assert (Day t = MakeDay y (m - 1) d - 1) as Hday
      by (unfold t, Day, LocalTime, MakeDate, msPerDay in *; zdiv).
  assert (y - 1 <= YearFromTime t <= y) as Hyear.
  { unfold YearFromTime. rewrite Hday. apply year_of_day_bounds.
    pose proof (DayFromYear_succ (y - 1)) as Hs1.
    replace (y - 1 + 1) with y in Hs1 by lia.
    destruct (leap_cases (y - 1)) as [[_ ?] | [_ ?]]; lia. }
  rewrite (formatDate_calendar_date s y m d Hc) by (fold t; lia).
  unfold local_date_string. fold t.
  exists (YearFromTime t, MonthFromTime t + 1, DateFromTime t).
  split.
  - apply calendar_date_string; [lia | apply time_fields_valid].
  - unfold day_number. replace (MonthFromTime t + 1 - 1) with (MonthFromTime t) by lia.
    rewrite day_of_fields. exact Hday.
Qed.

(** X4.  For a value that [Date] cannot read, [formatDate] does not
    throw: it gives the text NaN-NaN-NaN, which is no date. *)
Theorem formatDate_unreadable (v : JVal) :
  Date_new v = None ->
  formatDate v = "NaN-NaN-NaN" /\ calendar_date (formatDate v) = None.
Proof.
  intros Hv. assert (formatDate v = "NaN-NaN-NaN") as ->; [|split; reflexivity].
  unfold formatDate. cbv zeta. rewrite Hv. reflexivity.
Qed.

End LocalDays.

(** ** Years of fewer than four digits, and timestamps *)

Lemma parse_iso_date_prefix y m d rest :
  0 <= y <= 9999 -> 0 <= m <= 99 -> 0 <= d <= 99 ->
  parse_iso (date_string y m d +:+ rest) =
    if valid_ymd y m d then
      if is_empty rest then Some (MakeDate (MakeDay y (m - 1) d) 0)
      else parse_iso_time (MakeDay y (m - 1) d) rest
    else None.
Proof.
  intros Hy Hm Hd. unfold parse_iso, date_string. rewrite !append_assoc.
  rewrite take_digits4 by lia. cbn [mbind option_bind].
  rewrite expect_app. cbn [mbind option_bind].
  rewrite take_digits2 by lia. cbn [mbind option_bind].
  rewrite expect_app. cbn [mbind option_bind].
  rewrite take_digits2 by lia. cbn [mbind option_bind].
  reflexivity.
Qed.

Lemma parse_iso_time_string day hh mi ss :
  0 <= hh <= 23 -> 0 <= mi <= 59 -> 0 <= ss <= 59 ->
  parse_iso_time day
    ("T" +:+ digit_string2 hh +:+ ":" +:+ digit_string2 mi +:+ ":"
     +:+ digit_string2 ss +:+ "Z")
  = Some (MakeDate day (MakeTime hh mi ss 0)).
Proof.
  intros Hh Hm Hs. unfold parse_iso_time.
  rewrite expect_app. cbn [mbind option_bind].
  rewrite take_digits2 by lia. cbn [mbind option_bind].
  rewrite expect_app. cbn [mbind option_bind].
  rewrite take_digits2 by lia. cbn [mbind option_bind].
  rewrite expect_app. cbn [mbind option_bind].
  rewrite take_digits2 by lia. cbn [mbind option_bind].
  cbn [expect Ascii.eqb Bool.eqb mbind option_bind is_empty andb].
  replace (hh <=? 23) with true by lia. replace (mi <=? 59) with true by lia.
  replace (ss <=? 59) with true by lia. reflexivity.
Qed.

Lemma MakeTime_range hh mi ss :
  0 <= hh <= 23 -> 0 <= mi <= 59 -> 0 <= ss <= 59 ->
  0 <= MakeTime hh mi ss 0 < msPerDay.
Proof.
  unfold MakeTime, msPerHour, msPerMinute, msPerSecond, msPerDay. lia.
Qed.

Section Timestamps.
Context {host : Host}.

(** The time value of a timestamp of the remote API. *)
Lemma Date_new_timestamp y m d hh mi ss :
  0 <= y <= 9999 -> valid_ymd y m d = true ->
  0 <= hh <= 23 -> 0 <= mi <= 59 -> 0 <= ss <= 59 ->
  Date_new (JStr (timestamp_string y m d hh mi ss))
  = Some (MakeDate (MakeDay y (m - 1) d) (MakeTime hh mi ss 0)).
Proof.
  intros Hy Hv Hh Hm Hs. pose proof (valid_ymd_inv _ _ _ Hv) as [Hmo Hd].
  pose proof (DaysInMonth_bound y m).
  unfold Date_new, Date_parse, timestamp_string.
  rewrite parse_iso_date_prefix by lia. rewrite Hv.
  change (is_empty ("T" +:+ ?r)) with false. cbv iota.
  rewrite parse_iso_time_string by assumption.
  apply TimeClip_in_range.
  pose proof (MakeDate_four_digit_year y m d (MakeTime hh mi ss 0) Hy Hv
                (MakeTime_range hh mi ss Hh Hm Hs)). lia.
Qed.

(** The text of [formatDate] for any time value: the year as it is, the
    month and the day on two digits. *)
Lemma formatDate_fields v t :
  Date_new v = Some t ->
  0 <= YearFromTime (LocalTime t) ->
  formatDate v
  = digits (YearFromTime (LocalTime t))
    +:+ "-" +:+ digit_string2 (MonthFromTime (LocalTime t) + 1)
    +:+ "-" +:+ digit_string2 (DateFromTime (LocalTime t)).
Proof.
  intros Ht Hy. unfold formatDate. cbv zeta. rewrite Ht.
  cbn [getFullYear getMonth getDate mbind option_bind fmap option_fmap option_map
       String_of_number].
  pose proof (time_fields_valid (LocalTime t)) as Hv.
  apply valid_ymd_inv in Hv as [Hm Hd].
  pose proof (DaysInMonth_bound (YearFromTime (LocalTime t))
                (MonthFromTime (LocalTime t) + 1)) as Hdim.
  assert (forall x, 0 <= x -> Number_toString x = digits x) as Hnum.
  { intros x Hx. unfold Number_toString. destruct (Z.ltb_spec x 0); [lia | reflexivity]. }
  rewrite !Hnum by lia.
  fold (pad 2 (MonthFromTime (LocalTime t) + 1)).
  fold (pad 2 (DateFromTime (LocalTime t))).
  rewrite !pad2_digits by lia. reflexivity.
Qed.

(** X5.  The year is not padded: at UTC and east of it, a date of the
    calendar of a year before 1000 comes out of [formatDate] without the
    leading zeros of its year, a text that is no longer a date of the
    shape the validation asks for. *)
Theorem formatDate_short_year (s : string) (y m d : Z) :
  calendar_date s = Some (y, m, d) ->
  y < 1000 ->
  0 <= LocalTZA < msPerDay ->
  formatDate (JStr s)
  = digits y +:+ "-" +:+ digit_string2 m +:+ "-" +:+ digit_string2 d
  /\ date_regex (formatDate (JStr s)) = false
  /\ formatDate (JStr s) <> s.
Proof.
  intros Hc Hy Hz.
  pose proof (calendar_date_inv s y m d Hc) as (Hy9 & Hv & Hs).
  destruct (fields_of_time y m d LocalTZA Hv Hz) as (HY & HM & HD).
  cbv zeta in HY, HM, HD.
  assert (LocalTime (MakeDate (MakeDay y (m - 1) d) 0)
          = MakeDate (MakeDay y (m - 1) d) LocalTZA) as Hlt
      by (unfold LocalTime, MakeDate; lia).
  assert (formatDate (JStr s)
          = digits y +:+ "-" +:+ digit_string2 m +:+ "-" +:+ digit_string2 d) as Hf.
  { rewrite (formatDate_fields _ _ (Date_new_calendar_date s y m d Hc))
      by (unfold day_number; rewrite Hlt, HY; lia).
    unfold day_number. rewrite Hlt, HY, HM, HD.
    replace (m - 1 + 1) with m by lia. reflexivity. }
  assert (date_regex (formatDate (JStr s)) = false) as Hre.
  { rewrite Hf. unfold digit_string2.
    destruct (Z.lt_ge_cases y 10); [|destruct (Z.lt_ge_cases y 100)].
    - rewrite digits_1 by lia. reflexivity.
    - rewrite digits_2 by lia. reflexivity.
    - rewrite digits_3 by lia. reflexivity. }
  split; [exact Hf|]. split; [exact Hre|].
  intros Heq. rewrite Heq in Hre. rewrite Hs in Hre.
  pose proof (valid_ymd_inv _ _ _ Hv) as [Hmo Hd].
  pose proof (DaysInMonth_bound y m).
  rewrite date_regex_string in Hre by lia. discriminate.
Qed.

(** X6.  For a timestamp of the remote API, of a year of four digits,
    whose time of day stays in the same day on the local clock,
    [formatDate] gives the date part of the timestamp; on a host on UTC
    that is every such timestamp. *)
Theorem formatDate_timestamp_date (y m d hh mi ss : Z) :
  1000 <= y <= 9999 -> valid_ymd y m d = true ->
  0 <= hh <= 23 -> 0 <= mi <= 59 -> 0 <= ss <= 59 ->
  0 <= MakeTime hh mi ss 0 + LocalTZA < msPerDay ->
  formatDate (JStr (timestamp_string y m d hh mi ss)) = date_string y m d.
Proof.
  intros Hy Hv Hh Hm Hs Hz.
  pose proof (Date_new_timestamp y m d hh mi ss ltac:(lia) Hv Hh Hm Hs) as Ht.
  destruct (fields_of_time y m d (MakeTime hh mi ss 0 + LocalTZA) Hv Hz)
    as (HY & HM & HD).
  cbv zeta in HY, HM, HD.
  assert (LocalTime (MakeDate (MakeDay y (m - 1) d) (MakeTime hh mi ss 0))
          = MakeDate (MakeDay y (m - 1) d) (MakeTime hh mi ss 0 + LocalTZA)) as Hlt
      by (unfold LocalTime, MakeDate; lia).
  rewrite (formatDate_timestamp _ _ Ht) by (rewrite Hlt, HY; lia).
  unfold local_date_string. rewrite Hlt, HY, HM, HD.
  replace (m - 1 + 1) with m by lia. reflexivity.
Qed.

End Timestamps.

(** ** More on the date-range filter *)

Section FilterMore.
Context {host : Host}.

Lemma in_range_any_record start end_ pull :
  in_range_any start end_ pull = true -> is_record pull.
Proof.
  destruct pull; try discriminate. intros _. eexists. reflexivity.
Qed.

(** The callback of the filter on anything but [null] and [undefined]. *)
Lemma filter_callback_value start end_ pull :
  not_nullish pull ->
  (created_at ← Get pull "created_at";
   if isDateInRange start end_ created_at then Return true else
   updated_at ← Get pull "updated_at";
   if isDateInRange start end_ updated_at then Return true else
   merged_at ← Get pull "merged_at";
   if isDateInRange start end_ merged_at then Return true else
   closed_at ← Get pull "closed_at";
   Return (isDateInRange start end_ closed_at))
  = Return (in_range_any start end_ pull).
Proof.
  intros [Hnull Hundef].
  destruct pull; try contradiction; try reflexivity.
  apply filter_callback_record.
Qed.

Lemma filter_callback_nullish start end_ pull :
  ~ not_nullish pull ->
  exists message,
    (created_at ← Get pull "created_at";
     if isDateInRange start end_ created_at then Return true else
     updated_at ← Get pull "updated_at";
     if isDateInRange start end_ updated_at then Return true else
     merged_at ← Get pull "merged_at";
     if isDateInRange start end_ merged_at then Return true else
     closed_at ← Get pull "closed_at";
     Return (isDateInRange start end_ closed_at))
    = Throw (TypeError message).
Proof.
  intros Hn. destruct pull; try (exfalso; apply Hn; split; discriminate);
    eexists; reflexivity.
Qed.

Lemma not_nullish_dec v : {not_nullish v} + {~ not_nullish v}.
Proof.
  destruct v; try (left; split; discriminate); right; intros [? ?]; contradiction.
Qed.

Lemma filter_values pulls startDate endDate :
  Forall not_nullish pulls ->
  filterPullRequestsByDateRange pulls startDate endDate
  = Return (List.filter (in_range_any (parseDate startDate false)
                                      (parseDate endDate true)) pulls).
Proof.
  unfold filterPullRequestsByDateRange. cbv zeta.
  induction 1 as [|pull pulls Hp _ IH]; [reflexivity|].
  cbn [Array_filter List.filter].
  rewrite (filter_callback_value _ _ pull Hp). cbn [mbind Completion_bind].
  rewrite IH. cbn [mbind Completion_bind]. reflexivity.
Qed.

Lemma filter_nullish pulls startDate endDate :
  ~ Forall not_nullish pulls ->
  exists message,
    filterPullRequestsByDateRange pulls startDate endDate
    = Throw (TypeError message).
Proof.
  unfold filterPullRequestsByDateRange. cbv zeta.
  induction pulls as [|pull pulls IH]; intros Hn.
  - exfalso. apply Hn. constructor.
  - cbn [Array_filter]. destruct (not_nullish_dec pull) as [Hp | Hp].
    + rewrite (filter_callback_value _ _ pull Hp). cbn [mbind Completion_bind].
      destruct IH as [message ->].
      { intros Hall. apply Hn. constructor; assumption. }
      exists message. reflexivity.
    + destruct (filter_callback_nullish (parseDate startDate false)
                  (parseDate endDate true) pull Hp) as [message ->].
      exists message. reflexivity.
Qed.

(** A filter that returned had nothing [null] or [undefined] to read. *)
Lemma filter_returned pulls startDate endDate kept :
  filterPullRequestsByDateRange pulls startDate endDate = Return kept ->
  Forall not_nullish pulls
  /\ kept = List.filter (in_range_any (parseDate startDate false)
                                      (parseDate endDate true)) pulls.
Proof.
  intros Hk.
  assert (Forall not_nullish pulls) as Hall.
  { destruct (List.Forall_dec not_nullish not_nullish_dec pulls)
      as [Hall | Hn]; [exact Hall|].
    destruct (filter_nullish pulls startDate endDate Hn) as [message Hm].
    rewrite Hm in Hk. discriminate. }
  split; [exact Hall|].
  rewrite (filter_values pulls startDate endDate Hall) in Hk.
  injection Hk as <-. reflexivity.
Qed.

(** X7.  The filter returns exactly when no element of the list is
    [null] or [undefined]; such an element makes it throw a TypeError.
    When it returns, it returns the elements, in their order, of which
    the callback finds a timestamp in range, and those are objects:
    numbers, texts, booleans and arrays in the list are dropped. *)
Theorem filter_returns_iff (pulls : list JVal) (startDate endDate : JVal) :
  ((exists kept, filterPullRequestsByDateRange pulls startDate endDate
                 = Return kept)
   <-> Forall not_nullish pulls)
  /\ (~ Forall not_nullish pulls ->
      exists message,
        filterPullRequestsByDateRange pulls startDate endDate
        = Throw (TypeError message))
  /\ (forall kept,
        filterPullRequestsByDateRange pulls startDate endDate = Return kept ->
        kept = List.filter (in_range_any (parseDate startDate false)
                                         (parseDate endDate true)) pulls
        /\ Forall is_record kept).
Proof.
  split; [split|split].
  - intros [kept Hk]. exact (proj1 (filter_returned _ _ _ _ Hk)).
  - intros Hall. eexists. apply filter_values. exact Hall.
  - apply filter_nullish.
  - intros kept Hk. split.
    + exact (proj2 (filter_returned _ _ _ _ Hk)).
    + eapply filter_survivors. exact Hk.
Qed.

Lemma filter_all l (p : JVal -> bool) :
  (forall x, In x l -> p x = true) -> List.filter p l = l.
Proof.
  induction l as [|x l IH]; intros Hp; [reflexivity|].
  cbn [List.filter]. rewrite (Hp x) by (left; reflexivity).
  rewrite IH by (intros y Hy; apply Hp; right; exact Hy). reflexivity.
Qed.


Lemma Array_filter_app f l1 l2 :
  Array_filter f (l1 ++ l2)
  = (k1 ← Array_filter f l1; k2 ← Array_filter f l2; Return (k1 ++ k2)).
Proof.
  induction l1 as [|x l1 IH].
  - cbn [app Array_filter mbind Completion_bind].
    destruct (Array_filter f l2); reflexivity.
  - cbn [app Array_filter]. rewrite IH.
    destruct (f x) as [keep|e]; cbn [mbind Completion_bind]; [|reflexivity].
    destruct (Array_filter f l1) as [k1|e]; cbn [mbind Completion_bind]; [|reflexivity].
    destruct (Array_filter f l2) as [k2|e]; cbn [mbind Completion_bind]; [|reflexivity].
    destruct keep; reflexivity.
Qed.

(** X8.  Filtering pages one by one and joining the results is filtering
    the joined pages, failures included (the first failure wins); and
    filtering what the filter returned changes nothing. *)
Theorem filter_compose (pulls more : list JVal) (startDate endDate : JVal) :
  filterPullRequestsByDateRange (pulls ++ more) startDate endDate
  = (kept ← filterPullRequestsByDateRange pulls startDate endDate;
     kept' ← filterPullRequestsByDateRange more startDate endDate;
     Return (kept ++ kept'))
  /\ (forall kept,
        filterPullRequestsByDateRange pulls startDate endDate = Return kept ->
        filterPullRequestsByDateRange kept startDate endDate = Return kept).
Proof.
  split.
  - unfold filterPullRequestsByDateRange. cbv zeta. apply Array_filter_app.
  - intros kept Hk.
    destruct (filter_returned _ _ _ _ Hk) as [_ Heq].
    pose proof (filter_survivors _ _ _ _ Hk) as Hrec.
    rewrite filter_records by exact Hrec. f_equal.
    apply filter_all. intros x Hx. rewrite Heq in Hx.
    apply filter_In in Hx as [_ Hx]. exact Hx.
Qed.

End FilterMore.

(** ** The filter and the range of dates *)

Section WindowMore.
Context {host : Host}.

Lemma isDateInRange_widen a b a' b' v :
  a' <= a -> b <= b' ->
  isDateInRange (Some a) (Some b) v = true ->
  isDateInRange (Some a') (Some b') v = true.
Proof.
  intros Ha Hb. unfold isDateInRange.
  destruct (negb (truthy v)); [discriminate|].
  destruct (Date_new v) as [t|]; [|discriminate].
  cbn [Date_ge Date_le]. lia.
Qed.



Lemma in_range_any_widen a b a' b' pull :
  a' <= a -> b <= b' ->
  in_range_any (Some a) (Some b) pull = true ->
  in_range_any (Some a') (Some b') pull = true.
Proof.
  intros Ha Hb. unfold in_range_any. rewrite !existsb_exists.
  intros (key & Hkey & Hr). exists key. split; [exact Hkey|].
  eapply isDateInRange_widen; eassumption.
Qed.


Lemma filter_narrow (p q : JVal -> bool) l :
  (forall x, p x = true -> q x = true) ->
  List.filter p (List.filter q l) = List.filter p l.
Proof.
  intros Hpq. induction l as [|x l IH]; [reflexivity|].
  cbn [List.filter]. destruct (q x) eqn:Hq.
  - cbn [List.filter]. rewrite IH. reflexivity.
  - destruct (p x) eqn:Hp; [rewrite (Hpq x Hp) in Hq; discriminate | exact IH].
Qed.



(** X11.  A wider range keeps more: when the start moves back and the
    end moves on, every record kept before is still kept, and filtering
    the wider result by the narrower range gives the narrower result. *)
Theorem filter_widening (pulls : list JVal)
    (startDate endDate startDate' endDate' : string) (s e s' e' : Z * Z * Z) :
  calendar_date startDate = Some s ->
  calendar_date endDate = Some e ->
  calendar_date startDate' = Some s' ->
  calendar_date endDate' = Some e' ->
  day_number s' <= day_number s ->
  day_number e <= day_number e' ->
  - msPerDay <= LocalTZA < msPerDay ->
  Forall not_nullish pulls ->
  exists kept kept',
    filterPullRequestsByDateRange pulls (JStr startDate) (JStr endDate)
    = Return kept
    /\ filterPullRequestsByDateRange pulls (JStr startDate') (JStr endDate')
       = Return kept'
    /\ (forall pull, In pull kept -> In pull kept')
    /\ filterPullRequestsByDateRange kept' (JStr startDate) (JStr endDate)
       = Return kept.
Proof.
  intros Hs He Hs' He' Hstart Hend Hz Hall.
  rewrite !filter_values by exact Hall.
  rewrite (parseDate_calendar_date _ _ false Hs Hz),
          (parseDate_calendar_date _ _ true He Hz),
          (parseDate_calendar_date _ _ false Hs' Hz),
          (parseDate_calendar_date _ _ true He' Hz).
  eexists _, _. split; [reflexivity|]. split; [reflexivity|].
  assert (forall pull,
             in_range_any
               (Some (MakeDate (day_number s + LocalTZA / msPerDay) 0 - LocalTZA))
               (Some (MakeDate (day_number e + LocalTZA / msPerDay) (msPerDay - 1)
                      - LocalTZA)) pull = true ->
             in_range_any
               (Some (MakeDate (day_number s' + LocalTZA / msPerDay) 0 - LocalTZA))
               (Some (MakeDate (day_number e' + LocalTZA / msPerDay) (msPerDay - 1)
                      - LocalTZA)) pull = true) as Hwide.
  { intros pull. apply in_range_any_widen; unfold MakeDate, msPerDay; lia. }
  split.
  - intros pull Hin. apply filter_In in Hin as [Hin Hr].
    apply filter_In. split; [exact Hin | apply Hwide; exact Hr].
  - rewrite filter_values.
    + rewrite (parseDate_calendar_date _ _ false Hs Hz),
              (parseDate_calendar_date _ _ true He Hz).
      f_equal. apply filter_narrow. exact Hwide.
    + apply Forall_forall. intros x Hx. rewrite Forall_forall in Hall.
      apply Hall. apply list_elem_of_In in Hx. apply list_elem_of_In.
      apply filter_In in Hx as [Hx _]. exact Hx.
Qed.


End WindowMore.

(** ** More on the projection *)

Section ProjectionMore.
Context {host : Host}.

(** The projection of a record that returned, key by key. *)
Lemma formatObjectByKey_returned keys (record : gmap string JVal) item :
  formatObjectByKey (JObj record) keys = Return item ->
  ~ (includes "user" keys = true /\ record !! "user" = Some JNull)
  /\ exists out,
       item = JObj out
       /\ forall key, out !! key = record !! key ≫= projected keys key.
Proof.
  intros Hret.
  assert (~ (includes "user" keys = true /\ record !! "user" = Some JNull)) as Hnot.
  { intros [Hinc Hnull].
    rewrite (formatObjectByKey_null_user keys record Hinc Hnull) in Hret.
    discriminate. }
  split; [exact Hnot|].
  destruct (formatObjectByKey_projected keys record Hnot) as (out & Hout & Hlook).
  exists out. split; [congruence | exact Hlook].
Qed.

Lemma projected_dom keys (record out : gmap string JVal) :
  (forall key, out !! key = record !! key ≫= projected keys key) ->
  dom out = dom record ∩ list_to_set keys.
Proof.
  intros Hlook. apply set_eq. intros key.
  rewrite elem_of_intersection, !elem_of_dom, elem_of_list_to_set, Hlook.
  rewrite <- includes_elem_of.
  destruct (record !! key) as [v|]; cbn [mbind option_bind].
  - rewrite projected_is_Some. split; [eauto | tauto].
  - split; [intros [? ?]; discriminate | intros [[? ?] _]; discriminate].
Qed.

(** X13.  For any list of keys to keep, the projection of a record
    throws exactly when [user] is to be kept and the record's [user] is
    [null], and then it is the TypeError of reading the login of
    [null].  Otherwise it returns an object whose keys are the kept keys
    the record has; under [user] it has the login of an author object
    ([undefined] when the object has none) and any other author as it
    is; under each of the four timestamp keys it has the text of
    [formatDate]; under any other key it has the record's value. *)
Theorem formatObjectByKey_any_keys (keys : list string) (record : gmap string JVal) :
  (forall e, formatObjectByKey (JObj record) keys = Throw e ->
             e = null_login_error)
  /\ (formatObjectByKey (JObj record) keys = Throw null_login_error
      <-> includes "user" keys = true /\ record !! "user" = Some JNull)
  /\ (forall item,
        formatObjectByKey (JObj record) keys = Return item ->
        exists out : gmap string JVal,
          item = JObj out
          /\ dom out = dom record ∩ list_to_set keys
          /\ (forall author : gmap string JVal,
                includes "user" keys = true ->
                record !! "user" = Some (JObj author) ->
                out !! "user" = Some (default JUndefined (author !! "login")))
          /\ (forall value,
                includes "user" keys = true ->
                record !! "user" = Some value ->
                typeof value <> "object" ->
                out !! "user" = Some value)
          /\ (forall key value,
                In key timestamp_keys -> includes key keys = true ->
                record !! key = Some value ->
                out !! key = Some (JStr (formatDate value)))
          /\ (forall key value,
                key <> "user" -> ~ In key timestamp_keys ->
                includes key keys = true ->
                record !! key = Some value ->
                out !! key = Some value)).
Proof.
  split; [intros e; apply formatObjectByKey_record_throws|]. split.
  - split.
    + intros Hthrow.
      destruct (includes "user" keys) eqn:Hinc;
        destruct (record !! "user") as [[| | | | | |]|] eqn:Hu;
        try (split; reflexivity);
        exfalso;
        (assert (~ (includes "user" keys = true /\ record !! "user" = Some JNull))
           as Hnot by (rewrite Hinc, Hu; intros [? ?]; discriminate));
        destruct (formatObjectByKey_projected keys record Hnot) as (out & Hout & _);
        rewrite Hout in Hthrow; discriminate.
    + intros [Hinc Hnull]. apply formatObjectByKey_null_user; assumption.
  - intros item Hret.
    destruct (formatObjectByKey_returned keys record item Hret)
      as (_ & out & -> & Hlook).
    exists out. split; [reflexivity|].
    split; [apply (projected_dom keys record out Hlook)|].
    split; [|split; [|split]].
    + intros author Hinc Hu. rewrite Hlook, Hu. cbn [mbind option_bind].
      unfold projected. rewrite Hinc. reflexivity.
    + intros value Hinc Hu Hty. rewrite Hlook, Hu. cbn [mbind option_bind].
      unfold projected. rewrite Hinc.
      destruct value; try reflexivity; exfalso; apply Hty; reflexivity.
    + intros key value Hkey Hinc Hv. rewrite Hlook, Hv. cbn [mbind option_bind].
      unfold projected. rewrite Hinc.
      cbn [In timestamp_keys] in Hkey.
      destruct Hkey as [<- | [<- | [<- | [<- | []]]]]; reflexivity.
    + intros key value Hne Hnt Hinc Hv. rewrite Hlook, Hv. cbn [mbind option_bind].
      unfold projected. rewrite Hinc.
      destruct (String.eqb_spec key "user") as [-> | _]; [contradiction|].
      cbn [andb].
      destruct (String.eqb_spec key "created_at") as [-> | _];
        [exfalso; apply Hnt; cbn; tauto|].
      destruct (String.eqb_spec key "updated_at") as [-> | _];
        [exfalso; apply Hnt; cbn; tauto|].
      destruct (String.eqb_spec key "closed_at") as [-> | _];
        [exfalso; apply Hnt; cbn; tauto|].
      destruct (String.eqb_spec key "merged_at") as [-> | _];
        [exfalso; apply Hnt; cbn; tauto|].
      reflexivity.
Qed.

(** X14.  At UTC and east of it (less than a day) the projection of a
    projected record is that record again: the login stays, and the
    date text is read and written back as it is. *)
Theorem formatObjectByKey_twice (record : gmap string JVal) (item : JVal) :
  (forall user, record !! "user" = Some user -> is_Some (author_login user)) ->
  (forall created_at, record !! "created_at" = Some created_at ->
                      is_timestamp created_at) ->
  0 <= LocalTZA < msPerDay ->
  formatObjectByKey (JObj record) keysToKeep = Return item ->
  formatObjectByKey item keysToKeep = Return item.
Proof.
  intros Huser Hcreated Hz Hret.
  destruct (formatObjectByKey_returned _ _ _ Hret) as (_ & out & -> & Hlook).
  assert (forall key, out !! key ≫= projected keysToKeep key = out !! key) as Hfix.
  { intros key. rewrite Hlook.
    destruct (record !! key) as [v|] eqn:Hv; [|reflexivity].
    cbn [mbind option_bind].
    destruct (includes key keysToKeep) eqn:Hinc.
    2: { unfold projected. rewrite Hinc. reflexivity. }
    apply includes_elem_of in Hinc. unfold keysToKeep in Hinc.
    repeat (apply elem_of_cons in Hinc as [-> | Hinc]);
      [| | | | | apply elem_of_nil in Hinc; contradiction].
    - reflexivity.
    - destruct (Huser _ Hv) as [login Hl].
      apply author_login_inv in Hl as (u & -> & Hl).
      unfold projected at 2. cbn. rewrite Hl. reflexivity.
    - reflexivity.
    - reflexivity.
    - destruct (Hcreated _ Hv) as (t & Ht & Hy).
      assert (projected keysToKeep "created_at" v
              = Some (JStr (local_date_string t))) as ->.
      { rewrite <- (formatDate_timestamp v t Ht Hy). reflexivity. }
      cbn [mbind option_bind].
      assert (formatDate (JStr (local_date_string t)) = local_date_string t) as Hrt.
      { apply (formatDate_east _ (YearFromTime (LocalTime t))
                 (MonthFromTime (LocalTime t) + 1) (DateFromTime (LocalTime t)));
          [|lia | exact Hz].
        apply calendar_date_string; [lia | apply time_fields_valid]. }
      unfold projected. cbn. rewrite Hrt. reflexivity. }
  destruct (formatObjectByKey_projected keysToKeep out) as (out' & Hout' & Hlook').
  { intros [_ Hnull]. rewrite Hlook in Hnull.
    destruct (record !! "user") as [u|] eqn:Hu; [|discriminate].
    destruct (Huser _ eq_refl) as [login Hl].
    apply author_login_inv in Hl as (a & -> & Hl).
    cbn in Hnull. rewrite Hl in Hnull. discriminate. }
  rewrite Hout'. do 2 f_equal. apply map_eq. intros key.
  rewrite Hlook', Hfix. reflexivity.
Qed.

End ProjectionMore.

(** ** More on the requests and the outcome of a call *)

Section Requests.
Context {host : Host} {remote : Remote}.

(** The requests of the loop are GET requests, the first to the URL it
    was started at. *)
Lemma loop_requests fuel : forall acc u h c hf,
  getAllPullRequests_loop fuel acc u h = Some (c, hf) ->
  exists urls, hf = h ++ (get_request <$> (u :: urls)).
Proof.
  induction fuel as [|fuel IH]; intros acc u h c hf; [discriminate|].
  rewrite loop_round, getPullsData_request.
  destruct (axios h (get_request u)) as [response|error].
  2: { intros [= <- <-]. exists []. reflexivity. }
  destruct (next_url response) as [[next|]|error].
  - intros Hloop. destruct (IH _ _ _ _ _ Hloop) as [urls ->].
    exists (next :: urls). rewrite <- app_assoc. reflexivity.
  - intros [= <- <-]. exists []. reflexivity.
  - intros [= <- <-]. exists []. reflexivity.
Qed.

Lemma verifyOwnerExists_requests owner h :
  (verifyOwnerExists owner h).2
  = h ++ probe_requests (validateStringNotEmpty owner) (owner_url owner).
Proof.
  destruct (validateStringNotEmpty owner) as [[]|e] eqn:Hv.
  - rewrite (verifyOwnerExists_valid owner h Hv). reflexivity.
  - rewrite (verifyOwnerExists_invalid owner e h Hv). cbn. rewrite app_nil_r.
    reflexivity.
Qed.

Lemma verifyRepoExists_requests repo owner h :
  (verifyRepoExists repo owner h).2
  = h ++ probe_requests (validateStringNotEmpty repo) (repo_url repo owner).
Proof.
  destruct (validateStringNotEmpty repo) as [[]|e] eqn:Hv.
  - rewrite (verifyRepoExists_valid repo owner h Hv). reflexivity.
  - rewrite (verifyRepoExists_invalid repo owner e h Hv). cbn. rewrite app_nil_r.
    reflexivity.
Qed.

Lemma mapM_Return_inv {A B} (f : A -> Completion B) (l : list A) (k : list B) :
  mapM f l = Return k -> Forall2 (fun x y => f x = Return y) l k.
Proof.
  revert k. induction l as [|x l IH]; intros k.
  - intros [= <-]. constructor.
  - cbn [mapM]. destruct (f x) as [y|e] eqn:Hx; cbn [mbind Completion_bind];
      [|discriminate].
    destruct (mapM f l) as [k'|e] eqn:Hl; cbn [mbind Completion_bind];
      [|discriminate].
    intros [= <-]. constructor; [exact Hx | apply IH; reflexivity].
Qed.

(** The requests of a call with a valid date range. *)
Lemma getPullRequests_history fuel owner repo startDate endDate h c hf :
  validateDateStrings startDate endDate = Return tt ->
  getPullRequests fuel owner repo startDate endDate h = Some (c, hf) ->
  exists urls,
    hf = h
         ++ probe_requests (validateStringNotEmpty owner) (owner_url owner)
         ++ probe_requests (validateStringNotEmpty repo) (repo_url repo owner)
         ++ (get_request <$> (pulls_url repo owner :: urls)).
Proof.
  intros Hv. unfold getPullRequests. rewrite Hv.
  pose proof (verifyOwnerExists_requests owner h) as E1.
  destruct (verifyOwnerExists owner h) as [c1 h1]. cbn [snd] in E1.
  pose proof (verifyRepoExists_requests repo owner h1) as E2.
  destruct (verifyRepoExists repo owner h1) as [c2 h2]. cbn [snd] in E2.
  destruct (getAllPullRequests fuel repo owner h2) as [[c3 h3]|] eqn:H3;
    [|discriminate].
  intros [= _ <-].
  unfold getAllPullRequests in H3. cbv zeta in H3. fold (pulls_url repo owner) in H3.
  destruct (loop_requests _ _ _ _ _ _ H3) as [urls ->].
  exists urls. subst h2 h1. rewrite <- !app_assoc. reflexivity.
Qed.

Lemma head_request_configured u : configured (head_request u).
Proof.
  unfold configured, head_request, token. cbn [method config].
  split; [destruct GITHUB_TOKEN as [[|a t]|]; reflexivity|]. split.
  - intros t -> Ht. destruct t; [contradiction|]. cbn. apply list_elem_of_here.
  - intros [-> | ->]; reflexivity.
Qed.

Lemma get_request_configured u : configured (get_request u).
Proof.
  unfold configured, get_request, token. cbn [method config].
  split; [destruct GITHUB_TOKEN as [[|a t]|]; reflexivity|]. split.
  - intros t -> Ht. destruct t; [contradiction|]. cbn. apply list_elem_of_here.
  - intros [-> | ->]; reflexivity.
Qed.

(** X15.  The requests of a call that has an outcome.  With a date range
    that fails validation there is none.  Otherwise they are, in this
    order: one HEAD request to the owner's URL if the owner passed its
    validation, one HEAD request to the repository's URL if the
    repository passed its own, then GET requests only, the first to the
    collection URL of the pull requests. *)
Theorem getPullRequests_requests (fuel : nat)
    (owner repo startDate endDate : JVal) (h hf : History)
    (c : Completion (list JVal)) :
  getPullRequests fuel owner repo startDate endDate h = Some (c, hf) ->
  (exists e, validateDateStrings startDate endDate = Throw e
             /\ c = Throw e /\ hf = h)
  \/ (validateDateStrings startDate endDate = Return tt
      /\ exists urls,
           hf = h
                ++ probe_requests (validateStringNotEmpty owner) (owner_url owner)
                ++ probe_requests (validateStringNotEmpty repo)
                                  (repo_url repo owner)
                ++ (get_request <$> (pulls_url repo owner :: urls))).
Proof.
  intros Hcall.
  destruct (validateDateStrings startDate endDate) as [[]|e] eqn:Hv.
  - right. split; [reflexivity|].
    exact (getPullRequests_history _ _ _ _ _ _ _ _ Hv Hcall).
  - unfold getPullRequests in Hcall. rewrite Hv in Hcall.
    injection Hcall as <- <-. left. exists e. auto.
Qed.

(** X16.  Every request of a call is configured the same way: a GET
    request asks for the pull requests of every state, a hundred a
    page, a HEAD request has no query; with a token that is not empty
    every request carries it in its authorization header, and without
    one (or with an empty one) no request has any header. *)
Theorem requests_configured (fuel : nat)
    (owner repo startDate endDate : JVal) (h hf : History)
    (c : Completion (list JVal)) :
  getPullRequests fuel owner repo startDate endDate h = Some (c, hf) ->
  exists new, hf = h ++ new /\ Forall configured new.
Proof.
  intros Hcall.
  destruct (validateDateStrings startDate endDate) as [[]|e] eqn:Hv.
  - destruct (getPullRequests_history _ _ _ _ _ _ _ _ Hv Hcall) as [urls ->].
    eexists. split; [reflexivity|].
    rewrite !Forall_app. split; [|split].
    + destruct (validateStringNotEmpty owner); cbn [probe_requests];
        [apply Forall_singleton, head_request_configured | constructor].
    + destruct (validateStringNotEmpty repo); cbn [probe_requests];
        [apply Forall_singleton, head_request_configured | constructor].
    + apply Forall_fmap, Forall_forall. intros u _. apply get_request_configured.
  - unfold getPullRequests in Hcall. rewrite Hv in Hcall.
    injection Hcall as _ <-. exists []. rewrite app_nil_r.
    split; [reflexivity | constructor].
Qed.

(** X17.  What a check resolves to is not looked at.  When the dates and
    the two identifiers are valid and the two HEAD requests are
    answered, with any status at all, each check resolves to whether
    its status was 200, and the call goes on to the pages as it would
    after two answers of status 200: its outcome is the failure of the
    page loop, or the projection of the filtered records. *)
Theorem check_answers_unused (fuel : nat)
    (owner repo startDate endDate : JVal) (h : History)
    (answer1 answer2 : Response) :
  validateDateStrings startDate endDate = Return tt ->
  validateStringNotEmpty owner = Return tt ->
  validateStringNotEmpty repo = Return tt ->
  axios h (head_request (owner_url owner)) = fulfilled answer1 ->
  axios (h ++ [head_request (owner_url owner)])
        (head_request (repo_url repo owner)) = fulfilled answer2 ->
  verifyOwnerExists owner h
  = (Return (status answer1 =? 200), h ++ [head_request (owner_url owner)])
  /\ verifyRepoExists repo owner (h ++ [head_request (owner_url owner)])
     = (Return (status answer2 =? 200),
        (h ++ [head_request (owner_url owner)])
        ++ [head_request (repo_url repo owner)])
  /\ getPullRequests fuel owner repo startDate endDate h
     = match getAllPullRequests fuel repo owner
               ((h ++ [head_request (owner_url owner)])
                ++ [head_request (repo_url repo owner)]) with
       | None => None
       | Some (c3, h3) =>
           Some (all ← c3;
                 filtered ← filterPullRequestsByDateRange all startDate endDate;
                 mapM (fun item => formatObjectByKey item keysToKeep) filtered,
                 h3)
       end.
Proof.
  intros Hv Ho Hr H1 H2.
  assert (verifyOwnerExists owner h
          = (Return (status answer1 =? 200), h ++ [head_request (owner_url owner)]))
    as E1.
  { rewrite (verifyOwnerExists_valid owner h Ho), H1. reflexivity. }
  assert (verifyRepoExists repo owner (h ++ [head_request (owner_url owner)])
          = (Return (status answer2 =? 200),
             (h ++ [head_request (owner_url owner)])
             ++ [head_request (repo_url repo owner)])) as E2.
  { rewrite (verifyRepoExists_valid repo owner _ Hr), H2. reflexivity. }
  split; [exact E1|]. split; [exact E2|].
  rewrite (getPullRequests_settled fuel owner repo startDate endDate h _ _ _ _
             Hv E1 E2).
  destruct (getAllPullRequests fuel repo owner _) as [[[all|e] h3]|]; reflexivity.
Qed.

(** X18.  What a call returns.  When the call returns a list, the dates
    were valid, the two checks resolved and the page loop returned its
    records, none of them [null] or [undefined]; the list has one item
    for each record the filter keeps, in the order of the records, and
    each item is an object: the projection of its record, with no key
    outside the five kept ones. *)
Theorem getPullRequests_returned (fuel : nat)
    (owner repo startDate endDate : JVal) (h hf : History) (items : list JVal) :
  getPullRequests fuel owner repo startDate endDate h = Some (Return items, hf) ->
  validateDateStrings startDate endDate = Return tt
  /\ exists b1 b2 h1 h2 all,
       verifyOwnerExists owner h = (Return b1, h1)
       /\ verifyRepoExists repo owner h1 = (Return b2, h2)
       /\ getAllPullRequests fuel repo owner h2 = Some (Return all, hf)
       /\ Forall not_nullish all
       /\ Forall2
            (fun record item =>
               exists props out : gmap string JVal,
                 record = JObj props /\ item = JObj out
                 /\ formatObjectByKey record keysToKeep = Return item
                 /\ dom out = dom props ∩ list_to_set keysToKeep)
            (List.filter (in_range_any (parseDate startDate false)
                                       (parseDate endDate true)) all)
            items.
Proof.
  intros Hcall.
  destruct (validateDateStrings startDate endDate) as [[]|e] eqn:Hv.
  2: { unfold getPullRequests in Hcall. rewrite Hv in Hcall. discriminate. }
  split; [reflexivity|].
  destruct (verifyOwnerExists owner h) as [c1 h1] eqn:H1.
  destruct (verifyRepoExists repo owner h1) as [c2 h2] eqn:H2.
  rewrite (getPullRequests_settled fuel owner repo startDate endDate h _ _ _ _
             Hv H1 H2) in Hcall.
  destruct (getAllPullRequests fuel repo owner h2) as [[c3 h3]|] eqn:H3;
    [|discriminate].
  destruct c1 as [b1|], c2 as [b2|], c3 as [all|]; cbn [first_rejection] in Hcall;
    try discriminate.
  injection Hcall as Hc <-.
  destruct (filterPullRequestsByDateRange all startDate endDate) as [kept|e] eqn:Hk;
    cbn [mbind Completion_bind] in Hc; [|discriminate].
  exists b1, b2, h1, h2, all. do 3 (split; [assumption || reflexivity|]).
  destruct (filter_returned _ _ _ _ Hk) as [Hall Hkept].
  split; [exact Hall|]. rewrite <- Hkept.
  pose proof (filter_survivors _ _ _ _ Hk) as Hrec.
  apply mapM_Return_inv in Hc.
  clear -Hrec Hc. induction Hc as [|record item kept items Hitem _ IH];
    [constructor|].
  apply Forall_cons in Hrec as [[props ->] Hrec].
  constructor; [|apply IH; exact Hrec].
  destruct (formatObjectByKey_returned _ _ _ Hitem) as (_ & out & -> & Hlook).
  exists props, out. repeat (split; [reflexivity || exact Hitem|]).
  apply (projected_dom _ _ _ Hlook).
Qed.

(** X19.  The loop has no bound of its own.  When every GET request is
    answered with a page that names a next page, the page loop has no
    outcome however many rounds it is given, and neither has a call
    with a valid date range. *)
Theorem getAllPullRequests_endless (repo owner : JVal) :
  (forall u h, exists response next,
      axios h (get_request u) = fulfilled response
      /\ next_url response = Return (Some next)) ->
  forall fuel h,
    getAllPullRequests fuel repo owner h = None
    /\ forall startDate endDate,
         validateDateStrings startDate endDate = Return tt ->
         getPullRequests fuel owner repo startDate endDate h = None.
Proof.
  intros Hnext fuel.
  assert (forall h acc u, getAllPullRequests_loop fuel acc u h = None) as Hloop.
  { induction fuel as [|fuel IH]; intros h acc u; [reflexivity|].
    rewrite loop_round, getPullsData_request.
    destruct (Hnext u h) as (response & next & -> & ->). apply IH. }
  intros h. split; [apply Hloop|].
  intros startDate endDate Hv. unfold getPullRequests. rewrite Hv.
  destruct (verifyOwnerExists owner h) as [c1 h1].
  destruct (verifyRepoExists repo owner h1) as [c2 h2].
  unfold getAllPullRequests. rewrite Hloop. reflexivity.
Qed.

End Requests.

(** ** Reading back a link header *)

Lemma append_cons c s t : String c s +:+ t = String c (s +:+ t).
Proof. reflexivity. Qed.

Lemma append_nil_l s : "" +:+ s = s.
Proof. reflexivity. Qed.

Lemma contains_app c a b : contains c (a +:+ b) = contains c a || contains c b.
Proof.
  induction a as [|x a IH]; [reflexivity|].
  rewrite append_cons. cbn [contains]. rewrite IH. apply orb_assoc.
Qed.

Lemma link_char_inv c :
  link_char c = true ->
  is_white_space c = false /\ is_line_terminator c = false
  /\ Ascii.eqb c "," = false /\ Ascii.eqb c ";" = false
  /\ Ascii.eqb c "<" = false /\ Ascii.eqb c ">" = false
  /\ Ascii.eqb c dquote = false.
Proof.
  unfold link_char. rewrite negb_true_iff, !orb_false_iff.
  intros (((((Hw & ?) & ?) & ?) & ?) & ?). repeat (split; [assumption|]).
  split; [|repeat (split; [assumption|]); assumption].
  unfold is_white_space in Hw. unfold is_line_terminator.
  rewrite !orb_false_iff in Hw. rewrite orb_false_iff. tauto.
Qed.

(** A character that is not one of a link's own does not occur in it. *)
Lemma contains_link_text c s :
  link_char c = false -> link_text s = true -> contains c s = false.
Proof.
  intros Hc. induction s as [|a s IH]; [reflexivity|].
  cbn [link_text contains]. intros [Ha Hs]%andb_true_iff.
  rewrite (IH Hs), orb_false_r.
  destruct (Ascii.eqb_spec a c) as [-> | _]; [congruence | reflexivity].
Qed.

Lemma contains_blank c s :
  is_white_space c = false -> blank s = true -> contains c s = false.
Proof.
  intros Hc. induction s as [|a s IH]; [reflexivity|].
  cbn [blank contains]. intros [Ha Hs]%andb_true_iff.
  rewrite (IH Hs), orb_false_r.
  destruct (Ascii.eqb_spec a c) as [-> | _]; [congruence | reflexivity].
Qed.

Lemma trimEnd_link_text s : link_text s = true -> trimEnd s = s.
Proof.
  induction s as [|c s IH]; [reflexivity|].
  cbn [link_text trimEnd]. intros [Hc Hs]%andb_true_iff.
  apply link_char_inv in Hc as (-> & _). rewrite (IH Hs). reflexivity.
Qed.

Lemma trimStart_link_text s : link_text s = true -> trimStart s = s.
Proof.
  destruct s as [|c s]; [reflexivity|].
  cbn [link_text trimStart]. intros [Hc _]%andb_true_iff.
  apply link_char_inv in Hc as (-> & _). reflexivity.
Qed.

Lemma trimStart_blank pre s : blank pre = true -> trimStart (pre +:+ s) = trimStart s.
Proof.
  induction pre as [|c pre IH]; [reflexivity|].
  cbn [blank]. intros [Hc Hp]%andb_true_iff.
  rewrite append_cons. cbn [trimStart]. rewrite Hc. apply IH. exact Hp.
Qed.

(** Trimming removes the white space in front of a link's text. *)
Lemma trim_link_text pre s :
  blank pre = true -> link_text s = true -> trim (pre +:+ s) = s.
Proof.
  intros Hp Hs. unfold trim.
  rewrite (trimStart_blank _ _ Hp), (trimStart_link_text _ Hs).
  apply trimEnd_link_text. exact Hs.
Qed.

Lemma span_line_link_text s close :
  link_text s = true -> is_line_terminator close = false ->
  span_line (s +:+ String close "") = (s +:+ String close "", "").
Proof.
  intros Hs Hc. induction s as [|c s IH].
  - change (span_line (String close "") = (String close "", "")).
    cbn [span_line]. rewrite Hc. reflexivity.
  - cbn [link_text] in Hs. apply andb_true_iff in Hs as [Hx Hs].
    apply link_char_inv in Hx as (_ & Hx & _).
    rewrite append_cons. cbn [span_line]. rewrite Hx, (IH Hs). reflexivity.
Qed.

Lemma split_last_end close s :
  contains close s = false ->
  split_last close (s +:+ String close "") = Some (s, "").
Proof.
  induction s as [|c s IH].
  - intros _. change (split_last close (String close "") = Some ("", "")).
    cbn [split_last]. rewrite Ascii.eqb_refl. reflexivity.
  - cbn [contains]. intros [Hc Hs]%orb_false_iff.
    rewrite append_cons. cbn [split_last]. rewrite (IH Hs). reflexivity.
Qed.

Lemma drop_prefix_app p s : drop_prefix p (p +:+ s) = Some s.
Proof.
  induction p as [|c p IH]; [destruct s; reflexivity|].
  rewrite append_cons. cbn [drop_prefix]. rewrite Ascii.eqb_refl. exact IH.
Qed.

(** The pattern matched at the start of the text: the group when the
    text is the opening, a link's text and the closing. *)
Lemma replace_group_link open close s :
  link_text s = true -> link_char close = false ->
  is_line_terminator close = false ->
  replace_group open close (open +:+ s +:+ String close "") = s.
Proof.
  intros Hs Hc Hl.
  assert ((rest ← drop_prefix open (open +:+ s +:+ String close "");
           match_group close rest) = Some s) as Hm.
  { rewrite drop_prefix_app. cbn [mbind option_bind]. unfold match_group.
    rewrite (span_line_link_text _ _ Hs Hl).
    rewrite (split_last_end _ _ (contains_link_text _ _ Hc Hs)).
    rewrite !append_empty_r. reflexivity. }
  destruct (open +:+ s +:+ String close "");
    cbn [replace_group]; rewrite Hm; reflexivity.
Qed.

(** White space in front of the text is passed over when the pattern
    opens with something else. *)
Lemma replace_group_blank o open close pre s :
  is_white_space o = false -> blank pre = true ->
  replace_group (String o open) close (pre +:+ s)
  = pre +:+ replace_group (String o open) close s.
Proof.
  intros Ho. induction pre as [|c pre IH]; [reflexivity|].
  cbn [blank]. intros [Hc Hp]%andb_true_iff.
  rewrite !append_cons. cbn [replace_group drop_prefix].
  destruct (Ascii.eqb_spec o c) as [-> | _]; [congruence|].
  cbn [mbind option_bind]. rewrite (IH Hp). reflexivity.
Qed.

Lemma link_segment_split pre rel url :
  pre +:+ link_segment rel url
  = (pre +:+ "<" +:+ url +:+ ">")
    +:+ String ";" (" " +:+ ("rel=" +:+ String dquote "")
                    +:+ rel +:+ String dquote "").
Proof.
  unfold link_segment.
  repeat (rewrite append_assoc || rewrite append_cons || rewrite append_nil_l).
  reflexivity.
Qed.

Section LinkRoundTrip.
Context {host : Host} {remote : Remote}.

(** One link is read back as it was written. *)
Lemma parseLinkPart_segment links pre rel url :
  blank pre = true -> link_text rel = true -> link_text url = true ->
  parseLinkPart links (pre +:+ link_segment rel url)
  = Return (set_link links rel url)
  /\ contains "," (pre +:+ link_segment rel url) = false.
Proof.
  intros Hp Hr Hu.
  assert (contains ";" pre = false) as Hp1 by (apply contains_blank; auto).
  assert (contains "," pre = false) as Hp2 by (apply contains_blank; auto).
  assert (contains ";" url = false) as Hu1 by (apply contains_link_text; auto).
  assert (contains "," url = false) as Hu2 by (apply contains_link_text; auto).
  assert (contains ";" rel = false) as Hr1 by (apply contains_link_text; auto).
  assert (contains "," rel = false) as Hr2 by (apply contains_link_text; auto).
  split.
  - unfold parseLinkPart. rewrite link_segment_split.
    rewrite split_append by (rewrite !contains_app, Hp1, Hu1; reflexivity).
    rewrite split_without by (rewrite !contains_app, Hr1; reflexivity).
    rewrite (replace_group_blank "<" "" ">" pre _ eq_refl Hp).
    rewrite (replace_group_link "<" ">" url Hu eq_refl eq_refl).
    rewrite (trim_link_text _ _ Hp Hu).
    rewrite (replace_group_blank "r" ("el=" +:+ String dquote "") dquote " "
               _ eq_refl eq_refl).
    change (String "r" ("el=" +:+ String dquote ""))
      with ("rel=" +:+ String dquote "").
    rewrite (replace_group_link ("rel=" +:+ String dquote "") dquote rel Hr
               eq_refl eq_refl).
    rewrite (trim_link_text " " _ eq_refl Hr). reflexivity.
  - rewrite link_segment_split, !contains_app. cbn [contains].
    rewrite !contains_app, Hp2, Hu2, Hr2. reflexivity.
Qed.

(** A header of links is read back link by link. *)
Lemma parseLinkParts_header others : forall first links pre,
  blank pre = true ->
  Forall (fun link => link_text link.1 = true /\ link_text link.2 = true)
         (first :: others) ->
  fold_left (fun acc part => links ← acc; parseLinkPart links part)
            (split "," (pre +:+ link_header first others)) (Return links)
  = Return (fold_left (fun m link => set_link m link.1 link.2)
                      (first :: others) links).
Proof.
  induction others as [|second rest IH]; intros first links pre Hp Hall;
    apply Forall_cons in Hall as [[Hr Hu] Hall];
    destruct (parseLinkPart_segment links pre first.1 first.2 Hp Hr Hu)
      as [Hpart Hcomma];
    cbn [link_header].
  - rewrite (split_without _ _ Hcomma).
    cbn [fold_left mbind Completion_bind]. rewrite Hpart. reflexivity.
  - replace (pre +:+ link_segment first.1 first.2 +:+ ", "
             +:+ link_header second rest)
      with ((pre +:+ link_segment first.1 first.2)
            +:+ String "," (" " +:+ link_header second rest))
      by (rewrite append_assoc; reflexivity).
    rewrite (split_append _ _ _ Hcomma).
    cbn [fold_left mbind Completion_bind]. rewrite Hpart.
    apply (IH second _ " " eq_refl Hall).
Qed.

Lemma set_link_other (m : gmap string string) key value rel :
  key <> rel -> set_link m key value !! rel = m !! rel.
Proof.
  intros Hne. unfold set_link. destruct (String.eqb key "__proto__"); [reflexivity|].
  apply lookup_insert_ne. exact Hne.
Qed.

Lemma links_other (links : list (string * string)) : forall m rel,
  rel ∉ links.*1 ->
  fold_left (fun m link => set_link m link.1 link.2) links m !! rel = m !! rel.
Proof.
  induction links as [|[r u] links IH]; intros m rel Hnot; [reflexivity|].
  cbn [fmap list_fmap fst] in Hnot. apply not_elem_of_cons in Hnot as [Hne Hnot].
  cbn [fold_left fst snd]. rewrite (IH _ _ Hnot).
  apply set_link_other. congruence.
Qed.

(** Among links of distinct relations each relation finds its URL. *)
Lemma links_lookup (links : list (string * string)) : forall m rel url,
  NoDup links.*1 -> (rel, url) ∈ links -> rel <> "__proto__" ->
  fold_left (fun m link => set_link m link.1 link.2) links m !! rel = Some url.
Proof.
  induction links as [|[r u] links IH]; intros m rel url Hnd Hin Hne.
  - apply elem_of_nil in Hin. contradiction.
  - cbn [fmap list_fmap fst] in Hnd. apply NoDup_cons in Hnd as [Hnot Hnd].
    cbn [fold_left fst snd].
    apply elem_of_cons in Hin as [[= <- <-] | Hin].
    + rewrite (links_other _ _ _ Hnot). unfold set_link.
      destruct (String.eqb_spec rel "__proto__") as [? | _]; [contradiction|].
      apply lookup_insert_eq.
    + apply IH; assumption.
Qed.

(** X20.  A link header written the usual way is read back as it was
    written.  For links whose URLs and relations have no white space,
    comma, semicolon, angle bracket or quote in them, each written as
    its URL in angle brackets, a semicolon, and its relation in quotes
    after [rel=], and joined by a comma and a space, the parser returns
    the mapping of the links assigned in order; when the relations are
    distinct, each relation other than [__proto__] finds its URL, and
    after a page with such a header and a non-empty URL for [next] the
    page loop goes on at that URL with the records of the page added. *)
Theorem parseLinkHeader_round_trip (first : string * string)
    (others : list (string * string)) :
  Forall (fun link => link_text link.1 = true /\ link_text link.2 = true)
         (first :: others) ->
  parseLinkHeader (link_header first others) = Return (links_of (first :: others))
  /\ (NoDup (first :: others).*1 ->
      (forall rel url,
          (rel, url) ∈ first :: others -> rel <> "__proto__" ->
          links_of (first :: others) !! rel = Some url)
      /\ (forall response url fuel acc u h h',
            headers response !! "link" = Some (link_header first others) ->
            ("next", url) ∈ first :: others -> url <> "" ->
            getPullsData u h = (Return response, h') ->
            getAllPullRequests_loop (S fuel) acc u h
            = getAllPullRequests_loop fuel (acc ++ page_records response) url h')).
Proof.
  intros Hall.
  assert (parseLinkHeader (link_header first others)
          = Return (links_of (first :: others))) as Hparse.
  { unfold parseLinkHeader. cbv zeta.
    apply (parseLinkParts_header others first ∅ "" eq_refl Hall). }
  split; [exact Hparse|]. intros Hnd.
  assert (forall rel url,
             (rel, url) ∈ first :: others -> rel <> "__proto__" ->
             links_of (first :: others) !! rel = Some url) as Hlook.
  { intros rel url Hin Hne. apply links_lookup; assumption. }
  split; [exact Hlook|].
  intros response url fuel acc u h h' Hlink Hnext Hurl Hget.
  assert (next_url response = Return (Some url)) as Hn.
  { unfold next_url. rewrite Hlink.
    assert (is_empty (link_header first others) = false) as ->.
    { destruct others; reflexivity. }
    rewrite Hparse. cbn [mbind Completion_bind].
    rewrite (Hlook "next" url Hnext) by discriminate.
    destruct url; [contradiction | reflexivity]. }
  rewrite loop_round, Hget, Hn. reflexivity.
Qed.

End LinkRoundTrip.

(** ** More on the validations *)

Lemma is_empty_true s : is_empty s = true <-> s = "".
Proof. destruct s; split; intros H; try reflexivity; discriminate. Qed.

Lemma trimEnd_empty s : trimEnd s = "" <-> blank s = true.
Proof.
  induction s as [|c s IH]; [split; reflexivity|].
  cbn [trimEnd blank]. destruct (is_white_space c); cbn [andb].
  - destruct (is_empty (trimEnd s)) eqn:He.
    + apply is_empty_true in He. split; [intros _; apply IH; exact He | reflexivity].
    + split; [discriminate|]. intros Hb. apply IH in Hb. rewrite Hb in He.
      discriminate.
  - split; discriminate.
Qed.

Lemma blank_trimStart s : blank (trimStart s) = blank s.
Proof.
  induction s as [|c s IH]; [reflexivity|].
  cbn [trimStart blank]. destruct (is_white_space c) eqn:Hc; [exact IH|].
  cbn [blank]. rewrite Hc. reflexivity.
Qed.

(** Trimming leaves nothing exactly of the texts of white space only. *)
Lemma trim_empty_blank s : trim s = "" <-> blank s = true.
Proof. unfold trim. rewrite trimEnd_empty, blank_trimStart. reflexivity. Qed.

Lemma leap_rule y :
  leap y = 1 <-> y mod 4 = 0 /\ (y mod 100 <> 0 \/ y mod 400 = 0).
Proof.
  unfold leap, DaysInYear.
  destruct (Z.eqb_spec (y mod 4) 0), (Z.eqb_spec (y mod 100) 0),
    (Z.eqb_spec (y mod 400) 0); cbn; split; intros H; try lia; try discriminate.
Qed.

Lemma calendar_date_missing y m d :
  0 <= y <= 9999 -> 0 <= m <= 99 -> 0 <= d <= 99 ->
  valid_ymd y m d = false ->
  calendar_date (date_string y m d) = None.
Proof.
  intros Hy Hm Hd Hv. unfold calendar_date.
  rewrite date_regex_string, date_fields_string by lia.
  cbn [mbind option_bind]. rewrite Hv. reflexivity.
Qed.

Section ValidationMore.
Context {host : Host} {remote : Remote}.

(** X21.  The identifier check passes the texts that have something
    other than white space in them, and nothing else: a text of white
    space only, the empty text among them, gives the error of an empty
    string; a value that is not a text gives a TypeError that names its
    type. *)
Theorem validateStringNotEmpty_blank (value : JVal) :
  (validateStringNotEmpty value = Return tt
   <-> exists s, value = JStr s /\ blank s = false)
  /\ (forall s, value = JStr s -> blank s = true ->
        validateStringNotEmpty value
        = Throw (Error "Expected a non-empty string but recieved an empty string"))
  /\ ((forall s, value <> JStr s) ->
      validateStringNotEmpty value
      = Throw (TypeError ("Expected a string but received: " +:+ typeof value))).
Proof.
  split; [|split].
  - rewrite validateStringNotEmpty_Return.
    split; intros (s & -> & Hs); exists s; (split; [reflexivity|]).
    + apply not_true_is_false. rewrite <- trim_empty_blank. exact Hs.
    + rewrite trim_empty_blank. congruence.
  - intros s -> Hs. unfold validateStringNotEmpty.
    apply trim_empty_blank in Hs. rewrite Hs. rewrite orb_true_r. reflexivity.
  - intros Hn. destruct value; try reflexivity. exfalso. eapply Hn. reflexivity.
Qed.

(** X22.  The date validation knows the calendar.  A text of the shape
    YYYY-MM-DD, given as start and end alike, is accepted exactly when
    its month is one of the twelve and its day one of the days of that
    month in that year, and is refused as an invalid start date
    otherwise; so 29 February is accepted exactly in the years divisible
    by 4 and not by 100, or divisible by 400. *)
Theorem validateDateStrings_calendar (y m d : Z) :
  0 <= y <= 9999 -> 0 <= m <= 99 -> 0 <= d <= 99 ->
  (validateDateStrings (JStr (date_string y m d)) (JStr (date_string y m d))
   = Return tt
   <-> 1 <= m <= 12 /\ 1 <= d <= DaysInMonth y m)
  /\ (~ (1 <= m <= 12 /\ 1 <= d <= DaysInMonth y m) ->
      validateDateStrings (JStr (date_string y m d)) (JStr (date_string y m d))
      = Throw (Error ("Invalid start date: " +:+ date_string y m d)))
  /\ (validateDateStrings (JStr (date_string y 2 29)) (JStr (date_string y 2 29))
      = Return tt
      <-> y mod 4 = 0 /\ (y mod 100 <> 0 \/ y mod 400 = 0)).
Proof.
  intros Hy Hm Hd.
  assert (forall m d, 0 <= m <= 99 -> 0 <= d <= 99 ->
            (valid_ymd y m d = true <-> 1 <= m <= 12 /\ 1 <= d <= DaysInMonth y m))
    as Hvalid.
  { intros m' d' _ _. unfold valid_ymd.
    rewrite !andb_true_iff, !Z.leb_le. tauto. }
  assert (forall m d, 0 <= m <= 99 -> 0 <= d <= 99 ->
            validateDateStrings (JStr (date_string y m d)) (JStr (date_string y m d))
            = if valid_ymd y m d then Return tt
              else Throw (Error ("Invalid start date: " +:+ date_string y m d)))
    as Hcall.
  { intros m' d' Hm' Hd'. rewrite validateDateStrings_strings.
    destruct (valid_ymd y m' d') eqn:Hv.
    - rewrite (calendar_date_string y m' d' Hy Hv).
      assert (ymd_lt (y, m', d') (y, m', d') = false) as ->; [|reflexivity].
      unfold ymd_lt. rewrite !Z.ltb_irrefl, !andb_false_r. reflexivity.
    - rewrite (calendar_date_missing y m' d' Hy Hm' Hd' Hv). reflexivity. }
  split; [|split].
  - rewrite (Hcall m d Hm Hd), <- (Hvalid m d Hm Hd).
    destruct (valid_ymd y m d); split; intros H; try reflexivity; discriminate.
  - intros Hnot. rewrite (Hcall m d Hm Hd).
    destruct (valid_ymd y m d) eqn:Hv; [|reflexivity].
    exfalso. apply Hnot. apply (Hvalid m d Hm Hd). exact Hv.
  - rewrite (Hcall 2 29) by lia. rewrite <- leap_rule.
    unfold valid_ymd, DaysInMonth. cbn [Z.eqb Z.leb Z.compare Pos.compare
      Pos.compare_cont andb].
    destruct (leap_cases y) as [[-> _] | [-> _]]; cbn;
      split; intros H; try reflexivity; discriminate.
Qed.

(** X23.  Dates that are not texts.  A start date that is not a text
    makes the validation throw a TypeError, whatever the end date is; a
    start text that names no date of the calendar gives the error of an
    invalid start date even when the end date is not a text; after a
    start text that names a date, an end date that is not a text gives
    a TypeError.  A call without dates fails with the TypeError of
    reading [match] of [undefined], and no request is issued. *)
Theorem validateDateStrings_not_text :
  (forall startDate endDate,
      (forall s, startDate <> JStr s) ->
      exists message,
        validateDateStrings startDate endDate = Throw (TypeError message))
  /\ (forall s endDate,
        calendar_date s = None ->
        validateDateStrings (JStr s) endDate
        = Throw (Error ("Invalid start date: " +:+ s)))
  /\ (forall s endDate,
        is_Some (calendar_date s) ->
        (forall e, endDate <> JStr e) ->
        exists message,
          validateDateStrings (JStr s) endDate = Throw (TypeError message))
  /\ (forall fuel owner repo h,
        getPullRequests fuel owner repo JUndefined JUndefined h
        = Some (Throw (TypeError
                         "Cannot read properties of undefined (reading 'match')"),
                h)).
Proof.
  split; [|split; [|split]].
  - intros startDate endDate Hn. unfold validateDateStrings.
    destruct startDate; cbn [isValidDate mbind Completion_bind]; eauto.
    exfalso. eapply Hn. reflexivity.
  - intros s endDate Hs. unfold validateDateStrings.
    rewrite isValidDate_spec, Hs.
    rewrite bool_decide_eq_false_2 by (intros [? ?]; discriminate). reflexivity.
  - intros s endDate Hs Hn. unfold validateDateStrings.
    rewrite isValidDate_spec, bool_decide_eq_true_2 by exact Hs.
    cbn [mbind Completion_bind negb].
    destruct endDate; cbn [isValidDate mbind Completion_bind]; eauto.
    exfalso. eapply Hn. reflexivity.
  - intros fuel owner repo h. reflexivity.
Qed.

End ValidationMore.

(** ** The whole call on source records *)

Section WholeCall.
Context {host : Host} {remote : Remote}.



End WholeCall.

(** ** The further properties at work *)

Ltac by_computation := vm_compute; intuition (reflexivity || discriminate).




Lemma formatDate_round_trip_east :
  formatDate (host := host_east) (JStr "2011-01-26") = "2011-01-26".
Proof.
  apply (formatDate_round_trip (host := host_east) "2011-01-26" 2011 1 26);
    [vm_compute; reflexivity | lia | by_computation].
Defined.

Lemma formatDate_west_march :
  exists before,
    calendar_date (formatDate (host := host_west) (JStr "2024-03-01"))
    = Some before
    /\ day_number before = day_number (2024, 3, 1) - 1.
Proof.
  apply (formatDate_west (host := host_west) "2024-03-01" 2024 3 1);
    [vm_compute; reflexivity | lia | by_computation].
Defined.

Lemma formatDate_yesterday :
  formatDate (host := host_utc) (JStr "yesterday") = "NaN-NaN-NaN"
  /\ calendar_date (formatDate (host := host_utc) (JStr "yesterday")) = None.
Proof.
  apply (formatDate_unreadable (host := host_utc) (JStr "yesterday")).
  vm_compute. reflexivity.
Defined.

Lemma formatDate_year_999 :
  formatDate (host := host_utc) (JStr "0999-12-31")
  = digits 999 +:+ "-" +:+ digit_string2 12 +:+ "-" +:+ digit_string2 31
  /\ date_regex (formatDate (host := host_utc) (JStr "0999-12-31")) = false
  /\ formatDate (host := host_utc) (JStr "0999-12-31") <> "0999-12-31".
Proof.
  apply (formatDate_short_year (host := host_utc) "0999-12-31" 999 12 31);
    [vm_compute; reflexivity | lia | by_computation].
Defined.

Lemma formatDate_octocat_timestamp :
  formatDate (host := host_utc) (JStr (timestamp_string 2011 1 26 19 1 12))
  = date_string 2011 1 26.
Proof.
  apply (formatDate_timestamp_date (host := host_utc) 2011 1 26 19 1 12);
    [lia | reflexivity | lia | lia | lia | by_computation].
Defined.



Lemma filter_widening_march :
  exists kept kept',
    filterPullRequestsByDateRange (host := host_utc) [pull_feb29; pull_mar01]
      (JStr "2024-03-01") (JStr "2024-03-01") = Return kept
    /\ filterPullRequestsByDateRange (host := host_utc) [pull_feb29; pull_mar01]
         (JStr "2024-02-01") (JStr "2024-03-31") = Return kept'
    /\ (forall pull, In pull kept -> In pull kept')
    /\ filterPullRequestsByDateRange (host := host_utc) kept'
         (JStr "2024-03-01") (JStr "2024-03-01") = Return kept.
Proof.
  apply (filter_widening (host := host_utc) [pull_feb29; pull_mar01]
           "2024-03-01" "2024-03-01" "2024-02-01" "2024-03-31"
           (2024, 3, 1) (2024, 3, 1) (2024, 2, 1) (2024, 3, 31));
    [vm_compute; reflexivity | vm_compute; reflexivity | vm_compute; reflexivity
    | vm_compute; reflexivity | by_computation | by_computation | by_computation |].
  repeat (constructor; [split; intros H; discriminate H|]). constructor.
Defined.


Lemma formatObjectByKey_twice_octocat :
  formatObjectByKey (host := host_utc) (JObj octocat_record) keysToKeep
  = Return (JObj octocat_item)
  /\ formatObjectByKey (host := host_utc) (JObj octocat_item) keysToKeep
     = Return (JObj octocat_item).
Proof.
  assert (formatObjectByKey (host := host_utc) (JObj octocat_record) keysToKeep
          = Return (JObj octocat_item)) as Hitem by (vm_compute; reflexivity).
  split; [exact Hitem|].
  apply (formatObjectByKey_twice (host := host_utc) octocat_record
           (JObj octocat_item)).
  - intros user Hu. vm_compute in Hu. injection Hu as <-. vm_compute. eauto.
  - intros created_at Hc. vm_compute in Hc. injection Hc as <-.
    exists 1296068472000. split; [vm_compute; reflexivity | by_computation].
  - by_computation.
  - exact Hitem.
Defined.

Lemma getPullRequests_requests_nobody :
  exists urls,
    [head_request (host := host_utc) (owner_url (JStr "nobody"));
     head_request (host := host_utc) (repo_url (JStr "nothing") (JStr "nobody"));
     get_request (host := host_utc) (pulls_url (JStr "nothing") (JStr "nobody"))]
    = [] ++ probe_requests (host := host_utc)
              (validateStringNotEmpty (JStr "nobody")) (owner_url (JStr "nobody"))
         ++ probe_requests (host := host_utc)
              (validateStringNotEmpty (JStr "nothing"))
              (repo_url (JStr "nothing") (JStr "nobody"))
         ++ (get_request (host := host_utc)
               <$> (pulls_url (JStr "nothing") (JStr "nobody") :: urls)).
Proof.
  destruct (getPullRequests_requests (host := host_utc) (remote := remote_nothing)
              1 (JStr "nobody") (JStr "nothing")
              (JStr "2011-01-01") (JStr "2011-12-31") []
              [head_request (host := host_utc) (owner_url (JStr "nobody"));
               head_request (host := host_utc)
                 (repo_url (JStr "nothing") (JStr "nobody"));
               get_request (host := host_utc)
                 (pulls_url (JStr "nothing") (JStr "nobody"))]
              (Throw (Error "repository owner nobody not found")))
    as [(e & He & _) | [_ Hurls]].
  - vm_compute. reflexivity.
  - vm_compute in He. discriminate He.
  - exact Hurls.
Defined.

Lemma requests_configured_token :
  exists new,
    [head_request (host := host_token) (owner_url (JStr "nobody"));
     head_request (host := host_token) (repo_url (JStr "nothing") (JStr "nobody"));
     get_request (host := host_token) (pulls_url (JStr "nothing") (JStr "nobody"))]
    = [] ++ new
    /\ Forall (configured (host := host_token)) new.
Proof.
  apply (requests_configured (host := host_token) (remote := remote_nothing)
           1 (JStr "nobody") (JStr "nothing")
           (JStr "2011-01-01") (JStr "2011-12-31") []
           [head_request (host := host_token) (owner_url (JStr "nobody"));
            head_request (host := host_token)
              (repo_url (JStr "nothing") (JStr "nobody"));
            get_request (host := host_token)
              (pulls_url (JStr "nothing") (JStr "nobody"))]
           (Throw (Error "repository owner nobody not found"))).
  vm_compute. reflexivity.
Defined.

Lemma check_answers_no_content :
  verifyOwnerExists (host := host_utc) (remote := remote_no_content (JArr []))
    (JStr "octocat") []
  = (Return false, [head_request (host := host_utc) (owner_url (JStr "octocat"))])
  /\ getPullRequests (host := host_utc) (remote := remote_no_content (JArr [])) 1
       (JStr "octocat") (JStr "Hello-World")
       (JStr "2011-01-01") (JStr "2011-12-31") []
     = Some (Return [],
             [head_request (host := host_utc) (owner_url (JStr "octocat"));
              head_request (host := host_utc)
                (repo_url (JStr "Hello-World") (JStr "octocat"));
              get_request (host := host_utc)
                (pulls_url (JStr "Hello-World") (JStr "octocat"))]).
Proof.
  destruct (check_answers_unused (host := host_utc)
              (remote := remote_no_content (JArr [])) 1
              (JStr "octocat") (JStr "Hello-World")
              (JStr "2011-01-01") (JStr "2011-12-31") []
              (mkResponse 204 ∅ JNull) (mkResponse 204 ∅ JNull))
    as (Howner & _ & Hcall).
  1-5: vm_compute; reflexivity.
  split; [exact Howner|]. rewrite Hcall. vm_compute. reflexivity.
Defined.

Lemma getPullRequests_returned_octocat :
  validateDateStrings (host := host_utc) (JStr "2011-01-01") (JStr "2011-12-31")
  = Return tt
  /\ exists b1 b2 h1 h2 all,
       verifyOwnerExists (host := host_utc)
         (remote := remote_one_page (JArr [JObj octocat_record]) None)
         (JStr "octocat") [] = (Return b1, h1)
       /\ verifyRepoExists (host := host_utc)
            (remote := remote_one_page (JArr [JObj octocat_record]) None)
            (JStr "Hello-World") (JStr "octocat") h1 = (Return b2, h2)
       /\ getAllPullRequests (host := host_utc)
            (remote := remote_one_page (JArr [JObj octocat_record]) None) 1
            (JStr "Hello-World") (JStr "octocat") h2
          = Some (Return all,
                  [head_request (host := host_utc) (owner_url (JStr "octocat"));
                   head_request (host := host_utc)
                     (repo_url (JStr "Hello-World") (JStr "octocat"));
                   get_request (host := host_utc)
                     (pulls_url (JStr "Hello-World") (JStr "octocat"))])
       /\ Forall not_nullish all
       /\ Forall2
            (fun record item =>
               exists props out : gmap string JVal,
                 record = JObj props /\ item = JObj out
                 /\ formatObjectByKey (host := host_utc) record keysToKeep
                    = Return item
                 /\ dom out = dom props ∩ list_to_set keysToKeep)
            (List.filter
               (in_range_any (host := host_utc)
                  (parseDate (host := host_utc) (JStr "2011-01-01") false)
                  (parseDate (host := host_utc) (JStr "2011-12-31") true)) all)
            [JObj octocat_item].
Proof.
  apply (getPullRequests_returned (host := host_utc)
           (remote := remote_one_page (JArr [JObj octocat_record]) None) 1
           (JStr "octocat") (JStr "Hello-World")
           (JStr "2011-01-01") (JStr "2011-12-31") []).
  vm_compute. reflexivity.
Defined.

Lemma getAllPullRequests_endless_sample :
  getAllPullRequests (host := host_utc) (remote := remote_endless) 1000
    (JStr "Hello-World") (JStr "octocat") []
  = None.
Proof.
  destruct (getAllPullRequests_endless (host := host_utc)
              (remote := remote_endless) (JStr "Hello-World") (JStr "octocat"))
    with (fuel := 1000%nat) (h := @nil Request) as [Hloop _].
  - intros u h. eexists. exists page_two_url.
    split; [reflexivity | vm_compute; reflexivity].
  - exact Hloop.
Defined.

Lemma parseLinkHeader_next_and_last :
  parseLinkHeader (link_header ("next", page_two_url) [("last", page_five_url)])
  = Return (links_of [("next", page_two_url); ("last", page_five_url)]).
Proof.
  destruct (parseLinkHeader_round_trip (host := host_utc)
              (remote := remote_two_pages) ("next", page_two_url)
              [("last", page_five_url)]) as [Hparse _].
  - repeat (constructor; [split; vm_compute; reflexivity|]). constructor.
  - exact Hparse.
Defined.

Lemma validateDateStrings_leap_day_2024 :
  validateDateStrings (host := host_utc) (JStr (date_string 2024 2 29))
    (JStr (date_string 2024 2 29))
  = Return tt.
Proof.
  destruct (validateDateStrings_calendar (host := host_utc) 2024 2 29)
    as (_ & _ & [_ Hleap]); [lia | lia | lia |].
  apply Hleap. split; [reflexivity | left; intros H; discriminate H].
Defined.

